(** * The VADCP receiver ([ooicore/receiver.py]): line tracker,
      conversational state and read loop.

    The development follows [_Receiver] method by method.  Python 2 [str]
    values are lists of 8-bit characters, the instance attributes are the
    fields of the record [Receiver], and every effect on a collaborator
    (log records, listener invocations, writes to the outfile, closing the
    pipeline) is appended to the [trace] field in program order. *)

From Stdlib Require Import List Ascii String ZArith QArith Bool Arith Lia.
From Stdlib Require Import DecimalString.
Import ListNotations.
Close Scope Q_scope.

(** ** Python 2 strings *)

Definition str := list ascii.

Definition newline : ascii := ascii_of_nat 10.

Definition lit (s : string) : str := list_ascii_of_string s.

(** Truth value of a [str]: the empty string is false. *)
Definition truthy_str (s : str) : bool :=
  match s with [] => false | _ :: _ => true end.

Fixpoint str_eqb (a b : str) : bool :=
  match a, b with
  | [], [] => true
  | x :: a', y :: b' => Ascii.eqb x y && str_eqb a' b'
  | _, _ => false
  end.

(** [string.whitespace] of the C locale: TAB, LF, VT, FF, CR and SPACE. *)
Definition isspace (c : ascii) : bool :=
  let n := nat_of_ascii c in
  ((9 <=? n) && (n <=? 13)) || (n =? 32).

(** [s.rstrip()]: drop the trailing whitespace. *)
Fixpoint rstrip (s : str) : str :=
  match s with
  | [] => []
  | c :: s' =>
      match rstrip s' with
      | [] => if isspace c then [] else [c]
      | t => c :: t
      end
  end.

(** [len(l)] as a Python integer. *)
Definition len {A} (l : list A) : Z := Z.of_nat (List.length l).

(** [l[i:]]: a negative start counts from the end, and the start is clamped
    into [0 .. len(l)]. *)
Definition slice_from {A} (i : Z) (l : list A) : list A :=
  let start := if (i <? 0)%Z then Z.max 0 (len l + i) else Z.min i (len l) in
  skipn (Z.to_nat start) l.

(** [s.replace('\n', prefix)]. *)
Definition replace_newline (prefix : str) (s : str) : str :=
  flat_map (fun c => if Ascii.eqb c newline then prefix else [c]) s.

(** ["%20s" % x]: right-justified in a field of width 20, never truncated. *)
Definition rjust20 (s : str) : str :=
  repeat " "%char (20 - List.length s) ++ s.

(** ** What [defs.py] and the filter modules provide *)

(** Modelled from the spec: the enumeration [State] of [ooicore/defs.py],
    which is not among the sources.  The spec gives its three members,
    [Unknown] (aka "TBD"), [Prompt] and [CollectingData]; the unset marker
    is not a member: it is Python's [None], here the [None] of
    [option State.t]. *)
Module State.

Inductive t := TBD | PROMPT | COLLECTING_DATA.

Definition eqb (a b : t) : bool :=
  match a, b with
  | TBD, TBD | PROMPT, PROMPT | COLLECTING_DATA, COLLECTING_DATA => true
  | _, _ => false
  end.

End State.

(** [self._state != state], where [self._state] may be [None]. *)
Definition state_ne (held : option State.t) (state : State.t) : bool :=
  match held with
  | None => true
  | Some h => negb (State.eqb h state)
  end.

(** The constants of [ooicore/defs.py] used by the receiver: the prompt
    text, and the text [str()] gives for a state value (used in the prefix
    of the outfile). *)
Class Defs := {
  PROMPT : str;
  State_str : State.t -> str
}.

(** The values the filters extract: timestamps ([util/ts_filter.py]) and
    PD0 ensembles ([util/pd0_filter.py]), with their Python truth value. *)
Class Elems := {
  TS : Type;
  ts_truthy : TS -> bool;
  PD0 : Type;
  pd0_truthy : PD0 -> bool
}.

(** The dict [xelems] travelling along the pipeline; only the keys
    ['latest_ts'] and ['pd0'] are ever read, with [xelems.get(key, None)]. *)
Record XElems `{Elems} := {
  x_latest_ts : option TS;
  x_pd0 : option PD0
}.

(** The empty dict [{}] that [run] sends with every buffer. *)
Definition xelems_empty `{Elems} : XElems :=
  {| x_latest_ts := None; x_pd0 := None |}.

(** What travels between two stages: [(xelems, buffer)]. *)
Definition Msg `{Elems} : Type := (XElems * str)%type.

(** The two filter coroutines, whose modules are not among the sources.
    A coroutine stage keeps local variables between two [send]s and, for
    each message it receives, sends zero or more messages to its target. *)
Class Stages `{Elems} := {
  TsFilter : Type;
  timestamp_filter_init : TsFilter;
  timestamp_filter_send : TsFilter -> Msg -> TsFilter * list Msg;
  Pd0Filter : Type;
  pd0_filter_init : Pd0Filter;
  pd0_filter_send : Pd0Filter -> Msg -> Pd0Filter * list Msg
}.

(** ** The receiver object *)

Section ReceiverObject.
Context {D : Defs} {E : Elems}.

(** Records written to [mi_logger]. *)
Inductive LogRecord :=
| LogRunning
| LogReading
| LogSocketError
| LogReadBytes (n : Z)
| LogTransition (old : option State.t) (new : State.t) (last_line : str)
| LogLines (lines : list str)
| LogTimestamp (ts : TS)
| LogPD0 (pd0 : PD0)
| LogEnded.

(** Effects on the collaborators, in program order. *)
Inductive Event :=
| Log (r : LogRecord)
| ListenerCall (pd0 : PD0)
| OutfileWrite (s : str)
| OutfileFlush
| PipelineClose.

(** The attributes of [_Receiver].  [_data_listener] and [_outfile] are
    only tested for truth and invoked, so they are kept as "is one
    configured"; what they are asked to do is in [trace].  [_sock_timeout]
    is the timeout of [self._sock]. *)
Record Receiver := {
  _sock_timeout : option Q;
  _bufsize : Z;
  _ooi_digi : bool;
  _data_listener : bool;
  _outfile : bool;
  _prefix_state : bool;
  _active : bool;
  _state : option State.t;
  _latest_ts : option TS;
  _latest_pd0 : option PD0;
  _last_line : str;
  _new_line : str;
  _lines : list str;
  _recv_time : Q;
  trace : list Event
}.

(** Attribute assignments. *)
Definition set_sock_timeout (v : option Q) (self : Receiver) : Receiver :=
  {| _sock_timeout := v; _bufsize := _bufsize self;
     _ooi_digi := _ooi_digi self; _data_listener := _data_listener self;
     _outfile := _outfile self; _prefix_state := _prefix_state self;
     _active := _active self; _state := _state self;
     _latest_ts := _latest_ts self; _latest_pd0 := _latest_pd0 self;
     _last_line := _last_line self; _new_line := _new_line self;
     _lines := _lines self; _recv_time := _recv_time self;
     trace := trace self |}.

Definition set_active (v : bool) (self : Receiver) : Receiver :=
  {| _sock_timeout := _sock_timeout self; _bufsize := _bufsize self;
     _ooi_digi := _ooi_digi self; _data_listener := _data_listener self;
     _outfile := _outfile self; _prefix_state := _prefix_state self;
     _active := v; _state := _state self;
     _latest_ts := _latest_ts self; _latest_pd0 := _latest_pd0 self;
     _last_line := _last_line self; _new_line := _new_line self;
     _lines := _lines self; _recv_time := _recv_time self;
     trace := trace self |}.

Definition set_state (v : option State.t) (self : Receiver) : Receiver :=
  {| _sock_timeout := _sock_timeout self; _bufsize := _bufsize self;
     _ooi_digi := _ooi_digi self; _data_listener := _data_listener self;
     _outfile := _outfile self; _prefix_state := _prefix_state self;
     _active := _active self; _state := v;
     _latest_ts := _latest_ts self; _latest_pd0 := _latest_pd0 self;
     _last_line := _last_line self; _new_line := _new_line self;
     _lines := _lines self; _recv_time := _recv_time self;
     trace := trace self |}.

Definition set_latest_ts (v : option TS) (self : Receiver) : Receiver :=
  {| _sock_timeout := _sock_timeout self; _bufsize := _bufsize self;
     _ooi_digi := _ooi_digi self; _data_listener := _data_listener self;
     _outfile := _outfile self; _prefix_state := _prefix_state self;
     _active := _active self; _state := _state self;
     _latest_ts := v; _latest_pd0 := _latest_pd0 self;
     _last_line := _last_line self; _new_line := _new_line self;
     _lines := _lines self; _recv_time := _recv_time self;
     trace := trace self |}.

Definition set_latest_pd0_field (v : option PD0) (self : Receiver) : Receiver :=
  {| _sock_timeout := _sock_timeout self; _bufsize := _bufsize self;
     _ooi_digi := _ooi_digi self; _data_listener := _data_listener self;
     _outfile := _outfile self; _prefix_state := _prefix_state self;
     _active := _active self; _state := _state self;
     _latest_ts := _latest_ts self; _latest_pd0 := v;
     _last_line := _last_line self; _new_line := _new_line self;
     _lines := _lines self; _recv_time := _recv_time self;
     trace := trace self |}.

Definition set_last_line (v : str) (self : Receiver) : Receiver :=
  {| _sock_timeout := _sock_timeout self; _bufsize := _bufsize self;
     _ooi_digi := _ooi_digi self; _data_listener := _data_listener self;
     _outfile := _outfile self; _prefix_state := _prefix_state self;
     _active := _active self; _state := _state self;
     _latest_ts := _latest_ts self; _latest_pd0 := _latest_pd0 self;
     _last_line := v; _new_line := _new_line self;
     _lines := _lines self; _recv_time := _recv_time self;
     trace := trace self |}.

Definition set_new_line (v : str) (self : Receiver) : Receiver :=
  {| _sock_timeout := _sock_timeout self; _bufsize := _bufsize self;
     _ooi_digi := _ooi_digi self; _data_listener := _data_listener self;
     _outfile := _outfile self; _prefix_state := _prefix_state self;
     _active := _active self; _state := _state self;
     _latest_ts := _latest_ts self; _latest_pd0 := _latest_pd0 self;
     _last_line := _last_line self; _new_line := v;
     _lines := _lines self; _recv_time := _recv_time self;
     trace := trace self |}.

Definition set_lines (v : list str) (self : Receiver) : Receiver :=
  {| _sock_timeout := _sock_timeout self; _bufsize := _bufsize self;
     _ooi_digi := _ooi_digi self; _data_listener := _data_listener self;
     _outfile := _outfile self; _prefix_state := _prefix_state self;
     _active := _active self; _state := _state self;
     _latest_ts := _latest_ts self; _latest_pd0 := _latest_pd0 self;
     _last_line := _last_line self; _new_line := _new_line self;
     _lines := v; _recv_time := _recv_time self;
     trace := trace self |}.

Definition set_recv_time (v : Q) (self : Receiver) : Receiver :=
  {| _sock_timeout := _sock_timeout self; _bufsize := _bufsize self;
     _ooi_digi := _ooi_digi self; _data_listener := _data_listener self;
     _outfile := _outfile self; _prefix_state := _prefix_state self;
     _active := _active self; _state := _state self;
     _latest_ts := _latest_ts self; _latest_pd0 := _latest_pd0 self;
     _last_line := _last_line self; _new_line := _new_line self;
     _lines := _lines self; _recv_time := v;
     trace := trace self |}.

(** One effect on a collaborator. *)
Definition emit (e : Event) (self : Receiver) : Receiver :=
  {| _sock_timeout := _sock_timeout self; _bufsize := _bufsize self;
     _ooi_digi := _ooi_digi self; _data_listener := _data_listener self;
     _outfile := _outfile self; _prefix_state := _prefix_state self;
     _active := _active self; _state := _state self;
     _latest_ts := _latest_ts self; _latest_pd0 := _latest_pd0 self;
     _last_line := _last_line self; _new_line := _new_line self;
     _lines := _lines self; _recv_time := _recv_time self;
     trace := trace self ++ [e] |}.

(** [MAX_NUM_LINES = 1024]. *)
Definition MAX_NUM_LINES : Z := 1024.

(** [_set_state]: the transition is logged, and the attribute assigned,
    only when the new state differs from the held one. *)
Definition _set_state (state : State.t) (self : Receiver) : Receiver :=
  if state_ne (_state self) state then
    let self := emit (Log (LogTransition (_state self) state (_last_line self))) self in
    let self := if truthy_str (_last_line self)
                then emit (Log (LogLines (_lines self))) self
                else self in
    set_state (Some state) self
  else self.

(** [reset_internal_info]. *)
Definition reset_internal_info (self : Receiver) : Receiver :=
  let self := set_last_line [] self in
  let self := set_new_line [] self in
  let self := set_lines [] self in
  let self := set_recv_time 0%Q self in
  _set_state State.TBD self.

(** [__init__], with the defaults of its signature left to the caller. *)
Definition __init__ (sock_timeout : option Q) (bufsize : Z) (ooi_digi : bool)
    (data_listener : bool) (outfile : bool) (prefix_state : bool) : Receiver :=
  reset_internal_info
    {| _sock_timeout := sock_timeout; _bufsize := bufsize;
       _ooi_digi := ooi_digi; _data_listener := data_listener;
       _outfile := outfile; _prefix_state := prefix_state;
       _active := false; _state := None;
       _latest_ts := None; _latest_pd0 := None;
       _last_line := []; _new_line := []; _lines := [];
       _recv_time := 0%Q; trace := [] |}.

(** [end]. *)
Definition end_ (self : Receiver) : Receiver := set_active false self.

(** The body of the [for c in buffer] loop of [_update_lines]; the
    accumulator is the local [numl] and the object. *)
Definition _update_lines_char (acc : Z * Receiver) (c : ascii) : Z * Receiver :=
  let (numl, self) := acc in
  if Ascii.eqb c newline then
    let numl := (numl + 1)%Z in
    let self := set_last_line (_new_line self) self in
    let self := set_new_line [] self in
    let self := set_lines (_lines self ++ [_last_line self]) self in
    let self := if (len (_lines self) >? MAX_NUM_LINES)%Z
                then set_lines (slice_from (1 - MAX_NUM_LINES) (_lines self)) self
                else self in
    (numl, self)
  else
    (numl, set_new_line (_new_line self ++ [c]) self).

(** [_update_lines]: returns [numl] and the updated object. *)
Definition _update_lines (buffer : str) (self : Receiver) : Z * Receiver :=
  fold_left _update_lines_char buffer (0%Z, self).

(** [_buffer_received]. *)
Definition _buffer_received (buffer : str) (self : Receiver) : Receiver :=
  let (numl, self) := _update_lines buffer self in
  if str_eqb (rstrip (_last_line self)) PROMPT then
    _set_state State.PROMPT self
  else if negb (numl =? 0)%Z then
    set_state None self
  else self.

(** [_timestamp_received]. *)
Definition _timestamp_received (ts : TS) (self : Receiver) : Receiver :=
  let self := set_latest_ts (Some ts) self in
  emit (Log (LogTimestamp ts)) self.

(** [_pd0_received]. *)
Definition _pd0_received (pd0 : PD0) (self : Receiver) : Receiver :=
  let self := _set_state State.COLLECTING_DATA self in
  let self := set_latest_pd0_field (Some pd0) self in
  let self := emit (Log (LogPD0 pd0)) self in
  if _data_listener self then emit (ListenerCall pd0) self else self.

(** One iteration of the [while True] loop of the coroutine [sink]: what
    happens when [(xelems, buffer)] is sent to it. *)
Definition sink (msg : Msg) (self : Receiver) : Receiver :=
  let (xelems, buffer) := msg in
  let self := match x_latest_ts xelems with
              | Some ts => if ts_truthy ts then _timestamp_received ts self else self
              | None => self
              end in
  let self := match x_pd0 xelems with
              | Some pd0 => if pd0_truthy pd0 then _pd0_received pd0 self else self
              | None => self
              end in
  if truthy_str buffer then _buffer_received buffer self else self.

(** [str(self._state)] for the outfile prefix. *)
Definition str_of_state (st : option State.t) : str :=
  match st with
  | None => lit "None"
  | Some s => State_str s
  end.

(** [_update_outfile]. *)
Definition _update_outfile (buffer : str) (self : Receiver) : Receiver :=
  if _outfile self then
    let buffer :=
      if _prefix_state self then
        let prefix := [newline] ++ rjust20 (str_of_state (_state self)) ++ lit "| " in
        replace_newline prefix buffer
      else buffer in
    let self := emit (OutfileWrite buffer) self in
    emit OutfileFlush self
  else self.

(** The mark written by [_end_outfile]. *)
Definition end_mark : str :=
  [newline; newline] ++ lit "<_Receiver ended.>" ++ [newline; newline].

(** [_end_outfile]. *)
Definition _end_outfile (self : Receiver) : Receiver :=
  if _outfile self then
    let self := emit (OutfileWrite end_mark) self in
    emit OutfileFlush self
  else self.

End ReceiverObject.

(** ** The pipeline and the read loop *)

Section ReadLoop.
Context {D : Defs} {E : Elems} {F : Stages}.

(** A pipeline of coroutines as [run] builds it: each stage holds its local
    variables and its target. *)
Inductive Pipeline :=
| P_sink
| P_timestamp_filter (locals : TsFilter) (target : Pipeline)
| P_pd0_filter (locals : Pd0Filter) (target : Pipeline).

(** [self.sink()], [pd0_filter(target)] and [timestamp_filter(target)]:
    a fresh, primed coroutine. *)
Definition sink_coroutine : Pipeline := P_sink.

Definition pd0_filter (target : Pipeline) : Pipeline :=
  P_pd0_filter pd0_filter_init target.

Definition timestamp_filter (target : Pipeline) : Pipeline :=
  P_timestamp_filter timestamp_filter_init target.

(** A stage fed a sequence of messages: its locals afterwards and all it
    sent to its target, in order. *)
Definition stage_run {L : Type} (step : L -> Msg -> L * list Msg)
    (locals : L) (msgs : list Msg) : L * list Msg :=
  fold_left (fun acc m => let (l, outs) := step (fst acc) m in (l, snd acc ++ outs))
            msgs (locals, []).

(** Messages pushed into a pipeline.  A stage sends each output to its
    target as soon as it has it; the locals of a stage are its own and only
    the sink acts on the receiver, so the target receives the same messages
    in the same order when it is given the outputs of the stage together. *)
Fixpoint send_all (pipeline : Pipeline) (msgs : list Msg) (self : Receiver)
    : Pipeline * Receiver :=
  match pipeline with
  | P_sink => (P_sink, fold_left (fun s m => sink m s) msgs self)
  | P_timestamp_filter locals target =>
      let (locals', outs) := stage_run timestamp_filter_send locals msgs in
      let (target', self') := send_all target outs self in
      (P_timestamp_filter locals' target', self')
  | P_pd0_filter locals target =>
      let (locals', outs) := stage_run pd0_filter_send locals msgs in
      let (target', self') := send_all target outs self in
      (P_pd0_filter locals' target', self')
  end.

(** [pipeline.send(msg)]. *)
Definition send (pipeline : Pipeline) (msg : Msg) (self : Receiver)
    : Pipeline * Receiver :=
  send_all pipeline [msg] self.

(** The exception classes [self._sock.recv] is distinguished by:
    [socket.timeout], any other [socket.error], anything else. *)
Inductive Exn := socket_timeout | socket_error | other_exception.

(** How a call of [self._sock.recv(self._bufsize)] completes. *)
Inductive RecvResult :=
| Returns (data : str)
| Raises (e : Exn).

(** What the surroundings do while the loop is blocked in [sock.recv]:
    another execution context calls [end()], or the read completes ([now]
    is what [time.time()] gives at that moment). *)
Inductive EnvEvent :=
| EndCalled
| SockRecv (r : RecvResult) (now : Q).

(** A call that reads the socket: it returns, with the events not yet
    consumed, or lets an exception through, or is still blocked in
    [sock.recv] when the known events are exhausted. *)
Inductive Outcome (A : Type) :=
| Return (a : A) (self : Receiver) (rest : list EnvEvent)
| Raise (e : Exn) (self : Receiver)
| Blocked (self : Receiver).

Arguments Return {A} a self rest.
Arguments Raise {A} e self.
Arguments Blocked {A} self.

(** The [while self._active and recv is None] loop of [_recv], from the
    point where [sock.recv] has been called, followed by the final
    [if self._active and recv]. *)
Fixpoint _recv_loop (script : list EnvEvent) (self : Receiver)
    : Outcome (option str) :=
  match script with
  | [] => Blocked self
  | EndCalled :: rest => _recv_loop rest (end_ self)
  | SockRecv (Raises socket_timeout) _ :: rest =>
      if _active self then _recv_loop rest self
      else Return None self rest
  | SockRecv (Raises socket_error) _ :: rest =>
      let self := emit (Log LogSocketError) self in
      let self := set_active false self in
      Return None self rest
  | SockRecv (Raises other_exception) _ :: rest =>
      Raise other_exception self
  | SockRecv (Returns recv) now :: rest =>
      if _active self && truthy_str recv then
        let self := set_recv_time now self in
        let self := emit (Log (LogReadBytes (len recv))) self in
        let self := _update_outfile recv self in
        Return (Some recv) self rest
      else Return None self rest
  end.

(** [_recv]. *)
Definition _recv (script : list EnvEvent) (self : Receiver)
    : Outcome (option str) :=
  let self := emit (Log LogReading) self in
  if _active self then _recv_loop script self
  else Return None self script.

(** How the [while self._active] loop of [run] ends. *)
Inductive LoopResult :=
| LoopExit (self : Receiver) (pipeline : Pipeline) (rest : list EnvEvent)
| LoopRaised (e : Exn) (self : Receiver) (pipeline : Pipeline)
| LoopBlocked (self : Receiver) (pipeline : Pipeline)
| LoopOutOfFuel.

(** The [while self._active] loop of [run]; [fuel] bounds the number of
    iterations. *)
Fixpoint run_loop (fuel : nat) (script : list EnvEvent) (self : Receiver)
    (pipeline : Pipeline) : LoopResult :=
  match fuel with
  | O => LoopOutOfFuel
  | S fuel' =>
      if _active self then
        match _recv script self with
        | Return recv self rest =>
            let (pipeline, self) :=
              match recv with
              | Some buffer => send pipeline (xelems_empty, buffer) self
              | None => (pipeline, self)
              end in
            run_loop fuel' rest self pipeline
        | Raise e self => LoopRaised e self pipeline
        | Blocked self => LoopBlocked self pipeline
        end
      else LoopExit self pipeline script
  end.

(** The pipeline set up by [run]. *)
Definition run_pipeline (self : Receiver) : Pipeline :=
  if _ooi_digi self then sink_coroutine
  else timestamp_filter (pd0_filter sink_coroutine).

(** How a call of [run] ends. *)
Inductive RunResult :=
| Finished (self : Receiver) (rest : list EnvEvent)
| Raised (e : Exn) (self : Receiver)
| Running (self : Receiver)
| OutOfFuel.

(** [run].  Every iteration of its loop consumes at least one event, so
    one more iteration than there are events is enough fuel. *)
Definition run (script : list EnvEvent) (self : Receiver) : RunResult :=
  let self := match _sock_timeout self with
              | None => set_sock_timeout (Some (4 # 10)%Q) self
              | Some _ => self
              end in
  let self := emit (Log LogRunning) self in
  let self := set_active true self in
  let pipeline := run_pipeline self in
  match run_loop (S (List.length script)) script self pipeline with
  | LoopExit self pipeline rest =>
      let self := emit PipelineClose self in
      let self := _end_outfile self in
      let self := emit (Log LogEnded) self in
      Finished self rest
  | LoopRaised e self _ => Raised e self
  | LoopBlocked self _ => Running self
  | LoopOutOfFuel => OutOfFuel
  end.

End ReadLoop.

Arguments Return {E A} a self rest.
Arguments Raise {E A} e self.
Arguments Blocked {E A} self.

(** ** The line tracker seen through the attributes it works on *)

(** [_lines], [_last_line] and [_new_line]. *)
Definition View : Type := (list str * str * str)%type.

Definition v_lines (v : View) : list str := fst (fst v).
Definition v_last_line (v : View) : str := snd (fst v).
Definition v_new_line (v : View) : str := snd v.

(** What [_update_lines] does to [_lines] when a line completes. *)
Definition push_line (line : str) (lines : list str) : list str :=
  if (len (lines ++ [line]) >? MAX_NUM_LINES)%Z
  then slice_from (1 - MAX_NUM_LINES) (lines ++ [line])
  else lines ++ [line].

(** The loop body of [_update_lines] on the three attributes alone. *)
Definition track_char (acc : Z * View) (c : ascii) : Z * View :=
  let '(numl, (lines, last_line, new_line)) := acc in
  if Ascii.eqb c newline
  then ((numl + 1)%Z, (push_line new_line lines, new_line, []))
  else (numl, (lines, last_line, new_line ++ [c])).

Definition track (buffer : str) (v : View) : Z * View :=
  fold_left track_char buffer (0%Z, v).

(** A line of text holds no newline. *)
Definition no_newline (line : str) : bool :=
  forallb (fun c => negb (Ascii.eqb c newline)) line.

(** The bytes of a sequence of newline-terminated lines. *)
Definition terminated (lines : list str) : str :=
  List.concat (map (fun l => l ++ [newline]) lines).

Section Views.
Context {D : Defs} {E : Elems}.

Definition view (self : Receiver) : View :=
  (_lines self, _last_line self, _new_line self).

(** What the line tracker decides: the three attributes and the state. *)
Definition tracker (self : Receiver) : View * option State.t :=
  (view self, _state self).

(** The state [_buffer_received] leaves, from the state held before, the
    last line after [_update_lines] and the count it returned. *)
Definition next_state (held : option State.t) (last_line : str) (numl : Z)
    : option State.t :=
  if str_eqb (rstrip last_line) PROMPT then Some State.PROMPT
  else if negb (numl =? 0)%Z then None
  else held.

(** A logged transition names the state held when it was logged and a
    different new state. *)
Definition is_transition (e : Event) : bool :=
  match e with
  | Log (LogTransition _ _ _) => true
  | _ => false
  end.

Definition real_change (e : Event) : Prop :=
  match e with
  | Log (LogTransition old new _) => old <> Some new
  | _ => True
  end.

(** The attributes the line tracker and [_set_state] never write. *)
Definition frame (self : Receiver) :=
  (_sock_timeout self, _bufsize self, _ooi_digi self, _data_listener self,
   _outfile self, _prefix_state self, _active self, _latest_ts self,
   _latest_pd0 self, _recv_time self).

(** The ensembles the data listener was invoked with, in order. *)
Definition listener_calls (events : list Event) : list PD0 :=
  flat_map (fun e => match e with ListenerCall pd0 => [pd0] | _ => [] end)
           events.

(** What the read loop may leave in the trace while it runs: anything but
    the closing of the pipeline and the final log record, and no transition
    to the state already held. *)
Definition loop_event (e : Event) : Prop :=
  match e with
  | PipelineClose => False
  | Log LogEnded => False
  | Log (LogTransition old new _) => old <> Some new
  | _ => True
  end.

(** [after] is [before] with more events, all satisfying [P]. *)
Definition extends (P : Event -> Prop) (before after : Receiver) : Prop :=
  exists events, trace after = trace before ++ events /\ Forall P events.

End Views.

(** ** Feeding a sequence of chunks *)

Section Feeding.
Context {D : Defs} {E : Elems}.

(** One call of [_update_lines] per chunk. *)
Definition feed_update_lines (chunks : list str) (self : Receiver) : Receiver :=
  fold_left (fun s b => snd (_update_lines b s)) chunks self.

(** One call of [_buffer_received] per chunk. *)
Definition feed_buffers (chunks : list str) (self : Receiver) : Receiver :=
  fold_left (fun s b => _buffer_received b s) chunks self.

(** One message [({}, chunk)] to the sink per chunk. *)
Definition feed_sink (chunks : list str) (self : Receiver) : Receiver :=
  fold_left (fun s b => sink (xelems_empty, b) s) chunks self.

End Feeding.

(** ** Numbered lines, to run the tracker on *)

(** How many lines the history holds once [n] lines were completed from an
    empty history: all of them up to [MAX_NUM_LINES]; beyond, the history
    is cut to [MAX_NUM_LINES - 1] each time it reaches
    [MAX_NUM_LINES + 1]. *)
Definition kept (n : Z) : Z :=
  if (n <=? MAX_NUM_LINES)%Z then n
  else if Z.even n then MAX_NUM_LINES
  else (MAX_NUM_LINES - 1)%Z.

(** The text ["line <n>"]. *)
Definition numbered_line (n : nat) : str :=
  lit "line " ++ lit (NilEmpty.string_of_uint (Nat.to_uint n)).

(** The lines [first], [first + 1], ... ([count] of them). *)
Definition numbered (first count : nat) : list str :=
  map numbered_line (seq first count).

(** ** Kinds of events around the read loop *)

(** Reads that time out or return data (possibly none). *)
Definition quiet (ev : EnvEvent) : bool :=
  match ev with
  | SockRecv (Raises socket_timeout) _ => true
  | SockRecv (Returns _) _ => true
  | _ => false
  end.

(** A call of [end()] and a socket error other than a timeout. *)
Definition stops_loop (ev : EnvEvent) : bool :=
  match ev with
  | EndCalled => true
  | SockRecv (Raises socket_error) _ => true
  | _ => false
  end.

(** ** A concrete receiver, to run the definitions on *)

(** [">"] as the prompt, and the member names as the texts of the states. *)
Definition sample_defs : Defs :=
  {| PROMPT := lit ">";
     State_str := fun s =>
       match s with
       | State.TBD => lit "TBD"
       | State.PROMPT => lit "PROMPT"
       | State.COLLECTING_DATA => lit "COLLECTING_DATA"
       end |}.

(** Timestamps as texts and ensembles as their bytes; a timestamp is true
    when it is not empty, an ensemble always. *)
Definition sample_elems : Elems :=
  {| TS := str; ts_truthy := truthy_str;
     PD0 := str; pd0_truthy := fun _ => true |}.

(** A receiver as [build_receiver] makes it with its defaults, a listener and
    an outfile. *)
Definition sample_receiver : @Receiver sample_elems :=
  @__init__ sample_elems None 4096 false true true true.

(** Two thousand numbered lines, cut into two chunks in the middle of a
    line. *)
Definition sample_lines : list str := numbered 1 2000.

Definition sample_chunks : list str :=
  [firstn 4001 (terminated sample_lines); skipn 4001 (terminated sample_lines)].

(** The sample receiver after the prompt line was received. *)
Definition prompted_receiver : @Receiver sample_elems :=
  @_buffer_received sample_defs sample_elems (lit ">" ++ [newline])
    sample_receiver.

(** Filters that forward every message untouched. *)
Definition sample_stages : @Stages sample_elems :=
  {| TsFilter := unit;
     timestamp_filter_init := tt;
     timestamp_filter_send := fun locals msg => (locals, [msg]);
     Pd0Filter := unit;
     pd0_filter_init := tt;
     pd0_filter_send := fun locals msg => (locals, [msg]) |}.

(** The sample receiver once [run] has set its active flag. *)
Definition active_receiver : @Receiver sample_elems :=
  set_active true sample_receiver.

(** Three chunks that cut a line and separate a line from its newline. *)
Definition cut_chunks : list str :=
  [lit "ab"; lit "c" ++ [newline] ++ lit ">"; [newline] ++ lit "x"].

(** The same receiver on an OOI Digi connection. *)
Definition digi_receiver : @Receiver sample_elems :=
  @__init__ sample_elems None 4096 true true true true.

(** A timeout, a line of text, then a socket error, and a read that is
    never made. *)
Definition quiet_script : list EnvEvent :=
  [SockRecv (Raises socket_timeout) (1 # 1)%Q;
   SockRecv (Returns (lit "abc" ++ [newline])) (2 # 1)%Q].

Definition error_script : list EnvEvent :=
  quiet_script ++
  [SockRecv (Raises socket_error) (3 # 1)%Q;
   SockRecv (Returns (lit "late")) (4 # 1)%Q].

(** The peer closed the connection: every read returns no bytes. *)
Definition closed_script : list EnvEvent :=
  repeat (SockRecv (Returns []) (1 # 1)%Q) 5.

(** A decoded ensemble and the message that carries it to the sink, with
    no text left. *)
Definition sample_pd0 : @PD0 sample_elems := lit "ensemble".

Definition sample_pd0_msg : @Msg sample_elems :=
  (@Build_XElems sample_elems None (Some sample_pd0), []).

(** A receiver whose history is full: [MAX_NUM_LINES] lines received. *)
Definition full_receiver : @Receiver sample_elems :=
  snd (_update_lines (terminated (numbered 1 1024)) sample_receiver).

(** ** More concrete receivers and scripts *)

(** The sample receiver with the state prefix of its outfile off. *)
Definition plain_receiver : @Receiver sample_elems :=
  @__init__ sample_elems None 4096 false true true false.

(** The bytes of [quiet_script] delivered by other reads. *)
Definition recut_script : list EnvEvent :=
  [SockRecv (Returns (lit "ab")) (1 # 1)%Q;
   SockRecv (Returns []) (2 # 1)%Q;
   SockRecv (Raises socket_timeout) (3 # 1)%Q;
   SockRecv (Returns (lit "c" ++ [newline])) (4 # 1)%Q].

(** A message with an ensemble and a line of text. *)
Definition sample_mixed_msg : @Msg sample_elems :=
  (@Build_XElems sample_elems None (Some sample_pd0), lit "abc" ++ [newline]).

(** A carriage return. *)
Definition carriage_return : ascii := ascii_of_nat 13.

(** Filters whose order shows at the sink: the timestamp filter stamps
    every message it forwards; the PD0 filter takes the buffer of a stamped
    message for an ensemble, leaving no text, and forwards a message that
    bears no stamp untouched. *)
Definition marking_stages : @Stages sample_elems :=
  {| TsFilter := unit;
     timestamp_filter_init := tt;
     timestamp_filter_send := fun locals msg =>
       (locals,
        [(@Build_XElems sample_elems (Some (lit "ts")) (x_pd0 (fst msg)),
          snd msg)]);
     Pd0Filter := unit;
     pd0_filter_init := tt;
     pd0_filter_send := fun locals msg =>
       (locals,
        [match x_latest_ts (fst msg) with
         | Some _ =>
             (@Build_XElems sample_elems (x_latest_ts (fst msg))
                (Some (snd msg)), [])
         | None => msg
         end]) |}.

(** A timeout and a line of text, then [sock.recv] raises an exception
    that is not a socket exception. *)
Definition foreign_script : list EnvEvent :=
  quiet_script ++ [SockRecv (Raises other_exception) (3 # 1)%Q].

(** ** Notions for the properties of the whole receiver *)

(** The number of newlines of a buffer, as [_update_lines] counts them. *)
Definition count_newlines (buffer : str) : Z :=
  Z.of_nat (count_occ ascii_dec buffer newline).

(** The bytes the reads of a script return, in order. *)
Definition data_of (script : list EnvEvent) : str :=
  flat_map (fun ev => match ev with
                      | SockRecv (Returns data) _ => data
                      | _ => []
                      end) script.

(** Reads that time out. *)
Definition is_timeout (ev : EnvEvent) : bool :=
  match ev with
  | SockRecv (Raises socket_timeout) _ => true
  | _ => false
  end.

(** The number of reads of a script that return. *)
Definition reads (script : list EnvEvent) : nat :=
  List.length (filter (fun ev => match ev with
                                 | SockRecv (Returns _) _ => true
                                 | _ => false
                                 end) script).

Section WholeReceiver.
Context {D : Defs} {E : Elems} {F : Stages}.

(** The bytes written to the outfile, in order. *)
Definition outfile_bytes (events : list Event) : str :=
  flat_map (fun e => match e with OutfileWrite s => s | _ => [] end) events.

(** The constructor arguments kept by the receiver, with the timeout of
    its socket. *)
Definition config (self : Receiver) :=
  (_sock_timeout self, _bufsize self, _ooi_digi self, _data_listener self,
   _outfile self, _prefix_state self).

(** The truthy ensemble and the truthy timestamp a message carries. *)
Definition msg_pd0 (msg : Msg) : list PD0 :=
  match x_pd0 (fst msg) with
  | Some pd0 => if pd0_truthy pd0 then [pd0] else []
  | None => []
  end.

Definition msg_ts (msg : Msg) : list TS :=
  match x_latest_ts (fst msg) with
  | Some ts => if ts_truthy ts then [ts] else []
  | None => []
  end.

(** The newest element of a list, or the value held before. *)
Definition latest {A : Type} (held : option A) (new : list A) : option A :=
  match rev new with
  | x :: _ => Some x
  | [] => held
  end.

(** The receiver when [run] enters its loop. *)
Definition run_entry (self : Receiver) : Receiver :=
  set_active true
    (emit (Log LogRunning)
       match _sock_timeout self with
       | None => set_sock_timeout (Some (4 # 10)%Q) self
       | Some _ => self
       end).

(** What [_recv] does to the receiver when a read returned [recv] and it
    is going to return it. *)
Definition recv_updates (recv : str) (now : Q) (self : Receiver) : Receiver :=
  _update_outfile recv
    (emit (Log (LogReadBytes (len recv))) (set_recv_time now self)).

(** The loop of [run] from inside [sock.recv], for one read that times out
    or returns, up to the next call of [sock.recv]. *)
Definition quiet_step (acc : Pipeline * Receiver) (ev : EnvEvent)
    : Pipeline * Receiver :=
  match ev with
  | SockRecv (Returns recv) now =>
      if truthy_str recv then
        (fst (send (fst acc) (xelems_empty, recv) (recv_updates recv now (snd acc))),
         emit (Log LogReading)
           (snd (send (fst acc) (xelems_empty, recv)
                   (recv_updates recv now (snd acc)))))
      else (fst acc, emit (Log LogReading) (snd acc))
  | _ => acc
  end.

(** The loop of [run] from inside [sock.recv]: the rest of the iteration
    under way, then [fuel] more iterations. *)
Definition run_in_recv (fuel : nat) (script : list EnvEvent) (self : Receiver)
    (pipeline : Pipeline) : LoopResult :=
  match _recv_loop script self with
  | Return recv self rest =>
      let (pipeline, self) :=
        match recv with
        | Some buffer => send pipeline (xelems_empty, buffer) self
        | None => (pipeline, self)
        end in
      run_loop fuel rest self pipeline
  | Raise e self => LoopRaised e self pipeline
  | Blocked self => LoopBlocked self pipeline
  end.

(** The texts written to the outfile, one per call of [write]. *)
Definition writes (events : list Event) : list str :=
  flat_map (fun e => match e with OutfileWrite s => [s] | _ => [] end) events.

(** The buffers [_recv] returns for the reads of a script: what the reads
    returned, the empty ones left out. *)
Definition delivered (script : list EnvEvent) : list str :=
  flat_map (fun ev => match ev with
                      | SockRecv (Returns recv) _ =>
                          if truthy_str recv then [recv] else []
                      | _ => []
                      end) script.

(** [written] is what [_update_outfile] writes for the buffer [recv]: the
    buffer itself or, with the state prefix on, the buffer with the text
    of a state after each of its newlines. *)
Definition mirror_of (prefix_state : bool) (recv written : str) : Prop :=
  if prefix_state then
    exists st : option State.t,
      written =
      replace_newline ([newline] ++ rjust20 (str_of_state st) ++ lit "| ") recv
  else written = recv.

(** One read of the loop on an OOI Digi connection as the comment of [run]
    words it, with no parsing for timestamps or ensembles: the buffer
    returned goes to the sink as it is. *)
Definition digi_step (self : Receiver) (ev : EnvEvent) : Receiver :=
  match ev with
  | SockRecv (Returns recv) now =>
      emit (Log LogReading)
        (if truthy_str recv
         then sink (xelems_empty, recv) (recv_updates recv now self)
         else self)
  | _ => self
  end.

(** One read of the loop on any other connection, worded by stages: the
    buffer returned goes with an empty dict through the timestamp filter;
    all that filter sends goes through the PD0 filter; all that one sends
    goes to the sink, message after message. *)
Definition two_stage_step (acc : (TsFilter * Pd0Filter) * Receiver)
    (ev : EnvEvent) : (TsFilter * Pd0Filter) * Receiver :=
  match ev with
  | SockRecv (Returns recv) now =>
      if truthy_str recv then
        let ts := timestamp_filter_send (fst (fst acc)) (xelems_empty, recv) in
        let pd0 := stage_run pd0_filter_send (snd (fst acc)) (snd ts) in
        ((fst ts, fst pd0),
         emit (Log LogReading)
           (fold_left (fun s m => sink m s) (snd pd0)
              (recv_updates recv now (snd acc))))
      else (fst acc, emit (Log LogReading) (snd acc))
  | _ => acc
  end.

End WholeReceiver.

(** Listener invocations of a trace written out with [++]. *)
Ltac count_calls :=
  unfold listener_calls in *; cbn; rewrite ?flat_map_app; cbn;
  rewrite ?app_nil_r.

(** ** Facts on the line tracker *)

Section LineTracker.
Context {D : Defs} {E : Elems}.

Lemma track_char_acc (n : Z) (v : View) (c : ascii) :
  track_char (n, v) c =
  ((n + fst (track_char (0%Z, v) c))%Z, snd (track_char (0%Z, v) c)).
Proof.
  destruct v as [[lines last_line] new_line]. unfold track_char.
  destruct (Ascii.eqb c newline); simpl; rewrite ?Z.add_0_r; reflexivity.
Qed.

Lemma track_acc (b : str) : forall (n : Z) (v : View),
  fold_left track_char b (n, v) = ((n + fst (track b v))%Z, snd (track b v)).
Proof.
  unfold track. induction b as [|c b IH]; intros n v; cbn [fold_left].
  - cbn [fst snd]. rewrite Z.add_0_r. reflexivity.
  - rewrite (track_char_acc n v c).
    destruct (track_char (0%Z, v) c) as [k v'] eqn:Hk. cbn [fst snd].
    rewrite (IH (n + k)%Z v'), (IH k v'). cbn [fst snd].
    rewrite Z.add_assoc. reflexivity.
Qed.

Lemma track_app (a b : str) (v : View) :
  track (a ++ b) v =
  ((fst (track a v) + fst (track b (snd (track a v))))%Z,
   snd (track b (snd (track a v)))).
Proof.
  unfold track at 1. rewrite fold_left_app. fold (track a v).
  destruct (track a v) as [n1 v1]. cbn [fst snd]. apply track_acc.
Qed.

Lemma track_nil (v : View) : track [] v = (0%Z, v).
Proof. reflexivity. Qed.

Lemma track_cons (c : ascii) (b : str) (v : View) :
  track (c :: b) v =
  ((fst (track_char (0%Z, v) c) + fst (track b (snd (track_char (0%Z, v) c))))%Z,
   snd (track b (snd (track_char (0%Z, v) c)))).
Proof.
  unfold track at 1. cbn [fold_left].
  destruct (track_char (0%Z, v) c) as [k v']. cbn [fst snd]. apply track_acc.
Qed.

Lemma track_char_count (v : View) (c : ascii) :
  fst (track_char (0%Z, v) c) = if Ascii.eqb c newline then 1%Z else 0%Z.
Proof.
  destruct v as [[lines last_line] new_line]. unfold track_char.
  destruct (Ascii.eqb c newline); reflexivity.
Qed.

Lemma track_char_view (v : View) (c : ascii) :
  snd (track_char (0%Z, v) c) =
  if Ascii.eqb c newline
  then (push_line (v_new_line v) (v_lines v), v_new_line v, [])
  else (v_lines v, v_last_line v, v_new_line v ++ [c]).
Proof.
  destruct v as [[lines last_line] new_line]. unfold track_char.
  destruct (Ascii.eqb c newline); reflexivity.
Qed.

Lemma track_count_nonneg (b : str) : forall v, (0 <= fst (track b v))%Z.
Proof.
  induction b as [|c b IH]; intros v.
  - rewrite track_nil. cbn [fst]. lia.
  - rewrite track_cons. cbn [fst]. rewrite track_char_count.
    specialize (IH (snd (track_char (0%Z, v) c))).
    destruct (Ascii.eqb c newline); lia.
Qed.

(** No line completed: the history and the last line are untouched. *)
Lemma track_count_zero (b : str) : forall v,
  fst (track b v) = 0%Z ->
  v_lines (snd (track b v)) = v_lines v /\
  v_last_line (snd (track b v)) = v_last_line v.
Proof.
  induction b as [|c b IH]; intros v Hz.
  - rewrite track_nil. auto.
  - rewrite track_cons in *. cbn [fst snd] in *.
    rewrite track_char_count in Hz.
    pose proof (track_count_nonneg b (snd (track_char (0%Z, v) c))) as Hpos.
    destruct (IH (snd (track_char (0%Z, v) c))) as [Hl Hll].
    { destruct (Ascii.eqb c newline); lia. }
    rewrite Hl, Hll, track_char_view.
    destruct (Ascii.eqb c newline); [lia | auto].
Qed.

(** The model of [_update_lines] acts on the three attributes as [track]
    does and leaves the state and the trace alone. *)
Lemma update_lines_char_track (n : Z) (self : Receiver) (c : ascii) :
  let r := _update_lines_char (n, self) c in
  (fst r, view (snd r)) = track_char (n, view self) c /\
  _state (snd r) = _state self /\ trace (snd r) = trace self.
Proof.
  unfold _update_lines_char, track_char, push_line, view.
  destruct (Ascii.eqb c newline); cbn; auto.
  destruct (len (_lines self ++ [_new_line self]) >? MAX_NUM_LINES)%Z;
    cbn; auto.
Qed.

Lemma update_lines_fold_track (b : str) : forall (n : Z) (self : Receiver),
  let r := fold_left _update_lines_char b (n, self) in
  (fst r, view (snd r)) = fold_left track_char b (n, view self) /\
  _state (snd r) = _state self /\ trace (snd r) = trace self.
Proof.
  induction b as [|c b IH]; intros n self; cbn [fold_left].
  - cbn. auto.
  - destruct (update_lines_char_track n self c) as (Hv & Hs & Ht).
    destruct (_update_lines_char (n, self) c) as [n1 s1]. cbn [fst snd] in *.
    rewrite <- Hv, <- Hs, <- Ht. apply IH.
Qed.

Lemma update_lines_track (b : str) (self : Receiver) :
  (fst (_update_lines b self), view (snd (_update_lines b self))) =
    track b (view self) /\
  _state (snd (_update_lines b self)) = _state self /\
  trace (snd (_update_lines b self)) = trace self.
Proof. apply update_lines_fold_track. Qed.

End LineTracker.

(** ** Chunk boundaries *)

Section Chunking.
Context {D : Defs} {E : Elems}.

Lemma state_ne_false (held : option State.t) (state : State.t) :
  state_ne held state = false -> held = Some state.
Proof.
  destruct held as [h|]; cbn; [|discriminate].
  destruct h, state; cbn; intros H; try discriminate; reflexivity.
Qed.

Lemma state_ne_true (held : option State.t) (state : State.t) :
  state_ne held state = true -> held <> Some state.
Proof.
  destruct held as [h|]; cbn; [|discriminate].
  destruct h, state; cbn; intros H; try discriminate; intros [=].
Qed.

Lemma set_state_tracker (state : State.t) (self : Receiver) :
  tracker (_set_state state self) = (view self, Some state).
Proof.
  unfold _set_state, tracker, view.
  destruct (state_ne (_state self) state) eqn:Hne.
  - cbn. destruct (truthy_str (_last_line self)); reflexivity.
  - rewrite (state_ne_false _ _ Hne). reflexivity.
Qed.

(** [_buffer_received] on the tracked attributes. *)
Lemma buffer_received_tracker (b : str) (self : Receiver) :
  tracker (_buffer_received b self) =
  (snd (track b (view self)),
   next_state (_state self) (v_last_line (snd (track b (view self))))
              (fst (track b (view self)))).
Proof.
  unfold _buffer_received, next_state.
  destruct (update_lines_track b self) as (Hv & Hs & _).
  destruct (_update_lines b self) as [n s1]. cbn [fst snd] in *.
  rewrite <- Hv. cbn [fst snd]. unfold v_last_line, view at 1 2. cbn [fst snd].
  destruct (str_eqb (rstrip (_last_line s1)) PROMPT).
  - apply set_state_tracker.
  - destruct (negb (n =? 0)%Z); unfold tracker, view; cbn;
      rewrite ?Hs; reflexivity.
Qed.

Lemma next_state_two (held : option State.t) (b1 b2 : str) (v : View) :
  next_state
    (next_state held (v_last_line (snd (track b1 v))) (fst (track b1 v)))
    (v_last_line (snd (track b2 (snd (track b1 v)))))
    (fst (track b2 (snd (track b1 v)))) =
  next_state held (v_last_line (snd (track b2 (snd (track b1 v)))))
    (fst (track b1 v) + fst (track b2 (snd (track b1 v))))%Z.
Proof.
  pose proof (track_count_nonneg b1 v) as H1.
  pose proof (track_count_nonneg b2 (snd (track b1 v))) as H2.
  pose proof (track_count_zero b2 (snd (track b1 v))) as Hz.
  set (n1 := fst (track b1 v)) in *.
  set (v1 := snd (track b1 v)) in *.
  set (n2 := fst (track b2 v1)) in *.
  set (v2 := snd (track b2 v1)) in *.
  unfold next_state.
  destruct (str_eqb (rstrip (v_last_line v2)) PROMPT) eqn:Hp; [reflexivity|].
  destruct (Z.eqb_spec n2 0) as [Hn2|Hn2]; cbn [negb].
  - destruct (Hz Hn2) as [_ Hll]. rewrite <- Hll, Hp.
    replace (n1 + n2)%Z with n1 by lia. reflexivity.
  - destruct (Z.eqb_spec (n1 + n2) 0); [lia | reflexivity].
Qed.

(** Two successive buffers against their concatenation. *)
Lemma buffer_received_app (b1 b2 : str) (self : Receiver) :
  tracker (_buffer_received b2 (_buffer_received b1 self)) =
  tracker (_buffer_received (b1 ++ b2) self).
Proof.
  rewrite (buffer_received_tracker b2), (buffer_received_tracker (b1 ++ b2)).
  pose proof (buffer_received_tracker b1 self) as H1.
  unfold tracker in H1. injection H1 as Hv Hs. rewrite Hv, Hs.
  rewrite track_app. cbn [fst snd]. f_equal. apply next_state_two.
Qed.

Lemma sink_text (b : str) (self : Receiver) :
  sink (xelems_empty, b) self =
  if truthy_str b then _buffer_received b self else self.
Proof. reflexivity. Qed.

Lemma sink_text_app (b1 b2 : str) (self : Receiver) :
  tracker (sink (xelems_empty, b2) (sink (xelems_empty, b1) self)) =
  tracker (sink (xelems_empty, b1 ++ b2) self).
Proof.
  rewrite !sink_text. destruct b1 as [|c1 b1].
  - reflexivity.
  - destruct b2 as [|c2 b2].
    + rewrite app_nil_r. reflexivity.
    + cbn [truthy_str app]. apply (buffer_received_app (c1 :: b1) (c2 :: b2)).
Qed.

Lemma update_lines_char_snd (n m : Z) (self : Receiver) (c : ascii) :
  snd (_update_lines_char (n, self) c) = snd (_update_lines_char (m, self) c).
Proof.
  unfold _update_lines_char. destruct (Ascii.eqb c newline); reflexivity.
Qed.

Lemma update_lines_fold_snd (b : str) : forall (n m : Z) (self : Receiver),
  snd (fold_left _update_lines_char b (n, self)) =
  snd (fold_left _update_lines_char b (m, self)).
Proof.
  induction b as [|c b IH]; intros n m self; cbn [fold_left]; [reflexivity|].
  pose proof (update_lines_char_snd n m self c) as Hc.
  destruct (_update_lines_char (n, self) c) as [n1 s1].
  destruct (_update_lines_char (m, self) c) as [m1 s2].
  cbn [snd] in Hc. subst s2. apply IH.
Qed.

Lemma update_lines_app (b1 b2 : str) (self : Receiver) :
  snd (_update_lines (b1 ++ b2) self) =
  snd (_update_lines b2 (snd (_update_lines b1 self))).
Proof.
  unfold _update_lines. rewrite fold_left_app.
  destruct (fold_left _update_lines_char b1 (0%Z, self)) as [n1 s1].
  cbn [snd]. apply update_lines_fold_snd.
Qed.

Lemma feed_update_lines_concat (chunks : list str) : forall self,
  feed_update_lines chunks self = snd (_update_lines (List.concat chunks) self).
Proof.
  unfold feed_update_lines.
  induction chunks as [|c cs IH]; intros self; cbn [fold_left List.concat].
  - reflexivity.
  - rewrite IH, update_lines_app. reflexivity.
Qed.

Lemma feed_sink_concat (chunks : list str) : forall self,
  tracker (feed_sink chunks self) =
  tracker (sink (xelems_empty, List.concat chunks) self).
Proof.
  unfold feed_sink.
  induction chunks as [|c cs IH]; intros self; cbn [fold_left List.concat].
  - reflexivity.
  - rewrite IH. apply sink_text_app.
Qed.

Lemma feed_buffers_concat (cs : list str) : forall (c : str) (self : Receiver),
  tracker (feed_buffers (c :: cs) self) =
  tracker (_buffer_received (c ++ List.concat cs) self).
Proof.
  unfold feed_buffers.
  induction cs as [|d cs IH]; intros c self; cbn [fold_left List.concat].
  - rewrite app_nil_r. reflexivity.
  - specialize (IH d (_buffer_received c self)). cbn [fold_left] in IH.
    rewrite IH. apply buffer_received_app.
Qed.

(** C1: however a byte sequence is cut into chunks, the line tracker ends
    as if it had been given all the bytes in one call: one [_update_lines]
    per chunk leaves the very object a single [_update_lines] leaves; one
    message to the sink per chunk, and one [_buffer_received] per chunk when
    there is at least one chunk, leave the same line history, last line,
    in-progress line and state as a single call on the whole sequence. *)
Theorem chunking_invariance (chunks : list str) (self : Receiver) :
  feed_update_lines chunks self =
    snd (_update_lines (List.concat chunks) self) /\
  tracker (feed_sink chunks self) =
    tracker (sink (xelems_empty, List.concat chunks) self) /\
  (chunks <> [] ->
   tracker (feed_buffers chunks self) =
     tracker (_buffer_received (List.concat chunks) self)).
Proof.
  split; [apply feed_update_lines_concat|].
  split; [apply feed_sink_concat|].
  destruct chunks as [|c cs]; [congruence|].
  intros _. apply feed_buffers_concat.
Qed.

End Chunking.

(** ** The bound on the line history *)

Section History.
Context {D : Defs} {E : Elems}.

Lemma len_app {A} (l1 l2 : list A) : len (l1 ++ l2) = (len l1 + len l2)%Z.
Proof. unfold len. rewrite length_app. lia. Qed.

Lemma len_skipn {A} (n : nat) (l : list A) :
  len (skipn n l) = (len l - Z.min (Z.of_nat n) (len l))%Z.
Proof. unfold len. rewrite length_skipn. lia. Qed.

Lemma len_nonneg {A} (l : list A) : (0 <= len l)%Z.
Proof. unfold len. lia. Qed.

(** The eviction, as a number of oldest entries dropped. *)
Lemma push_line_skipn (line : str) (lines : list str) :
  push_line line lines =
  skipn (Z.to_nat (if (len lines + 1 >? MAX_NUM_LINES)%Z
                   then len lines + 1 - (MAX_NUM_LINES - 1) else 0)%Z)
        (lines ++ [line]).
Proof.
  unfold push_line, slice_from. rewrite len_app.
  change (len [line]) with 1%Z.
  pose proof (len_nonneg lines) as Hl.
  destruct (len lines + 1 >? MAX_NUM_LINES)%Z eqn:Hgt; [|reflexivity].
  unfold MAX_NUM_LINES in *. cbn [Z.ltb Z.sub Z.opp Z.add Z.pos_sub Z.compare].
  f_equal. f_equal. lia.
Qed.

Lemma push_line_len (line : str) (lines : list str) :
  len (push_line line lines) =
  if (len lines + 1 >? MAX_NUM_LINES)%Z then (MAX_NUM_LINES - 1)%Z
  else (len lines + 1)%Z.
Proof.
  rewrite push_line_skipn, len_skipn, len_app. change (len [line]) with 1%Z.
  pose proof (len_nonneg lines) as Hl. unfold MAX_NUM_LINES in *.
  destruct (len lines + 1 >? 1024)%Z eqn:Hgt; lia.
Qed.

Lemma push_line_bound (line : str) (lines : list str) :
  (len (push_line line lines) <= MAX_NUM_LINES)%Z.
Proof.
  rewrite push_line_len. unfold MAX_NUM_LINES.
  destruct (len lines + 1 >? 1024)%Z eqn:Hgt; lia.
Qed.

Lemma track_lines_bound (b : str) : forall v,
  (len (v_lines v) <= MAX_NUM_LINES)%Z ->
  (len (v_lines (snd (track b v))) <= MAX_NUM_LINES)%Z.
Proof.
  induction b as [|c b IH]; intros v Hv.
  - rewrite track_nil. exact Hv.
  - rewrite track_cons. cbn [snd]. apply IH. rewrite track_char_view.
    destruct (Ascii.eqb c newline); cbn; [apply push_line_bound | exact Hv].
Qed.

Lemma update_lines_view (b : str) (self : Receiver) :
  view (snd (_update_lines b self)) = snd (track b (view self)).
Proof.
  destruct (update_lines_track b self) as (Hv & _).
  rewrite <- Hv. reflexivity.
Qed.

Lemma update_lines_bound (b : str) (self : Receiver) :
  (len (_lines self) <= MAX_NUM_LINES)%Z ->
  (len (_lines (snd (_update_lines b self))) <= MAX_NUM_LINES)%Z.
Proof.
  intros H. change (_lines (snd (_update_lines b self)))
    with (v_lines (view (snd (_update_lines b self)))).
  rewrite update_lines_view. apply track_lines_bound. exact H.
Qed.

(** Text without a newline only grows the in-progress line. *)
Lemma track_no_newline (l : str) : forall v : View,
  no_newline l = true ->
  track l v = (0%Z, (v_lines v, v_last_line v, v_new_line v ++ l)).
Proof.
  induction l as [|c l IH]; intros v Hl.
  - rewrite track_nil, app_nil_r. destruct v as [[? ?] ?]. reflexivity.
  - cbn [no_newline forallb] in Hl. apply andb_true_iff in Hl as [Hc Hl].
    apply negb_true_iff in Hc.
    rewrite track_cons, track_char_count, track_char_view, Hc.
    rewrite (IH _ Hl). cbn [v_lines v_last_line v_new_line fst snd].
    rewrite <- app_assoc. reflexivity.
Qed.

(** A newline-terminated line is completed and pushed onto the history. *)
Lemma track_terminated_line (l : str) (v : View) :
  no_newline l = true ->
  track (l ++ [newline]) v =
  (1%Z, (push_line (v_new_line v ++ l) (v_lines v), v_new_line v ++ l, [])).
Proof.
  intros Hl. rewrite track_app, (track_no_newline l v Hl).
  cbn [fst snd]. rewrite track_cons, track_char_count, track_char_view.
  change (Ascii.eqb newline newline) with true. rewrite track_nil.
  reflexivity.
Qed.

Lemma track_terminated (ls : list str) : forall v : View,
  forallb no_newline ls = true ->
  v_new_line v = [] ->
  v_lines (snd (track (terminated ls) v)) =
    fold_left (fun h l => push_line l h) ls (v_lines v) /\
  v_new_line (snd (track (terminated ls) v)) = [].
Proof.
  unfold terminated.
  induction ls as [|l ls IH]; intros v Hls Hv.
  - cbn. auto.
  - cbn [forallb] in Hls. apply andb_true_iff in Hls as [Hl Hls].
    cbn [map List.concat fold_left].
    rewrite track_app, (track_terminated_line l v Hl), Hv.
    cbn [fst snd app].
    apply (IH (push_line l (v_lines v), l, []) Hls eq_refl).
Qed.

Lemma kept_le (n : Z) : (0 <= n -> 0 <= kept n <= n)%Z.
Proof.
  unfold kept, MAX_NUM_LINES. intros Hn.
  destruct (Z.leb_spec n 1024); [lia|]. destruct (Z.even n); lia.
Qed.

Lemma kept_succ (n : Z) :
  (0 <= n)%Z ->
  kept (n + 1) = if (kept n + 1 >? MAX_NUM_LINES)%Z
                 then (MAX_NUM_LINES - 1)%Z else (kept n + 1)%Z.
Proof.
  intros Hn. unfold kept, MAX_NUM_LINES. rewrite Z.even_add.
  change (Z.even 1) with false.
  destruct (Z.leb_spec n 1024) as [H1|H1];
    destruct (Z.leb_spec (n + 1) 1024) as [H2|H2]; try lia.
  - destruct (Z.gtb_spec (n + 1) 1024); [lia | reflexivity].
  - assert (n = 1024%Z) by lia. subst n. reflexivity.
  - destruct (Z.even n); cbn [Bool.eqb]; reflexivity.
Qed.

(** The history after [ls] was completed line by line from nothing: the
    newest [kept (len ls)] lines. *)
Lemma fold_push_line (ls : list str) :
  fold_left (fun h l => push_line l h) ls [] =
  skipn (Z.to_nat (len ls - kept (len ls))) ls.
Proof.
  induction ls as [|l p IH] using rev_ind.
  - reflexivity.
  - rewrite fold_left_app. cbn [fold_left]. rewrite IH, push_line_skipn.
    pose proof (len_nonneg p) as Hp. pose proof (kept_le _ Hp) as Hk.
    rewrite len_skipn, len_app. change (len [l]) with 1%Z.
    rewrite (kept_succ _ Hp).
    replace (len p - Z.min (Z.of_nat (Z.to_nat (len p - kept (len p)))) (len p))%Z
      with (kept (len p)) by lia.
    assert (Happ : skipn (Z.to_nat (len p - kept (len p))) p ++ [l] =
                   skipn (Z.to_nat (len p - kept (len p))) (p ++ [l])).
    { rewrite skipn_app.
      replace (Z.to_nat (len p - kept (len p)) - List.length p)%nat with 0%nat
        by (unfold len in *; lia).
      reflexivity. }
    rewrite Happ, skipn_skipn. f_equal. unfold MAX_NUM_LINES in *.
    destruct (kept (len p) + 1 >? 1024)%Z eqn:Hgt; lia.
Qed.

End History.

Section HistoryClaims.
Context {D : Defs} {E : Elems}.

Lemma terminated_truthy (l : str) (ls : list str) :
  truthy_str (terminated (l :: ls)) = true.
Proof. unfold terminated. cbn. destruct l; reflexivity. Qed.

(** C2: a call of [_update_lines] on a history of at most
    [MAX_NUM_LINES = 1024] entries leaves at most 1024 entries, so that the
    history of a receiver never holds more, whatever the chunks it was
    given since its construction; and 2000 newline-terminated lines given to
    a fresh tracker, in any chunking, leave exactly the last 1024 of them
    (lines 977 to 2000). *)
Theorem line_history_bounded :
  (forall (b : str) (self : Receiver),
     (len (_lines self) <= MAX_NUM_LINES)%Z ->
     (len (_lines (snd (_update_lines b self))) <= MAX_NUM_LINES)%Z) /\
  (forall sock_timeout bufsize ooi_digi data_listener outfile prefix_state
          (chunks : list str),
     (len (_lines (feed_update_lines chunks
            (__init__ sock_timeout bufsize ooi_digi data_listener outfile
                      prefix_state))) <= 1024)%Z) /\
  (forall (chunks lines : list str) (self : Receiver),
     _lines self = [] -> _new_line self = [] ->
     len lines = 2000%Z ->
     forallb no_newline lines = true ->
     List.concat chunks = terminated lines ->
     _lines (feed_update_lines chunks self) = skipn 976 lines /\
     _lines (feed_sink chunks self) = skipn 976 lines /\
     len (skipn 976 lines) = 1024%Z).
Proof.
  split; [exact update_lines_bound|]. split.
  - intros. rewrite feed_update_lines_concat.
    apply update_lines_bound. cbn. unfold MAX_NUM_LINES. lia.
  - intros chunks lines self Hlines Hnew Hlen Hnl Hcat.
    assert (Htrack : v_lines (snd (track (terminated lines) (view self))) =
                     skipn 976 lines).
    { destruct (track_terminated lines (view self) Hnl Hnew) as [Hl _].
      rewrite Hl. change (v_lines (view self)) with (_lines self).
      rewrite Hlines, fold_push_line, Hlen. reflexivity. }
    split; [|split].
    + rewrite feed_update_lines_concat, Hcat.
      change (_lines (snd (_update_lines (terminated lines) self)))
        with (v_lines (view (snd (_update_lines (terminated lines) self)))).
      rewrite update_lines_view. exact Htrack.
    + change (_lines (feed_sink chunks self))
        with (v_lines (fst (tracker (feed_sink chunks self)))).
      rewrite feed_sink_concat, Hcat. destruct lines as [|l ls]; [discriminate|].
      rewrite sink_text, terminated_truthy, buffer_received_tracker.
      exact Htrack.
    + rewrite len_skipn. lia.
Qed.

End HistoryClaims.

Lemma line_history_bounded_witness :
  _lines sample_receiver = [] /\ _new_line sample_receiver = [] /\
  len sample_lines = 2000%Z /\
  forallb no_newline sample_lines = true /\
  List.concat sample_chunks = terminated sample_lines /\
  _lines (feed_update_lines sample_chunks sample_receiver) = numbered 977 1024.
Proof.
  assert (H1 : _lines sample_receiver = []) by reflexivity.
  assert (H2 : _new_line sample_receiver = []) by reflexivity.
  assert (H3 : len sample_lines = 2000%Z) by (vm_compute; reflexivity).
  assert (H4 : forallb no_newline sample_lines = true)
    by (vm_compute; reflexivity).
  assert (H5 : List.concat sample_chunks = terminated sample_lines)
    by (vm_compute; reflexivity).
  do 5 (split; [assumption|]).
  destruct (@line_history_bounded sample_defs sample_elems) as (_ & _ & H).
  destruct (H sample_chunks sample_lines sample_receiver H1 H2 H3 H4 H5)
    as (Hl & _ & _).
  rewrite Hl. vm_compute. reflexivity.
Defined.

(** C3: with [MAX_NUM_LINES = 1024] lines in the history, the line that
    makes the count 1025 is followed by an eviction that leaves 1023
    entries, lines 3 to 1025: two of the oldest are dropped, not one. *)
Theorem eviction_keeps_one_less :
  _lines full_receiver = numbered 1 1024 /\
  _lines (snd (_update_lines (terminated [numbered_line 1025]) full_receiver)) =
    numbered 3 1023 /\
  len (_lines (snd (_update_lines (terminated [numbered_line 1025])
                                  full_receiver))) = (MAX_NUM_LINES - 1)%Z.
Proof. vm_compute. repeat split; reflexivity. Qed.

(** ** The conversational state *)

Section ConversationalState.
Context {D : Defs} {E : Elems}.

Lemma str_eqb_eq (a : str) : forall b, str_eqb a b = true <-> a = b.
Proof.
  induction a as [|x a IH]; intros [|y b]; cbn; split; intros H;
    try discriminate; try reflexivity.
  - apply andb_true_iff in H as [Hx Ha]. apply Ascii.eqb_eq in Hx.
    apply IH in Ha. congruence.
  - injection H as Hx Ha. apply andb_true_iff. split.
    + apply Ascii.eqb_eq. exact Hx.
    + apply IH. exact Ha.
Qed.

(** The count [_update_lines] returns is the number of newlines of the
    buffer. *)
Lemma track_count (b : str) : forall v,
  fst (track b v) = Z.of_nat (count_occ ascii_dec b newline).
Proof.
  induction b as [|c b IH]; intros v.
  - reflexivity.
  - rewrite track_cons. cbn [fst]. rewrite IH, track_char_count.
    cbn [count_occ]. destruct (ascii_dec c newline) as [Hc|Hc].
    + subst c. change (Ascii.eqb newline newline) with true. lia.
    + apply Ascii.eqb_neq in Hc. rewrite Hc. lia.
Qed.

Lemma update_lines_count (b : str) (self : Receiver) :
  fst (_update_lines b self) = Z.of_nat (count_occ ascii_dec b newline).
Proof.
  destruct (update_lines_track b self) as (Hv & _).
  rewrite <- (track_count b (view self)), <- Hv. reflexivity.
Qed.

Lemma buffer_received_last_line (b : str) (self : Receiver) :
  _last_line (_buffer_received b self) = _last_line (snd (_update_lines b self)).
Proof.
  change (_last_line (_buffer_received b self))
    with (v_last_line (fst (tracker (_buffer_received b self)))).
  rewrite buffer_received_tracker. cbn [fst].
  rewrite <- update_lines_view. reflexivity.
Qed.

Lemma buffer_received_state (b : str) (self : Receiver) :
  _state (_buffer_received b self) =
  next_state (_state self) (_last_line (_buffer_received b self))
             (Z.of_nat (count_occ ascii_dec b newline)).
Proof.
  change (_state (_buffer_received b self))
    with (snd (tracker (_buffer_received b self))).
  change (_last_line (_buffer_received b self))
    with (v_last_line (fst (tracker (_buffer_received b self)))).
  rewrite buffer_received_tracker. cbn [fst snd]. rewrite track_count.
  reflexivity.
Qed.

(** C4: after a text buffer was received, if the most recently completed
    line, without its trailing whitespace, is the prompt, the state is
    [Prompt]; otherwise, if the buffer completed at least one line (it holds
    a newline), the state is the unset marker [None], whatever state was
    held before; and with no line completed the state is left as it was. *)
Theorem buffer_received_sets_state (buffer : str) (self : Receiver) :
  let after := _buffer_received buffer self in
  (rstrip (_last_line after) = PROMPT -> _state after = Some State.PROMPT) /\
  (rstrip (_last_line after) <> PROMPT -> In newline buffer ->
   _state after = None) /\
  (rstrip (_last_line after) <> PROMPT -> ~ In newline buffer ->
   _state after = _state self).
Proof.
  cbn zeta. rewrite buffer_received_state. unfold next_state.
  set (last := _last_line (_buffer_received buffer self)).
  destruct (str_eqb (rstrip last) PROMPT) eqn:Hp.
  - apply str_eqb_eq in Hp. repeat split; intros; congruence.
  - assert (Hne : rstrip last <> PROMPT).
    { intros Heq. apply str_eqb_eq in Heq. congruence. }
    repeat split; intros; try congruence.
    + assert (count_occ ascii_dec buffer newline > 0)%nat
        by (apply count_occ_In; assumption).
      destruct (Z.eqb_spec (Z.of_nat (count_occ ascii_dec buffer newline)) 0);
        [lia | reflexivity].
    + assert (count_occ ascii_dec buffer newline = 0)%nat
        by (apply count_occ_not_In; assumption).
      destruct (Z.eqb_spec (Z.of_nat (count_occ ascii_dec buffer newline)) 0);
        [reflexivity | lia].
Qed.

Lemma set_state_state (state : State.t) (self : Receiver) :
  _state (_set_state state self) = Some state.
Proof.
  change (_state (_set_state state self))
    with (snd (tracker (_set_state state self))).
  rewrite set_state_tracker. reflexivity.
Qed.

Lemma set_state_listener (state : State.t) (self : Receiver) :
  listener_calls (trace (_set_state state self)) = listener_calls (trace self) /\
  _data_listener (_set_state state self) = _data_listener self /\
  _latest_pd0 (_set_state state self) = _latest_pd0 self.
Proof.
  unfold _set_state. destruct (state_ne (_state self) state); [|auto].
  cbn. destruct (truthy_str (_last_line self)); count_calls; auto.
Qed.

Lemma update_lines_frame (b : str) : forall (n : Z) (self : Receiver),
  frame (snd (fold_left _update_lines_char b (n, self))) = frame self.
Proof.
  induction b as [|c b IH]; intros n self; cbn [fold_left]; [reflexivity|].
  assert (Hc : frame (snd (_update_lines_char (n, self) c)) = frame self).
  { unfold _update_lines_char. destruct (Ascii.eqb c newline); [|reflexivity].
    cbn. destruct (len (_lines self ++ [_new_line self]) >? MAX_NUM_LINES)%Z;
      reflexivity. }
  destruct (_update_lines_char (n, self) c) as [n1 s1]. cbn [snd] in Hc.
  rewrite <- Hc. apply IH.
Qed.

Lemma set_state_frame (state : State.t) (self : Receiver) :
  frame (_set_state state self) = frame self.
Proof.
  unfold _set_state. destruct (state_ne (_state self) state); [|reflexivity].
  cbn. destruct (truthy_str (_last_line self)); reflexivity.
Qed.

Lemma buffer_received_frame (b : str) (self : Receiver) :
  frame (_buffer_received b self) = frame self.
Proof.
  unfold _buffer_received, _update_lines.
  pose proof (update_lines_frame b 0%Z self) as Hf.
  destruct (fold_left _update_lines_char b (0%Z, self)) as [n s1].
  cbn [snd] in Hf. rewrite <- Hf.
  destruct (str_eqb (rstrip (_last_line s1)) PROMPT).
  - apply set_state_frame.
  - destruct (negb (n =? 0)%Z); reflexivity.
Qed.

Lemma buffer_received_listener (b : str) (self : Receiver) :
  listener_calls (trace (_buffer_received b self)) = listener_calls (trace self) /\
  _latest_pd0 (_buffer_received b self) = _latest_pd0 self.
Proof.
  pose proof (buffer_received_frame b self) as Hf.
  unfold frame in Hf. injection Hf as _ _ _ _ _ _ _ _ Hp _. split; [|exact Hp].
  unfold _buffer_received.
  destruct (update_lines_track b self) as (_ & _ & Ht).
  destruct (_update_lines b self) as [n s1]. cbn [snd] in *.
  destruct (str_eqb (rstrip (_last_line s1)) PROMPT).
  - destruct (set_state_listener State.PROMPT s1) as (Hl & _).
    rewrite Hl, Ht. reflexivity.
  - destruct (negb (n =? 0)%Z); cbn; rewrite Ht; reflexivity.
Qed.

(** C5: [_pd0_received] leaves the state [CollectingData] whatever it was,
    the new ensemble in the latest-ensemble slot, and, when a listener is
    configured, one more invocation of it, with that ensemble, made before
    the call returns.  A message to the sink that carries an ensemble goes
    through [_pd0_received] once, after the timestamp and before the text
    of the message: one invocation of the listener, the ensemble in the
    slot, and the state [CollectingData] when the message has no text. *)
Theorem pd0_received_effects (pd0 : PD0) (self : Receiver) :
  (_state (_pd0_received pd0 self) = Some State.COLLECTING_DATA /\
   _latest_pd0 (_pd0_received pd0 self) = Some pd0 /\
   listener_calls (trace (_pd0_received pd0 self)) =
     listener_calls (trace self) ++
     (if _data_listener self then [pd0] else [])) /\
  (forall (xelems : XElems) (buffer : str),
     x_pd0 xelems = Some pd0 -> pd0_truthy pd0 = true ->
     let before :=
       match x_latest_ts xelems with
       | Some ts => if ts_truthy ts then _timestamp_received ts self else self
       | None => self
       end in
     sink (xelems, buffer) self =
       (if truthy_str buffer
        then _buffer_received buffer (_pd0_received pd0 before)
        else _pd0_received pd0 before) /\
     _latest_pd0 (sink (xelems, buffer) self) = Some pd0 /\
     listener_calls (trace (sink (xelems, buffer) self)) =
       listener_calls (trace self) ++
       (if _data_listener self then [pd0] else []) /\
     (buffer = [] ->
      _state (sink (xelems, buffer) self) = Some State.COLLECTING_DATA)).
Proof.
  assert (Hpd0 : forall s,
    _state (_pd0_received pd0 s) = Some State.COLLECTING_DATA /\
    _latest_pd0 (_pd0_received pd0 s) = Some pd0 /\
    listener_calls (trace (_pd0_received pd0 s)) =
      listener_calls (trace s) ++ (if _data_listener s then [pd0] else [])).
  { intros s. unfold _pd0_received.
    destruct (set_state_listener State.COLLECTING_DATA s) as (Hl & Hd & _).
    pose proof (set_state_state State.COLLECTING_DATA s) as Hs.
    cbn. rewrite Hd. destruct (_data_listener s); count_calls;
      rewrite Hl; auto. }
  split; [apply Hpd0|].
  intros xelems buffer Hx Htruthy before.
  assert (Hbefore : listener_calls (trace before) = listener_calls (trace self)
                    /\ _data_listener before = _data_listener self).
  { subst before. destruct (x_latest_ts xelems) as [ts|]; [|auto].
    destruct (ts_truthy ts); [|auto]. count_calls. auto. }
  destruct Hbefore as [Hbl Hbd].
  destruct (Hpd0 before) as (Hs & Hp & Hl). rewrite Hbl, Hbd in Hl.
  assert (Hsink : sink (xelems, buffer) self =
    if truthy_str buffer
    then _buffer_received buffer (_pd0_received pd0 before)
    else _pd0_received pd0 before).
  { unfold sink. rewrite Hx, Htruthy. reflexivity. }
  split; [exact Hsink|]. rewrite Hsink.
  destruct buffer as [|c buffer]; cbn [truthy_str].
  - auto.
  - destruct (buffer_received_listener (c :: buffer) (_pd0_received pd0 before))
      as [Hbl' Hbp']. rewrite Hbl', Hbp'.
    repeat split; auto; discriminate.
Qed.

End ConversationalState.

Lemma buffer_received_sets_state_witness :
  (rstrip (_last_line (@_buffer_received sample_defs sample_elems
                         (lit ">  " ++ [newline]) sample_receiver)) =
     @PROMPT sample_defs /\
   _state (@_buffer_received sample_defs sample_elems
             (lit ">  " ++ [newline]) sample_receiver) = Some State.PROMPT) /\
  (_state prompted_receiver = Some State.PROMPT /\
   rstrip (_last_line (@_buffer_received sample_defs sample_elems
                         (lit "abc" ++ [newline]) prompted_receiver)) <>
     @PROMPT sample_defs /\
   In newline (lit "abc" ++ [newline]) /\
   _state (@_buffer_received sample_defs sample_elems
             (lit "abc" ++ [newline]) prompted_receiver) = None).
Proof.
  assert (H1 : rstrip (_last_line (@_buffer_received sample_defs sample_elems
                         (lit ">  " ++ [newline]) sample_receiver)) =
               @PROMPT sample_defs) by reflexivity.
  assert (H2 : rstrip (_last_line (@_buffer_received sample_defs sample_elems
                         (lit "abc" ++ [newline]) prompted_receiver)) <>
               @PROMPT sample_defs) by (vm_compute; discriminate).
  assert (H3 : In newline (lit "abc" ++ [newline]))
    by (cbn; right; right; right; left; reflexivity).
  split; [split; [exact H1|] | split; [reflexivity | split; [exact H2 | split; [exact H3|]]]].
  - exact (proj1 (@buffer_received_sets_state sample_defs sample_elems
                    (lit ">  " ++ [newline]) sample_receiver) H1).
  - exact (proj1 (proj2 (@buffer_received_sets_state sample_defs sample_elems
                    (lit "abc" ++ [newline]) prompted_receiver)) H2 H3).
Defined.

Lemma pd0_received_effects_witness :
  x_pd0 (fst sample_pd0_msg) = Some sample_pd0 /\
  @pd0_truthy sample_elems sample_pd0 = true /\
  _state prompted_receiver = Some State.PROMPT /\
  _state (@sink sample_defs sample_elems sample_pd0_msg prompted_receiver) =
    Some State.COLLECTING_DATA /\
  listener_calls
    (trace (@sink sample_defs sample_elems sample_pd0_msg prompted_receiver)) =
    [sample_pd0].
Proof.
  assert (H1 : x_pd0 (fst sample_pd0_msg) = Some sample_pd0) by reflexivity.
  assert (H2 : @pd0_truthy sample_elems sample_pd0 = true) by reflexivity.
  do 3 (split; [reflexivity|]).
  destruct (proj2 (@pd0_received_effects sample_defs sample_elems sample_pd0
                     prompted_receiver) (fst sample_pd0_msg) [] H1 H2)
    as (_ & _ & Hcalls & Hstate).
  split; [exact (Hstate eq_refl) | exact Hcalls].
Defined.

(** ** What the operations append to the trace *)

Section Traces.
Context {D : Defs} {E : Elems}.

Lemma extends_refl (P : Event -> Prop) (self : Receiver) : extends P self self.
Proof. exists []. rewrite app_nil_r. auto. Qed.

Lemma extends_trans (P : Event -> Prop) (a b c : Receiver) :
  extends P a b -> extends P b c -> extends P a c.
Proof.
  intros (e1 & H1 & F1) (e2 & H2 & F2). exists (e1 ++ e2).
  rewrite H2, H1, app_assoc. split; [reflexivity|].
  apply Forall_app. auto.
Qed.

Lemma extends_same (P : Event -> Prop) (a b c : Receiver) :
  trace c = trace b -> extends P a b -> extends P a c.
Proof. intros Hc (e & H & F). exists e. rewrite Hc. auto. Qed.

Lemma extends_emit (P : Event -> Prop) (e : Event) (a b : Receiver) :
  P e -> extends P a b -> extends P a (emit e b).
Proof.
  intros He (ev & H & F). exists (ev ++ [e]). cbn.
  rewrite H, app_assoc. split; [reflexivity|].
  apply Forall_app. auto.
Qed.

Lemma extends_weaken (P Q : Event -> Prop) (a b : Receiver) :
  (forall e, P e -> Q e) -> extends P a b -> extends Q a b.
Proof.
  intros HPQ (ev & H & F). exists ev. split; [exact H|].
  eapply Forall_impl; eauto.
Qed.

Lemma loop_event_real_change (e : Event) : loop_event e -> real_change e.
Proof. destruct e as [[]| | | |]; cbn; auto. Qed.

Lemma set_state_extends (state : State.t) (a b : Receiver) :
  extends loop_event a b -> extends loop_event a (_set_state state b).
Proof.
  intros H. unfold _set_state.
  destruct (state_ne (_state b) state) eqn:Hne; [|exact H].
  apply state_ne_true in Hne.
  apply (extends_same _ _ (if truthy_str (_last_line
            (emit (Log (LogTransition (_state b) state (_last_line b))) b))
          then emit (Log (LogLines (_lines
            (emit (Log (LogTransition (_state b) state (_last_line b))) b))))
            (emit (Log (LogTransition (_state b) state (_last_line b))) b)
          else emit (Log (LogTransition (_state b) state (_last_line b))) b));
    [reflexivity|].
  assert (H1 : extends loop_event a
                 (emit (Log (LogTransition (_state b) state (_last_line b))) b))
    by (apply extends_emit; [exact Hne | exact H]).
  destruct (truthy_str _); [|exact H1].
  apply extends_emit; [exact I | exact H1].
Qed.

Lemma buffer_received_extends (buffer : str) (a b : Receiver) :
  extends loop_event a b -> extends loop_event a (_buffer_received buffer b).
Proof.
  intros H. unfold _buffer_received.
  destruct (update_lines_track buffer b) as (_ & _ & Ht).
  destruct (_update_lines buffer b) as [n s1]. cbn [snd] in Ht.
  assert (H1 : extends loop_event a s1) by (eapply extends_same; eauto).
  destruct (str_eqb (rstrip (_last_line s1)) PROMPT).
  - apply set_state_extends. exact H1.
  - destruct (negb (n =? 0)%Z); [|exact H1].
    eapply extends_same; [|exact H1]. reflexivity.
Qed.

Lemma pd0_received_extends (pd0 : PD0) (a b : Receiver) :
  extends loop_event a b -> extends loop_event a (_pd0_received pd0 b).
Proof.
  intros H. unfold _pd0_received.
  pose proof (set_state_extends State.COLLECTING_DATA _ _ H) as H1.
  set (s1 := _set_state State.COLLECTING_DATA b) in *.
  assert (H2 : extends loop_event a
                 (emit (Log (LogPD0 pd0)) (set_latest_pd0_field (Some pd0) s1))).
  { apply extends_emit; [exact I|]. eapply extends_same; [|exact H1].
    reflexivity. }
  destruct (_data_listener _); [|exact H2].
  apply extends_emit; [exact I | exact H2].
Qed.

Lemma sink_extends (msg : Msg) (a b : Receiver) :
  extends loop_event a b -> extends loop_event a (sink msg b).
Proof.
  intros H. destruct msg as [xelems buffer]. unfold sink.
  set (s1 := match x_latest_ts xelems with
             | Some ts => if ts_truthy ts then _timestamp_received ts b else b
             | None => b
             end).
  assert (H1 : extends loop_event a s1).
  { subst s1. destruct (x_latest_ts xelems) as [ts|]; [|exact H].
    destruct (ts_truthy ts); [|exact H].
    unfold _timestamp_received. apply extends_emit; [exact I|].
    eapply extends_same; [|exact H]. reflexivity. }
  set (s2 := match x_pd0 xelems with
             | Some pd0 => if pd0_truthy pd0 then _pd0_received pd0 s1 else s1
             | None => s1
             end).
  assert (H2 : extends loop_event a s2).
  { subst s2. destruct (x_pd0 xelems) as [pd0|]; [|exact H1].
    destruct (pd0_truthy pd0); [|exact H1].
    apply pd0_received_extends. exact H1. }
  destruct (truthy_str buffer); [|exact H2].
  apply buffer_received_extends. exact H2.
Qed.

Lemma sink_fold_extends (msgs : list Msg) : forall (a b : Receiver),
  extends loop_event a b ->
  extends loop_event a (fold_left (fun s m => sink m s) msgs b).
Proof.
  induction msgs as [|m msgs IH]; intros a b H; cbn [fold_left]; [exact H|].
  apply IH. apply sink_extends. exact H.
Qed.

Lemma update_outfile_extends (buffer : str) (a b : Receiver) :
  extends loop_event a b -> extends loop_event a (_update_outfile buffer b).
Proof.
  intros H. unfold _update_outfile. destruct (_outfile b); [|exact H].
  apply extends_emit; [exact I|]. apply extends_emit; [exact I | exact H].
Qed.

Lemma update_outfile_fields (buffer : str) (self : Receiver) :
  _active (_update_outfile buffer self) = _active self /\
  _outfile (_update_outfile buffer self) = _outfile self.
Proof.
  unfold _update_outfile. destruct (_outfile self) eqn:Ho; cbn; auto.
Qed.

(** What the tracker operations leave of the attributes they never
    write. *)
Lemma pd0_received_active (pd0 : PD0) (self : Receiver) :
  _active (_pd0_received pd0 self) = _active self /\
  _outfile (_pd0_received pd0 self) = _outfile self.
Proof.
  unfold _pd0_received.
  pose proof (set_state_frame State.COLLECTING_DATA self) as Hf.
  unfold frame in Hf. injection Hf as _ _ _ _ Ho _ Ha _ _ _.
  cbn. destruct (_data_listener _); cbn; auto.
Qed.

Lemma sink_active (msg : Msg) (self : Receiver) :
  _active (sink msg self) = _active self /\
  _outfile (sink msg self) = _outfile self.
Proof.
  destruct msg as [xelems buffer]. unfold sink.
  set (s1 := match x_latest_ts xelems with
             | Some ts => if ts_truthy ts then _timestamp_received ts self else self
             | None => self
             end).
  assert (H1 : _active s1 = _active self /\ _outfile s1 = _outfile self).
  { subst s1. destruct (x_latest_ts xelems) as [ts|]; [|auto].
    destruct (ts_truthy ts); auto. }
  set (s2 := match x_pd0 xelems with
             | Some pd0 => if pd0_truthy pd0 then _pd0_received pd0 s1 else s1
             | None => s1
             end).
  assert (H2 : _active s2 = _active self /\ _outfile s2 = _outfile self).
  { subst s2. destruct (x_pd0 xelems) as [pd0|]; [|auto].
    destruct (pd0_truthy pd0); [|auto].
    destruct (pd0_received_active pd0 s1) as [Ha Ho]. rewrite Ha, Ho. auto. }
  destruct (truthy_str buffer); [|exact H2].
  pose proof (buffer_received_frame buffer s2) as Hf.
  unfold frame in Hf. injection Hf as _ _ _ _ Ho _ Ha _ _ _.
  rewrite Ha, Ho. exact H2.
Qed.

Lemma sink_fold_active (msgs : list Msg) : forall (self : Receiver),
  _active (fold_left (fun s m => sink m s) msgs self) = _active self /\
  _outfile (fold_left (fun s m => sink m s) msgs self) = _outfile self.
Proof.
  induction msgs as [|m msgs IH]; intros self; cbn [fold_left]; [auto|].
  destruct (IH (sink m self)) as [Ha Ho]. destruct (sink_active m self) as [Ha' Ho'].
  rewrite Ha, Ho. auto.
Qed.

End Traces.

(** ** The read loop *)

Section ReadLoopFacts.
Context {D : Defs} {E : Elems} {F : Stages}.

Lemma send_all_extends (pipeline : Pipeline) :
  forall (msgs : list Msg) (a b : Receiver),
  extends loop_event a b ->
  extends loop_event a (snd (send_all pipeline msgs b)).
Proof.
  induction pipeline as [|locals target IH|locals target IH];
    intros msgs a b H; cbn [send_all].
  - cbn [snd]. apply sink_fold_extends. exact H.
  - destruct (stage_run timestamp_filter_send locals msgs) as [locals' outs].
    specialize (IH outs a b H).
    destruct (send_all target outs b) as [target' self']. exact IH.
  - destruct (stage_run pd0_filter_send locals msgs) as [locals' outs].
    specialize (IH outs a b H).
    destruct (send_all target outs b) as [target' self']. exact IH.
Qed.

Lemma send_all_active (pipeline : Pipeline) :
  forall (msgs : list Msg) (self : Receiver),
  _active (snd (send_all pipeline msgs self)) = _active self /\
  _outfile (snd (send_all pipeline msgs self)) = _outfile self.
Proof.
  induction pipeline as [|locals target IH|locals target IH];
    intros msgs self; cbn [send_all].
  - cbn [snd]. apply sink_fold_active.
  - destruct (stage_run timestamp_filter_send locals msgs) as [locals' outs].
    specialize (IH outs self).
    destruct (send_all target outs self) as [target' self']. exact IH.
  - destruct (stage_run pd0_filter_send locals msgs) as [locals' outs].
    specialize (IH outs self).
    destruct (send_all target outs self) as [target' self']. exact IH.
Qed.

(** What [_recv_loop] returns, leaves in the trace and consumes. *)
Lemma recv_loop_spec (script : list EnvEvent) : forall (a self : Receiver),
  extends loop_event a self ->
  match _recv_loop script self with
  | Return r s' rest =>
      extends loop_event a s' /\ _outfile s' = _outfile self /\
      (r <> None -> _active s' = true) /\
      exists consumed, script = consumed ++ rest /\ consumed <> [] /\
        (_active self = true -> _active s' = false ->
         Exists (fun ev => stops_loop ev = true) consumed)
  | Raise e s' =>
      extends loop_event a s' /\ _outfile s' = _outfile self /\
      Exists (fun ev => quiet ev = false /\ stops_loop ev = false) script
  | Blocked s' =>
      extends loop_event a s' /\ _outfile s' = _outfile self
  end.
Proof.
  induction script as [|ev script IH]; intros a self Ha; cbn [_recv_loop].
  - auto.
  - destruct ev as [|[data|[| |]] now].
    + (* end() while the read is in flight *)
      assert (Ha' : extends loop_event a (end_ self))
        by (eapply extends_same; [|exact Ha]; reflexivity).
      specialize (IH a (end_ self) Ha').
      destruct (_recv_loop script (end_ self)) as [r s' rest|e s'|s'].
      * destruct IH as (He & Ho & Hr & consumed & Hc & Hne & Hstop).
        split; [exact He|]. split; [exact Ho|]. split; [exact Hr|].
        exists (EndCalled :: consumed).
        split; [rewrite Hc; reflexivity|]. split; [discriminate|].
        intros _ _. apply Exists_cons_hd. reflexivity.
      * destruct IH as (He & Ho & Hx).
        split; [exact He|]. split; [exact Ho|].
        apply Exists_cons_tl. exact Hx.
      * exact IH.
    + (* data *)
      destruct (_active self && truthy_str data) eqn:Hact.
      * apply andb_true_iff in Hact as [Hact _].
        split.
        { apply update_outfile_extends. apply extends_emit; [exact I|].
          eapply extends_same; [|exact Ha]. reflexivity. }
        split; [rewrite (proj2 (update_outfile_fields _ _)); reflexivity|].
        split.
        { intros _. rewrite (proj1 (update_outfile_fields _ _)). exact Hact. }
        exists [SockRecv (Returns data) now].
        split; [reflexivity|]. split; [discriminate|].
        intros _ Hf. rewrite (proj1 (update_outfile_fields _ _)) in Hf.
        cbn in Hf. congruence.
      * split; [exact Ha|]. split; [reflexivity|]. split; [congruence|].
        exists [SockRecv (Returns data) now].
        split; [reflexivity|]. split; [discriminate|].
        intros H1 H2. congruence.
    + (* timeout *)
      destruct (_active self) eqn:Hact.
      * specialize (IH a self Ha). rewrite Hact in IH.
        destruct (_recv_loop script self) as [r s' rest|e s'|s'].
        -- destruct IH as (He & Ho & Hr & consumed & Hc & Hne & Hstop).
           split; [exact He|]. split; [exact Ho|]. split; [exact Hr|].
           exists (SockRecv (Raises socket_timeout) now :: consumed).
           split; [rewrite Hc; reflexivity|]. split; [discriminate|].
           intros _ Hf. apply Exists_cons_tl. auto.
        -- destruct IH as (He & Ho & Hx).
           split; [exact He|]. split; [exact Ho|].
           apply Exists_cons_tl. exact Hx.
        -- exact IH.
      * split; [exact Ha|]. split; [reflexivity|]. split; [congruence|].
        exists [SockRecv (Raises socket_timeout) now].
        split; [reflexivity|]. split; [discriminate|].
        intros H1 H2. discriminate.
    + (* socket error *)
      split.
      { eapply extends_same; [reflexivity|].
        apply extends_emit; [exact I | exact Ha]. }
      split; [reflexivity|]. split; [congruence|].
      exists [SockRecv (Raises socket_error) now].
      split; [reflexivity|]. split; [discriminate|].
      intros _ _. apply Exists_cons_hd. reflexivity.
    + (* any other exception *)
      split; [exact Ha|]. split; [reflexivity|].
      apply Exists_cons_hd. auto.
Qed.

Lemma recv_spec (script : list EnvEvent) (a self : Receiver) :
  extends loop_event a self ->
  _active self = true ->
  match _recv script self with
  | Return r s' rest =>
      extends loop_event a s' /\ _outfile s' = _outfile self /\
      (r <> None -> _active s' = true) /\
      exists consumed, script = consumed ++ rest /\ consumed <> [] /\
        (_active s' = false ->
         Exists (fun ev => stops_loop ev = true) consumed)
  | Raise e s' =>
      extends loop_event a s' /\ _outfile s' = _outfile self /\
      Exists (fun ev => quiet ev = false /\ stops_loop ev = false) script
  | Blocked s' =>
      extends loop_event a s' /\ _outfile s' = _outfile self
  end.
Proof.
  intros Ha Hact. unfold _recv.
  change (_active (emit (Log LogReading) self)) with (_active self).
  rewrite Hact.
  assert (Ha' : extends loop_event a (emit (Log LogReading) self))
    by (apply extends_emit; [exact I | exact Ha]).
  pose proof (recv_loop_spec script a (emit (Log LogReading) self) Ha') as H.
  destruct (_recv_loop script (emit (Log LogReading) self)) as [r s' rest|e s'|s'].
  - destruct H as (He & Ho & Hr & consumed & Hc & Hne & Hstop).
    split; [exact He|]. split; [exact Ho|]. split; [exact Hr|].
    exists consumed. split; [exact Hc|]. split; [exact Hne|].
    intros Hf. apply Hstop; [exact Hact | exact Hf].
  - exact H.
  - exact H.
Qed.

(** What the [while self._active] loop leaves, for every way it ends;
    with more fuel than events it never runs out of fuel. *)
Lemma run_loop_spec (fuel : nat) :
  forall (script : list EnvEvent) (a self : Receiver) (pipeline : Pipeline),
  extends loop_event a self ->
  (List.length script < fuel)%nat ->
  match run_loop fuel script self pipeline with
  | LoopExit s' _ rest =>
      extends loop_event a s' /\ _outfile s' = _outfile self /\
      _active s' = false /\
      exists consumed, script = consumed ++ rest /\
        (_active self = true ->
         Exists (fun ev => stops_loop ev = true) consumed)
  | LoopRaised _ s' _ =>
      extends loop_event a s' /\
      Exists (fun ev => quiet ev = false /\ stops_loop ev = false) script
  | LoopBlocked s' _ => extends loop_event a s'
  | LoopOutOfFuel => False
  end.
Proof.
  induction fuel as [|fuel IH]; intros script a self pipeline Ha Hfuel.
  - lia.
  - cbn [run_loop]. destruct (_active self) eqn:Hact.
    + pose proof (recv_spec script a self Ha Hact) as Hrecv.
      destruct (_recv script self) as [r s1 rest1|e s1|s1].
      * destruct Hrecv as (He1 & Ho1 & Hr1 & consumed & Hc & Hne & Hstop).
        assert (Hlen : (List.length rest1 < fuel)%nat).
        { assert (List.length consumed <> 0)%nat
            by (destruct consumed; [congruence | discriminate]).
          rewrite Hc, length_app in Hfuel. lia. }
        set (next := match r with
                     | Some buffer => send pipeline (xelems_empty, buffer) s1
                     | None => (pipeline, s1)
                     end).
        assert (Hnext : extends loop_event a (snd next) /\
                        _active (snd next) = _active s1 /\
                        _outfile (snd next) = _outfile s1).
        { subst next. destruct r as [buffer|]; [|auto]. unfold send.
          split; [apply send_all_extends; exact He1 | apply send_all_active]. }
        destruct next as [pipeline2 s2]. cbn [snd] in Hnext.
        destruct Hnext as (He2 & Ha2 & Ho2).
        specialize (IH rest1 a s2 pipeline2 He2 Hlen).
        destruct (run_loop fuel rest1 s2 pipeline2) as [s' pl' rest|e s' pl'|s' pl'|].
        -- destruct IH as (He & Ho & Hf & consumed2 & Hc2 & Hstop2).
           split; [exact He|]. split; [congruence|]. split; [exact Hf|].
           exists (consumed ++ consumed2).
           split; [rewrite Hc, Hc2, app_assoc; reflexivity|].
           intros _. apply Exists_app. destruct (_active s1) eqn:Hs1.
           ++ right. apply Hstop2. congruence.
           ++ left. apply Hstop. reflexivity.
        -- destruct IH as (He & Hx). split; [exact He|].
           rewrite Hc. apply Exists_app. right. exact Hx.
        -- exact IH.
        -- exact IH.
      * destruct Hrecv as (He & _ & Hx). auto.
      * destruct Hrecv as (He & _). exact He.
    + split; [exact Ha|]. split; [reflexivity|]. split; [exact Hact|].
      exists []. split; [reflexivity|]. congruence.
Qed.


(** Reads that time out or return data leave the receiver active. *)
Lemma recv_loop_quiet (script : list EnvEvent) : forall (self : Receiver),
  forallb quiet script = true ->
  _active self = true ->
  match _recv_loop script self with
  | Return r s' rest =>
      _active s' = true /\ forallb quiet rest = true /\
      (List.length rest < List.length script)%nat
  | Raise e s' => False
  | Blocked s' => _active s' = true
  end.
Proof.
  induction script as [|ev script IH]; intros self Hq Hact;
    cbn [_recv_loop]; [exact Hact|].
  cbn [forallb] in Hq. apply andb_true_iff in Hq as [Hev Hq].
  destruct ev as [|[data|[| |]] now]; try discriminate.
  - destruct (_active self && truthy_str data).
    + rewrite (proj1 (update_outfile_fields _ _)). cbn. auto.
    + cbn. auto.
  - rewrite Hact. specialize (IH self Hq Hact).
    destruct (_recv_loop script self) as [r s' rest|e s'|s']; [|exact IH..].
    destruct IH as (Ha & Hr & Hl). cbn [List.length]. auto.
Qed.

Lemma recv_unfold (script : list EnvEvent) (self : Receiver) :
  _active self = true ->
  _recv script self = _recv_loop script (emit (Log LogReading) self).
Proof.
  intros Hact. unfold _recv.
  change (_active (emit (Log LogReading) self)) with (_active self).
  rewrite Hact. reflexivity.
Qed.

(** With only reads that time out or return data, the loop is still blocked
    in [sock.recv], active, when the events are exhausted. *)
Lemma run_loop_quiet (fuel : nat) :
  forall (script : list EnvEvent) (self : Receiver) (pipeline : Pipeline),
  forallb quiet script = true ->
  _active self = true ->
  (List.length script < fuel)%nat ->
  exists s' pipeline',
    run_loop fuel script self pipeline = LoopBlocked s' pipeline' /\
    _active s' = true.
Proof.
  induction fuel as [|fuel IH]; intros script self pipeline Hq Hact Hfuel.
  - lia.
  - cbn [run_loop]. rewrite Hact, (recv_unfold script self Hact).
    pose proof (recv_loop_quiet script (emit (Log LogReading) self) Hq Hact)
      as Hrecv.
    destruct (_recv_loop script (emit (Log LogReading) self))
      as [r s1 rest|e s1|s1].
    + destruct Hrecv as (Ha1 & Hq1 & Hlen).
      set (next := match r with
                   | Some buffer => send pipeline (xelems_empty, buffer) s1
                   | None => (pipeline, s1)
                   end).
      assert (Hnext : _active (snd next) = true).
      { subst next. destruct r as [buffer|]; [|exact Ha1]. unfold send.
        rewrite (proj1 (send_all_active _ _ _)). exact Ha1. }
      destruct next as [pipeline2 s2]. cbn [snd] in Hnext.
      apply IH; [exact Hq1 | exact Hnext | lia].
    + contradiction.
    + eauto.
Qed.


(** Every way [run] ends: what it leaves in the trace, and which events
    made it end. *)
Lemma run_spec (script : list EnvEvent) (self : Receiver) :
  match run script self with
  | Finished s' rest =>
      _active s' = false /\
      Exists (fun ev => stops_loop ev = true) script /\
      exists during, Forall loop_event during /\
        trace s' = trace self ++ [Log LogRunning] ++ during ++
                   [PipelineClose] ++
                   (if _outfile self then [OutfileWrite end_mark; OutfileFlush]
                    else []) ++
                   [Log LogEnded]
  | Raised e s' =>
      Exists (fun ev => quiet ev = false /\ stops_loop ev = false) script /\
      exists during, Forall loop_event during /\
        trace s' = trace self ++ [Log LogRunning] ++ during
  | Running s' =>
      exists during, Forall loop_event during /\
        trace s' = trace self ++ [Log LogRunning] ++ during
  | OutOfFuel => False
  end.
Proof.
  unfold run.
  set (s0 := set_active true (emit (Log LogRunning)
               match _sock_timeout self with
               | Some _ => self
               | None => set_sock_timeout (Some (4 # 10)%Q) self
               end)).
  assert (Htrace : trace s0 = trace self ++ [Log LogRunning])
    by (subst s0; destruct (_sock_timeout self); reflexivity).
  assert (Hout : _outfile s0 = _outfile self)
    by (subst s0; destruct (_sock_timeout self); reflexivity).
  assert (Hact : _active s0 = true) by reflexivity.
  pose proof (run_loop_spec (S (List.length script)) script s0 s0
                (run_pipeline s0) (extends_refl _ s0) (Nat.lt_succ_diag_r _))
    as Hloop.
  destruct (run_loop (S (List.length script)) script s0 (run_pipeline s0))
    as [s' pl' rest|e s' pl'|s' pl'|].
  - destruct Hloop as ((during & Ht & Hd) & Ho & Hf & consumed & Hc & Hstop).
    split.
    { unfold _end_outfile.
      change (_outfile (emit PipelineClose s')) with (_outfile s').
      destruct (_outfile s'); exact Hf. }
    split.
    { rewrite Hc. apply Exists_app. left. apply Hstop. exact Hact. }
    exists during. split; [exact Hd|].
    unfold _end_outfile.
    change (_outfile (emit PipelineClose s')) with (_outfile s').
    rewrite Ho, Hout. destruct (_outfile self); cbn;
      rewrite Ht, Htrace, <- !app_assoc; reflexivity.
  - destruct Hloop as ((during & Ht & Hd) & Hx). split; [exact Hx|].
    exists during. split; [exact Hd|]. rewrite Ht, Htrace, <- app_assoc.
    reflexivity.
  - destruct Hloop as (during & Ht & Hd).
    exists during. split; [exact Hd|]. rewrite Ht, Htrace, <- app_assoc.
    reflexivity.
  - exact Hloop.
Qed.

End ReadLoopFacts.

(** ** Transitions, termination and the pipeline *)

Section LoopClaims.
Context {D : Defs} {E : Elems} {F : Stages}.

Lemma state_ne_same (state : State.t) : state_ne (Some state) state = false.
Proof. destruct state; reflexivity. Qed.

Lemma state_ne_other (held : option State.t) (state : State.t) :
  held <> Some state -> state_ne held state = true.
Proof.
  intros H. destruct (state_ne held state) eqn:Hne; [reflexivity|].
  apply state_ne_false in Hne. contradiction.
Qed.

Lemma set_state_trace (state : State.t) (self : Receiver) :
  _state self <> Some state ->
  trace (_set_state state self) =
  trace self ++
  Log (LogTransition (_state self) state (_last_line self)) ::
  (if truthy_str (_last_line self) then [Log (LogLines (_lines self))]
   else []).
Proof.
  intros H. unfold _set_state. rewrite (state_ne_other _ _ H). cbn.
  destruct (truthy_str (_last_line self)); cbn; rewrite <- ?app_assoc;
    reflexivity.
Qed.

Lemma buffer_received_transition (buffer : str) (self : Receiver) :
  exists events,
    trace (_buffer_received buffer self) = trace self ++ events /\
    forall e, In e events -> is_transition e = true ->
      e = Log (LogTransition (_state self) State.PROMPT
                 (_last_line (_buffer_received buffer self))) /\
      _state self <> Some State.PROMPT /\
      _state (_buffer_received buffer self) = Some State.PROMPT.
Proof.
  unfold _buffer_received.
  destruct (update_lines_track buffer self) as (_ & Hs & Ht).
  destruct (_update_lines buffer self) as [n s1]. cbn [snd] in Hs, Ht.
  destruct (str_eqb (rstrip (_last_line s1)) PROMPT).
  - destruct (state_ne (_state s1) State.PROMPT) eqn:Hne.
    + pose proof (state_ne_true _ _ Hne) as Hneq.
      exists (Log (LogTransition (_state s1) State.PROMPT (_last_line s1)) ::
              (if truthy_str (_last_line s1) then [Log (LogLines (_lines s1))]
               else [])).
      split; [rewrite (set_state_trace _ _ Hneq), Ht; reflexivity|].
      intros e Hin Htr.
      assert (He : e = Log (LogTransition (_state s1) State.PROMPT
                              (_last_line s1))).
      { destruct Hin as [Hin|Hin]; [auto|].
        destruct (truthy_str (_last_line s1)); cbn in Hin;
          [destruct Hin as [Hin|[]]; subst e; discriminate | contradiction]. }
      assert (Hll : _last_line (_set_state State.PROMPT s1) = _last_line s1).
      { change (v_last_line (fst (tracker (_set_state State.PROMPT s1))) =
                _last_line s1).
        rewrite set_state_tracker. reflexivity. }
      rewrite Hll, set_state_state, <- Hs. auto.
    + exists []. unfold _set_state. rewrite Hne, app_nil_r.
      split; [exact Ht | intros e []].
  - exists []. rewrite app_nil_r.
    split; [destruct (negb (n =? 0)%Z); exact Ht | intros e []].
Qed.

(** C6: [_set_state] with the state already held changes nothing and logs
    nothing; with another state it logs one transition, from the state
    held to the new one, and the new state is held afterwards.  The only
    transition [_buffer_received] logs is one to [Prompt], when the state
    held was not [Prompt] and is afterwards.  So no message to the sink and
    no run of the receiver logs a transition to the state already held. *)
Theorem transition_logged_only_on_change (state : State.t) (self : Receiver) :
  (_state self = Some state -> _set_state state self = self) /\
  (_state self <> Some state ->
   _state (_set_state state self) = Some state /\
   trace (_set_state state self) =
     trace self ++
     Log (LogTransition (_state self) state (_last_line self)) ::
     (if truthy_str (_last_line self) then [Log (LogLines (_lines self))]
      else [])) /\
  (forall buffer, exists events,
     trace (_buffer_received buffer self) = trace self ++ events /\
     forall e, In e events -> is_transition e = true ->
       e = Log (LogTransition (_state self) State.PROMPT
                  (_last_line (_buffer_received buffer self))) /\
       _state self <> Some State.PROMPT /\
       _state (_buffer_received buffer self) = Some State.PROMPT) /\
  (forall msg, extends real_change self (sink msg self)) /\
  (forall script,
     match run script self with
     | Finished s' _ | Raised _ s' | Running s' => extends real_change self s'
     | OutOfFuel => False
     end).
Proof.
  split.
  { intros H. unfold _set_state. rewrite H, state_ne_same. reflexivity. }
  split.
  { intros H. split; [apply set_state_state | apply set_state_trace; exact H]. }
  split; [intros buffer; apply buffer_received_transition|].
  split.
  { intros msg. apply (extends_weaken loop_event); [apply loop_event_real_change|].
    apply sink_extends. apply extends_refl. }
  intros script. pose proof (run_spec script self) as H.
  assert (Hd : forall during, Forall loop_event during ->
                              Forall real_change during).
  { intros during Hf. eapply Forall_impl; [|exact Hf].
    apply loop_event_real_change. }
  destruct (run script self) as [s' rest|e s'|s'|].
  - destruct H as (_ & _ & during & Hf & Ht). eexists. split; [exact Ht|].
    apply Forall_app. split; [repeat constructor|].
    apply Forall_app. split; [apply Hd; exact Hf|].
    destruct (_outfile self); repeat constructor.
  - destruct H as (_ & during & Hf & Ht). eexists. split; [exact Ht|].
    apply Forall_app. split; [repeat constructor | apply Hd; exact Hf].
  - destruct H as (during & Hf & Ht). eexists. split; [exact Ht|].
    apply Forall_app. split; [repeat constructor | apply Hd; exact Hf].
  - exact H.
Qed.

(** C8: [end] only clears the active flag, consulting nothing and waiting
    for nothing; called once more, or any number of times more, it leaves
    the receiver it left the first time, and the read loop that is told
    twice to end goes on as the one that is told once. *)
Theorem end_idempotent (self : Receiver) (n : nat) :
  Nat.iter (S n) end_ self = end_ self /\
  end_ (end_ self) = end_ self /\
  _active (end_ self) = false /\
  trace (end_ self) = trace self /\
  tracker (end_ self) = tracker self /\
  forall script,
    _recv_loop (EndCalled :: EndCalled :: script) self =
    _recv_loop (EndCalled :: script) self.
Proof.
  assert (H2 : end_ (end_ self) = end_ self) by reflexivity.
  split; [|repeat split; reflexivity].
  induction n as [|n IH]; [reflexivity|].
  change (Nat.iter (S (S n)) end_ self) with (end_ (Nat.iter (S n) end_ self)).
  rewrite IH. exact H2.
Qed.

(** C10: a read that returns no bytes makes [_recv] return [None] with the
    active flag still set; whatever reads time out or return data, empty
    or not, [run] is still in its loop, active, when they are exhausted;
    and [run] returns only if [end()] was called or a read raised a socket
    error (and an exception leaves it only if a read raised one that is
    not a socket exception). *)
Theorem empty_read_keeps_running :
  (forall (now : Q) (rest : list EnvEvent) (self : Receiver),
     _active self = true ->
     _recv (SockRecv (Returns []) now :: rest) self =
       Return None (emit (Log LogReading) self) rest /\
     _active (emit (Log LogReading) self) = true) /\
  (forall (script : list EnvEvent) (self : Receiver),
     forallb quiet script = true ->
     exists self', run script self = Running self' /\ _active self' = true) /\
  (forall (script : list EnvEvent) (self self' : Receiver)
          (rest : list EnvEvent),
     run script self = Finished self' rest ->
     Exists (fun ev => stops_loop ev = true) script) /\
  (forall (script : list EnvEvent) (self self' : Receiver) (e : Exn),
     run script self = Raised e self' ->
     Exists (fun ev => quiet ev = false /\ stops_loop ev = false) script).
Proof.
  split; [|split; [|split]].
  - intros now rest self Hact. split; [|exact Hact].
    rewrite (recv_unfold _ self Hact). cbn [_recv_loop].
    rewrite andb_false_r. reflexivity.
  - intros script self Hq. unfold run.
    set (s0 := set_active true (emit (Log LogRunning)
                 match _sock_timeout self with
                 | Some _ => self
                 | None => set_sock_timeout (Some (4 # 10)%Q) self
                 end)).
    destruct (run_loop_quiet (S (List.length script)) script s0
                (run_pipeline s0) Hq eq_refl (Nat.lt_succ_diag_r _))
      as (s' & pl' & Hrun & Hact).
    rewrite Hrun. eauto.
  - intros script self self' rest Hrun.
    pose proof (run_spec script self) as Hspec. rewrite Hrun in Hspec.
    apply Hspec.
  - intros script self self' e Hrun.
    pose proof (run_spec script self) as Hspec. rewrite Hrun in Hspec.
    apply Hspec.
Qed.

End LoopClaims.

(** ** The theorems at the sample receiver *)

Lemma chunking_invariance_witness :
  cut_chunks <> [] /\
  tracker (@feed_buffers sample_defs sample_elems cut_chunks sample_receiver) =
    tracker (@_buffer_received sample_defs sample_elems
               (List.concat cut_chunks) sample_receiver) /\
  tracker (@_buffer_received sample_defs sample_elems
             (List.concat cut_chunks) sample_receiver) =
    (([lit "abc"; lit ">"], lit ">", lit "x"), Some State.PROMPT).
Proof.
  assert (H : cut_chunks <> []) by discriminate.
  split; [exact H|]. split; [|reflexivity].
  exact (proj2 (proj2 (@chunking_invariance sample_defs sample_elems
                         cut_chunks sample_receiver)) H).
Defined.

Lemma transition_logged_only_on_change_witness :
  (_state prompted_receiver = Some State.PROMPT /\
   @_set_state sample_elems State.PROMPT prompted_receiver =
     prompted_receiver) /\
  (_state prompted_receiver <> Some State.COLLECTING_DATA /\
   _state (@_set_state sample_elems State.COLLECTING_DATA prompted_receiver) =
     Some State.COLLECTING_DATA).
Proof.
  assert (H1 : _state prompted_receiver = Some State.PROMPT) by reflexivity.
  assert (H2 : _state prompted_receiver <> Some State.COLLECTING_DATA)
    by (rewrite H1; discriminate).
  split; split; [exact H1 | | exact H2 |].
  - exact (proj1 (@transition_logged_only_on_change sample_defs sample_elems
                    sample_stages State.PROMPT prompted_receiver) H1).
  - exact (proj1 (proj1 (proj2 (@transition_logged_only_on_change sample_defs
                    sample_elems sample_stages State.COLLECTING_DATA
                    prompted_receiver)) H2)).
Defined.

Lemma empty_read_keeps_running_witness :
  forallb quiet closed_script = true /\
  (exists self',
     @run sample_defs sample_elems sample_stages closed_script sample_receiver =
       Running self' /\ _active self' = true) /\
  _active active_receiver = true /\
  @_recv sample_defs sample_elems
      [SockRecv (Returns []) (1 # 1)%Q] active_receiver =
    Return None (emit (Log LogReading) active_receiver) [].
Proof.
  assert (Hq : forallb quiet closed_script = true) by reflexivity.
  assert (Ha : _active active_receiver = true) by reflexivity.
  split; [exact Hq|]. split; [|split; [exact Ha|]].
  - exact (proj1 (proj2 (@empty_read_keeps_running sample_defs sample_elems
                           sample_stages))
             closed_script sample_receiver Hq).
  - exact (proj1 (proj1 (@empty_read_keeps_running sample_defs sample_elems
                           sample_stages)
                    (1 # 1)%Q [] active_receiver Ha)).
Defined.

(** ** More on the line tracker *)

Section LineTrackerMore.
Context {D : Defs} {E : Elems}.

Lemma terminated_app (a b : list str) :
  terminated (a ++ b) = terminated a ++ terminated b.
Proof. unfold terminated. rewrite map_app, concat_app. reflexivity. Qed.

Lemma count_newlines_cons (c : ascii) (b : str) :
  count_newlines (c :: b) =
  ((if Ascii.eqb c newline then 1 else 0) + count_newlines b)%Z.
Proof.
  unfold count_newlines. cbn [count_occ].
  destruct (ascii_dec c newline) as [Hc|Hc].
  - subst c. change (Ascii.eqb newline newline) with true. lia.
  - apply Ascii.eqb_neq in Hc. rewrite Hc. lia.
Qed.

Lemma count_newlines_nonneg (b : str) : (0 <= count_newlines b)%Z.
Proof. unfold count_newlines. lia. Qed.

Lemma push_line_split (line : str) (lines : list str) :
  exists dropped,
    dropped ++ push_line line lines = lines ++ [line] /\
    ((len lines + 1 <= MAX_NUM_LINES)%Z -> dropped = []).
Proof.
  rewrite push_line_skipn.
  exists (firstn (Z.to_nat (if (len lines + 1 >? MAX_NUM_LINES)%Z
                           then len lines + 1 - (MAX_NUM_LINES - 1) else 0)%Z)
                 (lines ++ [line])).
  split; [apply firstn_skipn|].
  intros Hle. destruct (Z.gtb_spec (len lines + 1) MAX_NUM_LINES); [lia|].
  reflexivity.
Qed.

Lemma track_joined (b : str) : forall v : View,
  exists dropped,
    terminated dropped ++ terminated (v_lines (snd (track b v))) ++
      v_new_line (snd (track b v)) =
    terminated (v_lines v) ++ v_new_line v ++ b /\
    ((len (v_lines v) + count_newlines b <= MAX_NUM_LINES)%Z -> dropped = []).
Proof.
  induction b as [|c b IH]; intros v.
  - exists []. rewrite track_nil, app_nil_r. auto.
  - rewrite track_cons. cbn [snd]. rewrite track_char_view, count_newlines_cons.
    pose proof (count_newlines_nonneg b) as Hb.
    destruct (Ascii.eqb c newline) eqn:Hc.
    + apply Ascii.eqb_eq in Hc. subst c.
      destruct (IH (push_line (v_new_line v) (v_lines v), v_new_line v, []))
        as (d1 & Heq & Hnone).
      destruct (push_line_split (v_new_line v) (v_lines v)) as (d0 & Hd0 & Hd0').
      cbn [v_lines v_new_line fst snd] in Heq, Hnone.
      exists (d0 ++ d1). split.
      * rewrite terminated_app, <- app_assoc, Heq. cbn [app].
        rewrite app_assoc, <- terminated_app, Hd0, terminated_app.
        unfold terminated at 2. cbn [map List.concat].
        rewrite app_nil_r, <- !app_assoc. reflexivity.
      * intros Hle. rewrite Hd0' by lia. apply Hnone.
        rewrite push_line_len.
        destruct (Z.gtb_spec (len (v_lines v) + 1) MAX_NUM_LINES); lia.
    + destruct (IH (v_lines v, v_last_line v, v_new_line v ++ [c]))
        as (d1 & Heq & Hnone).
      cbn [v_lines v_new_line fst snd] in Heq, Hnone.
      exists d1. split.
      * rewrite Heq, <- !app_assoc. reflexivity.
      * intros Hle. apply Hnone. lia.
Qed.

(** X1: the history and the in-progress line are the end of the text
    received: joined with newlines they give back, byte for byte, what the
    tracker held followed by the buffer, but for whole lines dropped from
    the front; and nothing is dropped while no more than [MAX_NUM_LINES]
    lines have been completed. *)
Theorem history_reconstructs_input (buffer : str) (self : Receiver) :
  exists dropped : list str,
    terminated dropped ++
      terminated (_lines (snd (_update_lines buffer self))) ++
      _new_line (snd (_update_lines buffer self)) =
    terminated (_lines self) ++ _new_line self ++ buffer /\
    ((len (_lines self) + count_newlines buffer <= MAX_NUM_LINES)%Z ->
     dropped = []).
Proof.
  destruct (track_joined buffer (view self)) as (dropped & Heq & Hnone).
  exists dropped. rewrite <- update_lines_view in Heq. auto.
Qed.

Lemma forallb_skipn {A} (f : A -> bool) (n : nat) : forall l,
  forallb f l = true -> forallb f (skipn n l) = true.
Proof.
  induction n as [|n IH]; intros [|x l] H; cbn in *; auto.
  apply andb_true_iff in H as [_ H]. auto.
Qed.

Lemma push_line_no_newline (line : str) (lines : list str) :
  forallb no_newline lines = true -> no_newline line = true ->
  forallb no_newline (push_line line lines) = true.
Proof.
  intros Hl Hn. rewrite push_line_skipn. apply forallb_skipn.
  rewrite forallb_app, Hl. cbn. rewrite Hn. reflexivity.
Qed.

Lemma track_no_newlines (b : str) : forall v : View,
  forallb no_newline (v_lines v) = true ->
  no_newline (v_last_line v) = true ->
  no_newline (v_new_line v) = true ->
  forallb no_newline (v_lines (snd (track b v))) = true /\
  no_newline (v_last_line (snd (track b v))) = true /\
  no_newline (v_new_line (snd (track b v))) = true.
Proof.
  induction b as [|c b IH]; intros v Hl Hll Hn.
  - rewrite track_nil. auto.
  - rewrite track_cons. cbn [snd]. rewrite track_char_view.
    destruct (Ascii.eqb c newline) eqn:Hc; apply IH; cbn [v_lines v_last_line v_new_line fst snd]; auto.
    + apply push_line_no_newline; assumption.
    + unfold no_newline in *. rewrite forallb_app, Hn. cbn [forallb].
      rewrite Hc. reflexivity.
Qed.

(** X2: the entries of the history are lines: if no entry of the history,
    nor the last line, nor the in-progress line holds a newline before
    [_update_lines], none does after it, whatever the buffer. *)
Theorem history_holds_lines (buffer : str) (self : Receiver) :
  forallb no_newline (_lines self) = true ->
  no_newline (_last_line self) = true ->
  no_newline (_new_line self) = true ->
  forallb no_newline (_lines (snd (_update_lines buffer self))) = true /\
  no_newline (_last_line (snd (_update_lines buffer self))) = true /\
  no_newline (_new_line (snd (_update_lines buffer self))) = true.
Proof.
  intros Hl Hll Hn.
  pose proof (track_no_newlines buffer (view self) Hl Hll Hn) as H.
  rewrite <- update_lines_view in H. exact H.
Qed.

Lemma push_line_newest (line : str) (lines : list str) :
  exists older, push_line line lines = older ++ [line].
Proof.
  rewrite push_line_skipn, skipn_app.
  pose proof (len_nonneg lines) as Hl.
  exists (skipn (Z.to_nat (if (len lines + 1 >? MAX_NUM_LINES)%Z
                           then len lines + 1 - (MAX_NUM_LINES - 1) else 0)%Z)
                lines).
  f_equal.
  replace (Z.to_nat (if (len lines + 1 >? MAX_NUM_LINES)%Z
                     then len lines + 1 - (MAX_NUM_LINES - 1) else 0)%Z
           - List.length lines)%nat with 0%nat; [reflexivity|].
  unfold len, MAX_NUM_LINES in *.
  destruct (Z.of_nat (List.length lines) + 1 >? 1024)%Z; lia.
Qed.

Lemma track_newest (b : str) : forall v : View,
  In newline b \/ (exists older, v_lines v = older ++ [v_last_line v]) ->
  exists older,
    v_lines (snd (track b v)) = older ++ [v_last_line (snd (track b v))].
Proof.
  induction b as [|c b IH]; intros v H.
  - rewrite track_nil. destruct H as [[]|H]. exact H.
  - rewrite track_cons. cbn [snd]. rewrite track_char_view.
    destruct (Ascii.eqb c newline) eqn:Hc; apply IH.
    + right. cbn [v_lines v_last_line fst snd]. apply push_line_newest.
    + cbn [v_lines v_last_line fst snd].
      destruct H as [[Hin|Hin]|H]; [|left; exact Hin | right; exact H].
      subst c. discriminate.
Qed.

(** X3: once a line has been completed, [_last_line] is the newest entry
    of the history: this holds after [_update_lines] on a buffer with a
    newline, and is kept by [_update_lines] on any buffer; the eviction
    never removes the line just completed. *)
Theorem last_line_is_newest_entry (buffer : str) (self : Receiver) :
  In newline buffer \/ (exists older, _lines self = older ++ [_last_line self]) ->
  exists older,
    _lines (snd (_update_lines buffer self)) =
    older ++ [_last_line (snd (_update_lines buffer self))].
Proof.
  intros H. pose proof (track_newest buffer (view self) H) as Hn.
  rewrite <- update_lines_view in Hn. exact Hn.
Qed.

Lemma rstrip_spaces (ws : str) : forallb isspace ws = true -> rstrip ws = [].
Proof.
  induction ws as [|c ws IH]; intros H; [reflexivity|].
  cbn [forallb] in H. apply andb_true_iff in H as [Hc H].
  cbn [rstrip]. rewrite (IH H), Hc. reflexivity.
Qed.

Lemma rstrip_app_spaces (s ws : str) :
  forallb isspace ws = true -> rstrip (s ++ ws) = rstrip s.
Proof.
  intros H. induction s as [|c s IH]; cbn [app rstrip].
  - apply rstrip_spaces. exact H.
  - rewrite IH. reflexivity.
Qed.

(** X4: a prompt line is recognised whatever whitespace follows the prompt
    before the newline (a carriage return, blanks): with no line in
    progress, and a prompt text without newline or trailing whitespace,
    receiving the prompt, any whitespace and a newline leaves the state
    [Prompt], whatever it was. *)
Theorem prompt_with_trailing_whitespace (ws : str) (self : Receiver) :
  _new_line self = [] ->
  no_newline PROMPT = true ->
  rstrip PROMPT = PROMPT ->
  forallb isspace ws = true ->
  no_newline ws = true ->
  _state (_buffer_received (PROMPT ++ ws ++ [newline]) self) =
    Some State.PROMPT.
Proof.
  intros Hnew Hp Hr Hws Hn.
  assert (Hline : no_newline (PROMPT ++ ws) = true).
  { unfold no_newline in *. rewrite forallb_app, Hp, Hn. reflexivity. }
  change (_state (_buffer_received (PROMPT ++ ws ++ [newline]) self))
    with (snd (tracker (_buffer_received (PROMPT ++ ws ++ [newline]) self))).
  rewrite buffer_received_tracker, app_assoc.
  rewrite (track_terminated_line (PROMPT ++ ws) (view self) Hline).
  cbn [fst snd v_last_line]. change (v_new_line (view self)) with (_new_line self).
  rewrite Hnew. cbn [app]. unfold next_state.
  rewrite (rstrip_app_spaces PROMPT ws Hws), Hr.
  rewrite (proj2 (str_eqb_eq PROMPT PROMPT) eq_refl). reflexivity.
Qed.

End LineTrackerMore.

(** ** More on the receiver object *)

Section ReceiverObjectMore.
Context {D : Defs} {E : Elems}.

(** X5: [reset_internal_info] empties the history, the last line and the
    in-progress line, zeroes the receive time and leaves the state [TBD];
    it keeps the active flag, the latest timestamp and ensemble and the
    constructor arguments; it logs one transition, with an empty last line
    and no dump of the lines, when the state was not [TBD], and nothing
    otherwise; done twice it is as done once.  A new receiver is inactive,
    in state [TBD], with that one transition (from [None]) in its trace. *)
Theorem reset_clears_tracker_only (self : Receiver) :
  tracker (reset_internal_info self) = (([], [], []), Some State.TBD) /\
  _recv_time (reset_internal_info self) = 0%Q /\
  (_active (reset_internal_info self), _latest_ts (reset_internal_info self),
   _latest_pd0 (reset_internal_info self)) =
    (_active self, _latest_ts self, _latest_pd0 self) /\
  config (reset_internal_info self) = config self /\
  (_state self = Some State.TBD ->
   trace (reset_internal_info self) = trace self) /\
  (_state self <> Some State.TBD ->
   trace (reset_internal_info self) =
     trace self ++ [Log (LogTransition (_state self) State.TBD [])]) /\
  reset_internal_info (reset_internal_info self) = reset_internal_info self /\
  (forall sock_timeout bufsize ooi_digi data_listener outfile prefix_state,
     let new := __init__ sock_timeout bufsize ooi_digi data_listener outfile
                         prefix_state in
     trace new = [Log (LogTransition None State.TBD [])] /\
     _active new = false /\
     tracker new = (([], [], []), Some State.TBD) /\
     config new = (sock_timeout, bufsize, ooi_digi, data_listener, outfile,
                   prefix_state)).
Proof.
  unfold reset_internal_info, _set_state, tracker, view, config.
  cbn [_state _last_line _lines _new_line trace set_recv_time set_lines
       set_new_line set_last_line].
  destruct (state_ne (_state self) State.TBD) eqn:Hne; cbn.
  - apply state_ne_true in Hne.
    repeat split; try reflexivity; intros; congruence.
  - apply state_ne_false in Hne. rewrite Hne. cbn.
    repeat split; try reflexivity; intros; congruence.
Qed.

Lemma replace_newline_len (prefix s : str) :
  len (replace_newline prefix s) =
  (len s + count_newlines s * (len prefix - 1))%Z.
Proof.
  unfold replace_newline. induction s as [|c s IH]; [reflexivity|].
  cbn [flat_map]. rewrite len_app, IH, count_newlines_cons.
  change (len (c :: s)) with (Z.of_nat (S (List.length s))).
  rewrite Z.mul_add_distr_r. unfold len.
  destruct (Ascii.eqb c newline); cbn [List.length]; lia.
Qed.

Lemma count_newlines_app (a b : str) :
  count_newlines (a ++ b) = (count_newlines a + count_newlines b)%Z.
Proof. unfold count_newlines. rewrite count_occ_app. lia. Qed.

Lemma replace_newline_count (prefix s : str) :
  count_newlines (replace_newline prefix s) =
  (count_newlines s * count_newlines prefix)%Z.
Proof.
  unfold replace_newline. induction s as [|c s IH]; [reflexivity|].
  cbn [flat_map]. rewrite count_newlines_app, IH, count_newlines_cons.
  destruct (Ascii.eqb c newline) eqn:Hc.
  - lia.
  - rewrite (count_newlines_cons c []), Hc. change (count_newlines []) with 0%Z.
    lia.
Qed.

Lemma replace_newline_none (prefix s : str) :
  no_newline s = true -> replace_newline prefix s = s.
Proof.
  unfold replace_newline, no_newline. induction s as [|c s IH]; [reflexivity|].
  cbn [forallb flat_map]. intros H. apply andb_true_iff in H as [Hc H].
  apply negb_true_iff in Hc. rewrite Hc, (IH H). reflexivity.
Qed.

Lemma no_newline_count (s : str) :
  no_newline s = true -> count_newlines s = 0%Z.
Proof.
  unfold no_newline. induction s as [|c s IH]; [reflexivity|].
  cbn [forallb]. intros H. apply andb_true_iff in H as [Hc H].
  apply negb_true_iff in Hc. rewrite count_newlines_cons, Hc, (IH H).
  reflexivity.
Qed.

Lemma rjust20_len (s : str) : len (rjust20 s) = Z.max 20 (len s).
Proof. unfold rjust20. rewrite len_app. unfold len. rewrite repeat_length. lia. Qed.

Lemma rjust20_count (s : str) : count_newlines (rjust20 s) = count_newlines s.
Proof.
  unfold rjust20. rewrite count_newlines_app.
  assert (H : forall n, count_newlines (repeat " "%char n) = 0%Z).
  { induction n as [|n IH]; [reflexivity|]. cbn [repeat].
    rewrite count_newlines_cons, IH. reflexivity. }
  rewrite H. reflexivity.
Qed.

Lemma update_outfile_frame (buffer : str) (self : Receiver) :
  frame (_update_outfile buffer self) = frame self.
Proof.
  unfold _update_outfile. destruct (_outfile self) eqn:Ho; [|reflexivity].
  unfold frame. cbn. rewrite Ho. reflexivity.
Qed.

(** X6: [_update_outfile] touches nothing but the outfile.  Without an
    outfile it does nothing at all; with one it makes one write followed by
    one flush.  The buffer is written as it is when the state prefix is off
    or the buffer has no newline; with the prefix on, each newline of the
    buffer has become a newline followed by the state, right-justified on
    at least 20 columns, and the two characters bar and blank: the text
    written is longer by that much per newline and, when the text of the
    state holds no newline, has as many newlines as the buffer. *)
Theorem outfile_mirrors_buffer (buffer : str) (self : Receiver) :
  tracker (_update_outfile buffer self) = tracker self /\
  frame (_update_outfile buffer self) = frame self /\
  (_outfile self = false -> _update_outfile buffer self = self) /\
  (_outfile self = true ->
   exists written,
     trace (_update_outfile buffer self) =
       trace self ++ [OutfileWrite written; OutfileFlush] /\
     (_prefix_state self = false -> written = buffer) /\
     (no_newline buffer = true -> written = buffer) /\
     (_prefix_state self = true ->
      len written =
        (len buffer + count_newlines buffer *
           (Z.max 20 (len (str_of_state (_state self))) + 2))%Z /\
      (no_newline (str_of_state (_state self)) = true ->
       count_newlines written = count_newlines buffer))).
Proof.
  unfold _update_outfile. destruct (_outfile self) eqn:Ho.
  - split; [reflexivity|]. split; [unfold frame; cbn; rewrite Ho; reflexivity|].
    split; [discriminate|]. intros _.
    set (prefix := [newline] ++ rjust20 (str_of_state (_state self)) ++ lit "| ").
    exists (if _prefix_state self then replace_newline prefix buffer else buffer).
    split; [cbn; rewrite <- app_assoc; reflexivity|].
    split; [intros Hp; rewrite Hp; reflexivity|].
    split.
    { intros Hn. destruct (_prefix_state self); [|reflexivity].
      apply replace_newline_none. exact Hn. }
    intros Hp. rewrite Hp. split.
    + rewrite replace_newline_len. subst prefix.
      rewrite !len_app, rjust20_len. change (len [newline]) with 1%Z.
      change (len (lit "| ")) with 2%Z. f_equal. f_equal. lia.
    + intros Hs. rewrite replace_newline_count. subst prefix.
      rewrite !count_newlines_app, rjust20_count, (no_newline_count _ Hs).
      change (count_newlines [newline]) with 1%Z.
      change (count_newlines (lit "| ")) with 0%Z. lia.
  - split; [reflexivity|]. split; [reflexivity|].
    split; [reflexivity | discriminate].
Qed.

Lemma latest_app {A : Type} (held : option A) (a b : list A) :
  latest (latest held a) b = latest held (a ++ b).
Proof.
  unfold latest. rewrite rev_app_distr. destruct (rev b); reflexivity.
Qed.

Lemma pd0_received_slots (pd0 : PD0) (self : Receiver) :
  _state (_pd0_received pd0 self) = Some State.COLLECTING_DATA /\
  _latest_pd0 (_pd0_received pd0 self) = Some pd0 /\
  _latest_ts (_pd0_received pd0 self) = _latest_ts self /\
  _data_listener (_pd0_received pd0 self) = _data_listener self /\
  listener_calls (trace (_pd0_received pd0 self)) =
    listener_calls (trace self) ++ (if _data_listener self then [pd0] else []).
Proof.
  unfold _pd0_received.
  destruct (set_state_listener State.COLLECTING_DATA self) as (Hl & Hd & _).
  pose proof (set_state_state State.COLLECTING_DATA self) as Hs.
  pose proof (set_state_frame State.COLLECTING_DATA self) as Hf.
  unfold frame in Hf. injection Hf as _ _ _ _ _ _ _ Hts _ _.
  cbn. rewrite Hd. destruct (_data_listener self); count_calls;
    rewrite Hl; auto.
Qed.

Lemma sink_slots (msg : Msg) (self : Receiver) :
  _latest_pd0 (sink msg self) = latest (_latest_pd0 self) (msg_pd0 msg) /\
  _latest_ts (sink msg self) = latest (_latest_ts self) (msg_ts msg) /\
  _data_listener (sink msg self) = _data_listener self /\
  listener_calls (trace (sink msg self)) =
    listener_calls (trace self) ++
    (if _data_listener self then msg_pd0 msg else []).
Proof.
  destruct msg as [xelems buffer]. unfold sink, msg_pd0, msg_ts. cbn [fst].
  set (s1 := match x_latest_ts xelems with
             | Some ts => if ts_truthy ts then _timestamp_received ts self else self
             | None => self
             end).
  assert (H1 : _latest_pd0 s1 = _latest_pd0 self /\
               _latest_ts s1 = latest (_latest_ts self)
                 match x_latest_ts xelems with
                 | Some ts => if ts_truthy ts then [ts] else []
                 | None => []
                 end /\
               _data_listener s1 = _data_listener self /\
               listener_calls (trace s1) = listener_calls (trace self)).
  { subst s1. destruct (x_latest_ts xelems) as [ts|]; [|auto].
    destruct (ts_truthy ts); [|auto].
    repeat split; try reflexivity. count_calls. reflexivity. }
  destruct H1 as (Hp1 & Ht1 & Hd1 & Hl1).
  set (s2 := match x_pd0 xelems with
             | Some pd0 => if pd0_truthy pd0 then _pd0_received pd0 s1 else s1
             | None => s1
             end).
  assert (H2 : _latest_pd0 s2 = latest (_latest_pd0 self)
                 match x_pd0 xelems with
                 | Some pd0 => if pd0_truthy pd0 then [pd0] else []
                 | None => []
                 end /\
               _latest_ts s2 = _latest_ts s1 /\
               _data_listener s2 = _data_listener self /\
               listener_calls (trace s2) =
                 listener_calls (trace self) ++
                 (if _data_listener self
                  then match x_pd0 xelems with
                       | Some pd0 => if pd0_truthy pd0 then [pd0] else []
                       | None => []
                       end
                  else [])).
  { subst s2.
    assert (Hnone : listener_calls (trace s1) =
                    listener_calls (trace self) ++
                    (if _data_listener self then [] else [])).
    { destruct (_data_listener self); rewrite app_nil_r; exact Hl1. }
    destruct (x_pd0 xelems) as [pd0|]; [|auto].
    destruct (pd0_truthy pd0); [|auto].
    destruct (pd0_received_slots pd0 s1) as (_ & Hp & Ht & Hd & Hl).
    rewrite Hp, Ht, Hd, Hl, Hd1, Hl1. auto. }
  destruct H2 as (Hp2 & Ht2 & Hd2 & Hl2).
  assert (H3 : forall s3, frame s3 = frame s2 ->
                          listener_calls (trace s3) = listener_calls (trace s2) ->
    _latest_pd0 s3 = latest (_latest_pd0 self)
      match x_pd0 xelems with
      | Some pd0 => if pd0_truthy pd0 then [pd0] else []
      | None => []
      end /\
    _latest_ts s3 = latest (_latest_ts self)
      match x_latest_ts xelems with
      | Some ts => if ts_truthy ts then [ts] else []
      | None => []
      end /\
    _data_listener s3 = _data_listener self /\
    listener_calls (trace s3) =
      listener_calls (trace self) ++
      (if _data_listener self
       then match x_pd0 xelems with
            | Some pd0 => if pd0_truthy pd0 then [pd0] else []
            | None => []
            end
       else [])).
  { intros s3 Hf Hl. unfold frame in Hf.
    injection Hf as _ _ _ Hd _ _ _ Hts Hp _.
    rewrite Hp, Hts, Hd, Hl, Hp2, Ht2, Ht1, Hd2, Hl2. auto. }
  destruct (truthy_str buffer).
  - apply H3; [apply buffer_received_frame | apply buffer_received_listener].
  - apply H3; reflexivity.
Qed.

(** X7: the latest-timestamp and latest-ensemble slots are last-write-wins
    and the listener sees every ensemble, in order: after a sequence of
    messages to the sink, each slot holds the last truthy value the
    messages carried for it, or what it held if they carried none, and the
    listener, if there is one, was invoked once with each truthy ensemble
    of the sequence, in the order of the messages. *)
Theorem sink_last_write_wins (msgs : list Msg) (self : Receiver) :
  _latest_pd0 (fold_left (fun s m => sink m s) msgs self) =
    latest (_latest_pd0 self) (flat_map msg_pd0 msgs) /\
  _latest_ts (fold_left (fun s m => sink m s) msgs self) =
    latest (_latest_ts self) (flat_map msg_ts msgs) /\
  listener_calls (trace (fold_left (fun s m => sink m s) msgs self)) =
    listener_calls (trace self) ++
    (if _data_listener self then flat_map msg_pd0 msgs else []).
Proof.
  revert self. induction msgs as [|m msgs IH]; intros self;
    cbn [fold_left flat_map].
  - destruct (_data_listener self); rewrite app_nil_r; auto.
  - destruct (sink_slots m self) as (Hp & Ht & Hd & Hl).
    destruct (IH (sink m self)) as (IHp & IHt & IHl).
    rewrite IHp, IHt, IHl, Hp, Ht, Hd, Hl, !latest_app.
    repeat split. destruct (_data_listener self);
      rewrite <- ?app_assoc, ?app_nil_r; reflexivity.
Qed.

(** X8: in one message the text is handled after the ensemble and decides
    the state.  With an ensemble and some text, the state after the message
    is [Prompt] if the last completed line, trimmed, is the prompt (also
    when that line was completed by an earlier message), is unset if the
    text completed a line that is not the prompt, and is [CollectingData]
    only otherwise. *)
Theorem text_overrides_ensemble (xelems : XElems) (buffer : str) (pd0 : PD0)
    (self : Receiver) :
  x_pd0 xelems = Some pd0 -> pd0_truthy pd0 = true -> buffer <> [] ->
  (rstrip (_last_line (sink (xelems, buffer) self)) = PROMPT ->
   _state (sink (xelems, buffer) self) = Some State.PROMPT) /\
  (rstrip (_last_line (sink (xelems, buffer) self)) <> PROMPT ->
   In newline buffer ->
   _state (sink (xelems, buffer) self) = None) /\
  (rstrip (_last_line (sink (xelems, buffer) self)) <> PROMPT ->
   ~ In newline buffer ->
   _state (sink (xelems, buffer) self) = Some State.COLLECTING_DATA).
Proof.
  intros Hx Ht Hb.
  set (before := match x_latest_ts xelems with
                 | Some ts => if ts_truthy ts then _timestamp_received ts self
                              else self
                 | None => self
                 end).
  assert (Hsink : sink (xelems, buffer) self =
                  _buffer_received buffer (_pd0_received pd0 before)).
  { unfold sink. rewrite Hx, Ht. destruct buffer; [congruence | reflexivity]. }
  rewrite Hsink, buffer_received_state.
  rewrite (proj1 (pd0_received_slots pd0 before)). unfold next_state.
  set (last := _last_line (_buffer_received buffer (_pd0_received pd0 before))).
  destruct (str_eqb (rstrip last) PROMPT) eqn:Hp.
  - apply str_eqb_eq in Hp. repeat split; intros; congruence.
  - assert (Hne : rstrip last <> PROMPT).
    { intros Heq. apply str_eqb_eq in Heq. congruence. }
    repeat split; intros; try congruence.
    + assert (count_occ ascii_dec buffer newline > 0)%nat
        by (apply count_occ_In; assumption).
      destruct (Z.eqb_spec (Z.of_nat (count_occ ascii_dec buffer newline)) 0);
        [lia | reflexivity].
    + assert (count_occ ascii_dec buffer newline = 0)%nat
        by (apply count_occ_not_In; assumption).
      destruct (Z.eqb_spec (Z.of_nat (count_occ ascii_dec buffer newline)) 0);
        [reflexivity | lia].
Qed.

End ReceiverObjectMore.

(** ** What the tracker operations leave alone *)

Section Measures.
Context {D : Defs} {E : Elems} {F : Stages}.
Variable B : Type.
Variable f : Event -> list B.
Hypothesis f_log : forall r, f (Log r) = [].
Hypothesis f_call : forall pd0, f (ListenerCall pd0) = [].

Lemma measure_emit_log (r : LogRecord) (self : Receiver) :
  flat_map f (trace (emit (Log r) self)) = flat_map f (trace self).
Proof. cbn. rewrite flat_map_app. cbn. rewrite f_log, !app_nil_r. reflexivity. Qed.

Lemma measure_set_state (state : State.t) (self : Receiver) :
  flat_map f (trace (_set_state state self)) = flat_map f (trace self).
Proof.
  unfold _set_state. destruct (state_ne (_state self) state); [|reflexivity].
  cbn [trace set_state].
  destruct (truthy_str _); rewrite ?measure_emit_log; reflexivity.
Qed.

Lemma measure_buffer_received (buffer : str) (self : Receiver) :
  flat_map f (trace (_buffer_received buffer self)) = flat_map f (trace self).
Proof.
  unfold _buffer_received.
  destruct (update_lines_track buffer self) as (_ & _ & Ht).
  destruct (_update_lines buffer self) as [n s1]. cbn [snd] in Ht.
  destruct (str_eqb (rstrip (_last_line s1)) PROMPT).
  - rewrite measure_set_state, Ht. reflexivity.
  - destruct (negb (n =? 0)%Z); cbn [trace set_state]; rewrite Ht; reflexivity.
Qed.

Lemma measure_pd0_received (pd0 : PD0) (self : Receiver) :
  flat_map f (trace (_pd0_received pd0 self)) = flat_map f (trace self).
Proof.
  unfold _pd0_received.
  pose proof (measure_set_state State.COLLECTING_DATA self) as Hs.
  set (s1 := _set_state State.COLLECTING_DATA self) in *.
  assert (H : flat_map f (trace (emit (Log (LogPD0 pd0))
                (set_latest_pd0_field (Some pd0) s1))) = flat_map f (trace self))
    by (rewrite measure_emit_log; exact Hs).
  destruct (_data_listener _); [|exact H].
  cbn [trace emit] in *. rewrite flat_map_app, H. cbn.
  rewrite f_call, !app_nil_r. reflexivity.
Qed.

Lemma measure_sink (msg : Msg) (self : Receiver) :
  flat_map f (trace (sink msg self)) = flat_map f (trace self).
Proof.
  destruct msg as [xelems buffer]. unfold sink.
  set (s1 := match x_latest_ts xelems with
             | Some ts => if ts_truthy ts then _timestamp_received ts self else self
             | None => self
             end).
  assert (H1 : flat_map f (trace s1) = flat_map f (trace self)).
  { subst s1. destruct (x_latest_ts xelems) as [ts|]; [|reflexivity].
    destruct (ts_truthy ts); [|reflexivity].
    unfold _timestamp_received. rewrite measure_emit_log. reflexivity. }
  set (s2 := match x_pd0 xelems with
             | Some pd0 => if pd0_truthy pd0 then _pd0_received pd0 s1 else s1
             | None => s1
             end).
  assert (H2 : flat_map f (trace s2) = flat_map f (trace self)).
  { subst s2. destruct (x_pd0 xelems) as [pd0|]; [|exact H1].
    destruct (pd0_truthy pd0); [|exact H1].
    rewrite measure_pd0_received. exact H1. }
  destruct (truthy_str buffer); [|exact H2].
  rewrite measure_buffer_received. exact H2.
Qed.

Lemma measure_sink_fold (msgs : list Msg) : forall self,
  flat_map f (trace (fold_left (fun s m => sink m s) msgs self)) =
  flat_map f (trace self).
Proof.
  induction msgs as [|m msgs IH]; intros self; cbn [fold_left]; [reflexivity|].
  rewrite IH. apply measure_sink.
Qed.

Lemma measure_send_all (pipeline : Pipeline) : forall msgs self,
  flat_map f (trace (snd (send_all pipeline msgs self))) =
  flat_map f (trace self).
Proof.
  induction pipeline as [|locals target IH|locals target IH];
    intros msgs self; cbn [send_all].
  - apply measure_sink_fold.
  - destruct (stage_run timestamp_filter_send locals msgs) as [locals' outs].
    specialize (IH outs self).
    destruct (send_all target outs self) as [target' self']. exact IH.
  - destruct (stage_run pd0_filter_send locals msgs) as [locals' outs].
    specialize (IH outs self).
    destruct (send_all target outs self) as [target' self']. exact IH.
Qed.

End Measures.

Section Configuration.
Context {D : Defs} {E : Elems} {F : Stages}.

Lemma frame_config (a b : Receiver) : frame a = frame b -> config a = config b.
Proof.
  unfold frame, config. intros H. injection H as H1 H2 H3 H4 H5 H6 _ _ _ _.
  congruence.
Qed.

Lemma config_sink (msg : Msg) (self : Receiver) :
  config (sink msg self) = config self.
Proof.
  destruct msg as [xelems buffer]. unfold sink.
  set (s1 := match x_latest_ts xelems with
             | Some ts => if ts_truthy ts then _timestamp_received ts self else self
             | None => self
             end).
  assert (H1 : config s1 = config self).
  { subst s1. destruct (x_latest_ts xelems) as [ts|]; [|reflexivity].
    destruct (ts_truthy ts); reflexivity. }
  set (s2 := match x_pd0 xelems with
             | Some pd0 => if pd0_truthy pd0 then _pd0_received pd0 s1 else s1
             | None => s1
             end).
  assert (H2 : config s2 = config self).
  { subst s2. destruct (x_pd0 xelems) as [pd0|]; [|exact H1].
    destruct (pd0_truthy pd0); [|exact H1].
    rewrite <- H1. unfold _pd0_received.
    pose proof (frame_config _ _ (set_state_frame State.COLLECTING_DATA s1)) as Hc.
    rewrite <- Hc. destruct (_data_listener _); reflexivity. }
  destruct (truthy_str buffer); [|exact H2].
  rewrite <- H2. apply frame_config. apply buffer_received_frame.
Qed.

Lemma config_send_all (pipeline : Pipeline) : forall msgs self,
  config (snd (send_all pipeline msgs self)) = config self.
Proof.
  induction pipeline as [|locals target IH|locals target IH];
    intros msgs self; cbn [send_all].
  - cbn [snd]. revert self.
    induction msgs as [|m msgs IHm]; intros self; cbn [fold_left]; [reflexivity|].
    rewrite IHm. apply config_sink.
  - destruct (stage_run timestamp_filter_send locals msgs) as [locals' outs].
    specialize (IH outs self).
    destruct (send_all target outs self) as [target' self']. exact IH.
  - destruct (stage_run pd0_filter_send locals msgs) as [locals' outs].
    specialize (IH outs self).
    destruct (send_all target outs self) as [target' self']. exact IH.
Qed.

End Configuration.

(** ** More on the read loop *)

Section ReadLoopMore.
Context {D : Defs} {E : Elems} {F : Stages}.

Lemma outfile_bytes_emit_log (r : LogRecord) (self : Receiver) :
  outfile_bytes (trace (emit (Log r) self)) = outfile_bytes (trace self).
Proof.
  unfold outfile_bytes. cbn. rewrite flat_map_app. cbn.
  rewrite app_nil_r. reflexivity.
Qed.

Lemma recv_loop_some (script : list EnvEvent) :
  forall (self s' : Receiver) (buffer : str) (rest : list EnvEvent),
  _recv_loop script self = Return (Some buffer) s' rest ->
  buffer <> [] /\ _active self = true /\
  exists pre now,
    script = pre ++ SockRecv (Returns buffer) now :: rest /\
    forallb is_timeout pre = true /\
    s' = recv_updates buffer now self.
Proof.
  induction script as [|ev script IH]; intros self s' buffer rest H;
    cbn [_recv_loop] in H; [discriminate|].
  destruct ev as [|[data|[| |]] now]; try discriminate.
  - destruct (IH _ _ _ _ H) as (_ & Hact & _). discriminate.
  - destruct (_active self) eqn:Hact; cbn [andb] in H; [|discriminate].
    destruct (truthy_str data) eqn:Hd; [|discriminate].
    injection H as H1 H2 H3. subst data rest.
    split; [destruct buffer; [discriminate | congruence]|].
    split; [reflexivity|]. exists [], now. auto.
  - destruct (_active self) eqn:Hact; [|discriminate].
    destruct (IH _ _ _ _ H) as (Hb & _ & pre & now' & Hs & Hpre & Hs').
    split; [exact Hb|]. split; [reflexivity|].
    exists (SockRecv (Raises socket_timeout) now :: pre), now'.
    rewrite Hs. auto.
Qed.

Lemma recv_loop_none (script : list EnvEvent) :
  forall (self s' : Receiver) (rest : list EnvEvent),
  _recv_loop script self = Return None s' rest ->
  _recv_time s' = _recv_time self /\
  outfile_bytes (trace s') = outfile_bytes (trace self) /\
  tracker s' = tracker self.
Proof.
  induction script as [|ev script IH]; intros self s' rest H;
    cbn [_recv_loop] in H; [discriminate|].
  destruct ev as [|[data|[| |]] now]; try discriminate.
  - exact (IH _ _ _ H).
  - destruct (_active self && truthy_str data); [discriminate|].
    injection H as H1 H2. subst s'. auto.
  - destruct (_active self); [exact (IH _ _ _ H)|].
    injection H as H1 H2. subst s'. auto.
  - injection H as H1 H2. subst s'.
    split; [reflexivity|]. split; [|reflexivity].
    change (trace (set_active false (emit (Log LogSocketError) self)))
      with (trace (emit (Log LogSocketError) self)).
    apply outfile_bytes_emit_log.
Qed.

(** X9: what [_recv] returns.  A buffer it returns is not empty; it is the
    data of the read that returned, which only reads that timed out
    preceded, with the receiver active before and after; the receive time
    is the time of that read and the buffer was mirrored to the outfile.
    When it returns [None] (the read returned nothing, [end()] was called
    or the socket failed), the receive time, the outfile and the line
    tracker are as they were. *)
Theorem recv_returns_read_data (script : list EnvEvent) (self : Receiver) :
  (forall (buffer : str) (s' : Receiver) (rest : list EnvEvent),
     _recv script self = Return (Some buffer) s' rest ->
     buffer <> [] /\ _active self = true /\ _active s' = true /\
     exists pre now,
       script = pre ++ SockRecv (Returns buffer) now :: rest /\
       forallb is_timeout pre = true /\
       _recv_time s' = now /\
       s' = _update_outfile buffer
              (emit (Log (LogReadBytes (len buffer)))
                 (set_recv_time now (emit (Log LogReading) self)))) /\
  (forall (s' : Receiver) (rest : list EnvEvent),
     _recv script self = Return None s' rest ->
     _recv_time s' = _recv_time self /\
     outfile_bytes (trace s') = outfile_bytes (trace self) /\
     tracker s' = tracker self).
Proof.
  unfold _recv.
  change (_active (emit (Log LogReading) self)) with (_active self).
  split.
  - intros buffer s' rest H. destruct (_active self) eqn:Hact; [|discriminate].
    destruct (recv_loop_some _ _ _ _ _ H) as (Hb & _ & pre & now & Hs & Hp & Hs').
    split; [exact Hb|]. split; [reflexivity|].
    assert (Hfields : _active s' = true /\ _recv_time s' = now).
    { subst s'. unfold recv_updates.
      pose proof (update_outfile_frame buffer
        (emit (Log (LogReadBytes (len buffer)))
           (set_recv_time now (emit (Log LogReading) self)))) as Hf.
      unfold frame in Hf. injection Hf as _ _ _ _ _ _ Ha _ _ Ht.
      rewrite Ha, Ht. cbn. auto. }
    destruct Hfields as [Ha Ht]. split; [exact Ha|].
    exists pre, now. auto.
  - intros s' rest H. destruct (_active self).
    + destruct (recv_loop_none _ _ _ _ H) as (Ht & Ho & Htr).
      rewrite Ht, Ho, Htr, outfile_bytes_emit_log. auto.
    + injection H as H1 H2. subst s'.
      rewrite outfile_bytes_emit_log. auto.
Qed.

Lemma run_loop_enter (fuel : nat) (script : list EnvEvent) (self : Receiver)
    (pipeline : Pipeline) :
  _active self = true ->
  run_loop (S fuel) script self pipeline =
  run_in_recv fuel script (emit (Log LogReading) self) pipeline.
Proof.
  intros Hact. cbn [run_loop]. rewrite Hact, (recv_unfold script self Hact).
  reflexivity.
Qed.

Lemma send_active (pipeline : Pipeline) (msg : Msg) (self : Receiver) :
  _active (snd (send pipeline msg self)) = _active self.
Proof. unfold send. apply send_all_active. Qed.

Lemma recv_updates_active (recv : str) (now : Q) (self : Receiver) :
  _active (recv_updates recv now self) = _active self.
Proof.
  unfold recv_updates. rewrite (proj1 (update_outfile_fields _ _)). reflexivity.
Qed.

Lemma quiet_step_active (acc : Pipeline * Receiver) (ev : EnvEvent) :
  _active (snd (quiet_step acc ev)) = _active (snd acc).
Proof.
  unfold quiet_step. destruct ev as [|[data|e] now]; try reflexivity.
  destruct (truthy_str data); cbn [snd]; [|reflexivity].
  change (_active (emit (Log LogReading) ?s)) with (_active s).
  cbn [_active emit]. rewrite send_active, recv_updates_active. reflexivity.
Qed.

(** Reads that time out or return data are handled one after the other,
    each return of a read using one iteration of the loop. *)
Lemma run_in_recv_quiet (pre : list EnvEvent) :
  forall (fuel : nat) (tail : list EnvEvent) (self : Receiver)
         (pipeline : Pipeline),
  forallb quiet pre = true ->
  _active self = true ->
  (reads pre <= fuel)%nat ->
  run_in_recv fuel (pre ++ tail) self pipeline =
    run_in_recv (fuel - reads pre) tail
      (snd (fold_left quiet_step pre (pipeline, self)))
      (fst (fold_left quiet_step pre (pipeline, self))) /\
  _active (snd (fold_left quiet_step pre (pipeline, self))) = true.
Proof.
  induction pre as [|ev pre IH]; intros fuel tail self pipeline Hq Hact Hfuel.
  - cbn. rewrite Nat.sub_0_r. auto.
  - cbn [forallb] in Hq. apply andb_true_iff in Hq as [Hev Hq].
    destruct ev as [|[data|[| |]] now]; try discriminate.
    + (* a read returns *)
      unfold reads in Hfuel |- *. cbn [filter List.length] in Hfuel |- *.
      destruct fuel as [|fuel]; [lia|].
      cbn [fold_left app Nat.sub]. unfold run_in_recv at 1.
      cbn [_recv_loop]. rewrite Hact. cbn [andb].
      assert (Hstep : quiet_step (pipeline, self) (SockRecv (Returns data) now) =
                if truthy_str data
                then (fst (send pipeline (xelems_empty, data)
                             (recv_updates data now self)),
                      emit (Log LogReading)
                        (snd (send pipeline (xelems_empty, data)
                                (recv_updates data now self))))
                else (pipeline, emit (Log LogReading) self)) by reflexivity.
      rewrite Hstep. clear Hstep.
      destruct (truthy_str data) eqn:Hd.
      * fold (recv_updates data now self).
        assert (Ha : _active (snd (send pipeline (xelems_empty, data)
                                     (recv_updates data now self))) = true)
          by (rewrite send_active, recv_updates_active; exact Hact).
        destruct (send pipeline (xelems_empty, data)
                    (recv_updates data now self)) as [pipeline1 s1].
        cbn [fst snd] in *. rewrite (run_loop_enter _ _ _ _ Ha).
        apply IH; [exact Hq | exact Ha | unfold reads; lia].
      * rewrite (run_loop_enter _ _ _ _ Hact).
        apply IH; [exact Hq | exact Hact | unfold reads; lia].
    + (* a read times out *)
      unfold reads in Hfuel |- *. cbn [filter] in Hfuel |- *.
      cbn [fold_left app]. unfold run_in_recv at 1.
      cbn [_recv_loop]. rewrite Hact.
      apply (IH fuel tail self pipeline Hq Hact Hfuel).
Qed.

Lemma reads_le_length (script : list EnvEvent) :
  (reads script <= List.length script)%nat.
Proof. unfold reads. apply filter_length_le. Qed.

Lemma run_unfold (script : list EnvEvent) (self : Receiver) :
  run script self =
  match run_in_recv (List.length script) script
          (emit (Log LogReading) (run_entry self))
          (run_pipeline (run_entry self)) with
  | LoopExit self pipeline rest =>
      Finished (emit (Log LogEnded) (_end_outfile (emit PipelineClose self)))
               rest
  | LoopRaised e self _ => Raised e self
  | LoopBlocked self _ => Running self
  | LoopOutOfFuel => OutOfFuel
  end.
Proof.
  unfold run. fold (run_entry self).
  rewrite (run_loop_enter _ _ (run_entry self) _ eq_refl). reflexivity.
Qed.

(** [run] on a script whose first events are reads that time out or return
    data. *)
Lemma run_quiet_prefix (pre tail : list EnvEvent) (self : Receiver) :
  forallb quiet pre = true ->
  run (pre ++ tail) self =
  match run_in_recv (List.length (pre ++ tail) - reads pre) tail
          (snd (fold_left quiet_step pre
                  (run_pipeline (run_entry self),
                   emit (Log LogReading) (run_entry self))))
          (fst (fold_left quiet_step pre
                  (run_pipeline (run_entry self),
                   emit (Log LogReading) (run_entry self)))) with
  | LoopExit self pipeline rest =>
      Finished (emit (Log LogEnded) (_end_outfile (emit PipelineClose self)))
               rest
  | LoopRaised e self _ => Raised e self
  | LoopBlocked self _ => Running self
  | LoopOutOfFuel => OutOfFuel
  end /\
  _active (snd (fold_left quiet_step pre
                  (run_pipeline (run_entry self),
                   emit (Log LogReading) (run_entry self)))) = true.
Proof.
  intros Hq. rewrite run_unfold.
  destruct (run_in_recv_quiet pre (List.length (pre ++ tail)) tail
              (emit (Log LogReading) (run_entry self))
              (run_pipeline (run_entry self)) Hq eq_refl) as [Hrun Hact].
  { pose proof (reads_le_length pre). rewrite length_app. lia. }
  rewrite Hrun. auto.
Qed.

Lemma run_quiet_fold (script : list EnvEvent) (self : Receiver) :
  forallb quiet script = true ->
  run script self =
  Running (snd (fold_left quiet_step script
                  (run_pipeline (run_entry self),
                   emit (Log LogReading) (run_entry self)))).
Proof.
  intros Hq. destruct (run_quiet_prefix script [] self Hq) as [Hrun _].
  rewrite app_nil_r in Hrun. rewrite Hrun. reflexivity.
Qed.

Lemma outfile_bytes_send (pipeline : Pipeline) (msg : Msg) (self : Receiver) :
  outfile_bytes (trace (snd (send pipeline msg self))) =
  outfile_bytes (trace self).
Proof.
  unfold send, outfile_bytes. apply measure_send_all; reflexivity.
Qed.

Lemma config_fields (a b : Receiver) :
  config a = config b ->
  _outfile a = _outfile b /\ _prefix_state a = _prefix_state b /\
  _ooi_digi a = _ooi_digi b.
Proof. unfold config. intros H. injection H as _ _ H1 _ H2 H3. auto. Qed.

Lemma config_recv_updates (recv : str) (now : Q) (self : Receiver) :
  config (recv_updates recv now self) = config self.
Proof.
  unfold recv_updates.
  rewrite (frame_config _ _ (update_outfile_frame _ _)). reflexivity.
Qed.

Lemma quiet_step_config (acc : Pipeline * Receiver) (ev : EnvEvent) :
  config (snd (quiet_step acc ev)) = config (snd acc).
Proof.
  unfold quiet_step. destruct ev as [|[data|e] now]; try reflexivity.
  destruct (truthy_str data); cbn [snd]; [|reflexivity].
  change (config (emit (Log LogReading) ?s)) with (config s).
  unfold send. rewrite config_send_all. apply config_recv_updates.
Qed.

Lemma quiet_step_outfile (acc : Pipeline * Receiver) (ev : EnvEvent) :
  _outfile (snd acc) = true -> _prefix_state (snd acc) = false ->
  outfile_bytes (trace (snd (quiet_step acc ev))) =
  outfile_bytes (trace (snd acc)) ++ data_of [ev].
Proof.
  intros Ho Hp. unfold quiet_step, data_of. cbn [flat_map].
  destruct ev as [|[data|e] now]; rewrite ?app_nil_r; try reflexivity.
  destruct (truthy_str data) eqn:Hd; cbn [snd].
  - rewrite outfile_bytes_emit_log, outfile_bytes_send.
    unfold recv_updates, _update_outfile.
    cbn [_outfile _prefix_state emit set_recv_time]. rewrite Ho, Hp.
    unfold outfile_bytes. cbn [trace emit set_recv_time].
    rewrite !flat_map_app. cbn [flat_map]. rewrite !app_nil_r. reflexivity.
  - destruct data; [|discriminate].
    rewrite outfile_bytes_emit_log, app_nil_r. reflexivity.
Qed.

Lemma data_of_cons (ev : EnvEvent) (script : list EnvEvent) :
  data_of (ev :: script) = data_of [ev] ++ data_of script.
Proof. unfold data_of. cbn [flat_map]. rewrite app_nil_r. reflexivity. Qed.

Lemma quiet_fold_outfile (script : list EnvEvent) :
  forall acc : Pipeline * Receiver,
  _outfile (snd acc) = true -> _prefix_state (snd acc) = false ->
  outfile_bytes (trace (snd (fold_left quiet_step script acc))) =
  outfile_bytes (trace (snd acc)) ++ data_of script.
Proof.
  induction script as [|ev script IH]; intros acc Ho Hp; cbn [fold_left].
  - rewrite app_nil_r. reflexivity.
  - destruct (config_fields _ _ (quiet_step_config acc ev)) as (Ho' & Hp' & _).
    rewrite (data_of_cons ev script), app_assoc,
      <- (quiet_step_outfile acc ev Ho Hp).
    apply IH; congruence.
Qed.

Lemma run_entry_fields (self : Receiver) :
  trace (run_entry self) = trace self ++ [Log LogRunning] /\
  tracker (run_entry self) = tracker self /\
  _outfile (run_entry self) = _outfile self /\
  _prefix_state (run_entry self) = _prefix_state self /\
  _ooi_digi (run_entry self) = _ooi_digi self.
Proof. unfold run_entry. destruct (_sock_timeout self); cbn; auto. Qed.

Lemma run_entry_outfile (self : Receiver) :
  outfile_bytes (trace (emit (Log LogReading) (run_entry self))) =
  outfile_bytes (trace self).
Proof.
  rewrite outfile_bytes_emit_log, (proj1 (run_entry_fields self)).
  unfold outfile_bytes. rewrite flat_map_app. cbn. rewrite app_nil_r.
  reflexivity.
Qed.

(** X10: with an outfile and the state prefix off, the outfile receives
    the bytes read from the socket, all of them and in order.  While reads
    only time out or return data, what has been written is what the reads
    returned; and when a socket error then ends the run, the outfile holds
    those bytes followed by the end mark, and nothing else. *)
Theorem outfile_receives_all_data (pre : list EnvEvent) (self : Receiver) :
  forallb quiet pre = true ->
  _outfile self = true -> _prefix_state self = false ->
  (exists s', run pre self = Running s' /\
     outfile_bytes (trace s') = outfile_bytes (trace self) ++ data_of pre) /\
  (forall (now : Q) (rest : list EnvEvent),
     exists s',
       run (pre ++ SockRecv (Raises socket_error) now :: rest) self =
         Finished s' rest /\
       outfile_bytes (trace s') =
         outfile_bytes (trace self) ++ data_of pre ++ end_mark).
Proof.
  intros Hq Ho Hp.
  destruct (run_entry_fields self) as (_ & _ & Ho' & Hp' & _).
  assert (Hfold : outfile_bytes (trace (snd (fold_left quiet_step pre
                    (run_pipeline (run_entry self),
                     emit (Log LogReading) (run_entry self))))) =
                  outfile_bytes (trace self) ++ data_of pre).
  { rewrite quiet_fold_outfile; cbn [snd];
      [rewrite run_entry_outfile; reflexivity | | ].
    - change (_outfile (emit (Log LogReading) (run_entry self)))
        with (_outfile (run_entry self)). congruence.
    - change (_prefix_state (emit (Log LogReading) (run_entry self)))
        with (_prefix_state (run_entry self)). congruence. }
  assert (Hfout : _outfile (snd (fold_left quiet_step pre
                    (run_pipeline (run_entry self),
                     emit (Log LogReading) (run_entry self)))) = true).
  { assert (Hc : forall script acc,
              config (snd (fold_left quiet_step script acc)) = config (snd acc)).
    { induction script as [|ev script IH]; intros acc; cbn [fold_left];
        [reflexivity|]. rewrite IH. apply quiet_step_config. }
    destruct (config_fields _ _ (Hc pre (run_pipeline (run_entry self),
                emit (Log LogReading) (run_entry self)))) as (H1 & _).
    cbn [snd] in H1. rewrite H1.
    change (_outfile (emit (Log LogReading) (run_entry self)))
      with (_outfile (run_entry self)). congruence. }
  split.
  - rewrite (run_quiet_fold pre self Hq). eexists. split; [reflexivity|].
    exact Hfold.
  - intros now rest.
    destruct (run_quiet_prefix pre (SockRecv (Raises socket_error) now :: rest)
                self Hq) as [Hrun _].
    rewrite Hrun. clear Hrun.
    assert (Hfuel : exists k,
      (List.length (pre ++ SockRecv (Raises socket_error) now :: rest)
       - reads pre = S k)%nat).
    { pose proof (reads_le_length pre). rewrite length_app. cbn [List.length].
      exists (List.length pre + List.length rest - reads pre)%nat. lia. }
    destruct Hfuel as [k Hk]. rewrite Hk.
    set (acc := fold_left quiet_step pre
                  (run_pipeline (run_entry self),
                   emit (Log LogReading) (run_entry self))) in *.
    unfold run_in_recv. cbn [_recv_loop run_loop _active set_active].
    eexists. split; [reflexivity|].
    unfold _end_outfile.
    cbn [_outfile emit set_active trace]. rewrite Hfout.
    unfold outfile_bytes in *. cbn [trace emit set_active].
    rewrite !flat_map_app, Hfold. cbn [flat_map].
    rewrite !app_nil_r, <- !app_assoc. reflexivity.
Qed.

Lemma sink_text_congr (buffer : str) (a b : Receiver) :
  tracker a = tracker b ->
  tracker (sink (xelems_empty, buffer) a) =
  tracker (sink (xelems_empty, buffer) b).
Proof.
  intros H. rewrite !sink_text. destruct (truthy_str buffer); [|exact H].
  rewrite !buffer_received_tracker.
  pose proof (f_equal fst H) as Hv. pose proof (f_equal snd H) as Hs.
  cbn [tracker fst snd] in Hv, Hs. rewrite Hv, Hs. reflexivity.
Qed.

Lemma tracker_recv_updates (recv : str) (now : Q) (self : Receiver) :
  tracker (recv_updates recv now self) = tracker self.
Proof.
  unfold recv_updates, _update_outfile.
  destruct (_outfile _); reflexivity.
Qed.

Lemma quiet_step_digi (self : Receiver) (ev : EnvEvent) :
  quiet_step (P_sink, self) ev =
  match ev with
  | SockRecv (Returns recv) now =>
      (P_sink,
       emit (Log LogReading)
         (if truthy_str recv
          then sink (xelems_empty, recv) (recv_updates recv now self)
          else self))
  | _ => (P_sink, self)
  end.
Proof.
  destruct ev as [|[data|e] now]; try reflexivity.
  unfold quiet_step. destruct (truthy_str data); reflexivity.
Qed.

Lemma quiet_fold_digi (script : list EnvEvent) : forall self : Receiver,
  fst (fold_left quiet_step script (P_sink, self)) = P_sink /\
  tracker (snd (fold_left quiet_step script (P_sink, self))) =
    tracker (sink (xelems_empty, data_of script) self).
Proof.
  induction script as [|ev script IH]; intros self; cbn [fold_left].
  - auto.
  - rewrite data_of_cons, quiet_step_digi.
    destruct ev as [|[data|e] now];
      try (unfold data_of at 1; cbn [flat_map app]; apply IH).
    unfold data_of at 1. cbn [flat_map]. rewrite app_nil_r.
    destruct (IH (emit (Log LogReading)
                    (if truthy_str data
                     then sink (xelems_empty, data) (recv_updates data now self)
                     else self))) as [Hpl Htr].
    split; [exact Hpl|]. rewrite Htr. clear Hpl Htr.
    destruct (truthy_str data) eqn:Hd.
    + rewrite <- sink_text_app. apply sink_text_congr.
      change (tracker (emit (Log LogReading)
                (sink (xelems_empty, data) (recv_updates data now self))))
        with (tracker (sink (xelems_empty, data) (recv_updates data now self))).
      apply sink_text_congr. apply tracker_recv_updates.
    + destruct data; [|discriminate]. cbn [app].
      apply sink_text_congr. reflexivity.
Qed.

(** X11: on an OOI Digi connection the line history and the state depend
    on the bytes received only, not on how the socket delivered them:
    while reads only time out or return data, the history, the last line,
    the in-progress line and the state are those one message to the sink
    with all the bytes would leave; two sequences of reads that return the
    same bytes leave the same ones. *)
Theorem digi_run_depends_on_bytes_only (script : list EnvEvent)
    (self : Receiver) :
  forallb quiet script = true ->
  _ooi_digi self = true ->
  (exists s', run script self = Running s' /\
     tracker s' = tracker (sink (xelems_empty, data_of script) self)) /\
  (forall script2 : list EnvEvent,
     forallb quiet script2 = true ->
     data_of script2 = data_of script ->
     exists s1 s2,
       run script self = Running s1 /\ run script2 self = Running s2 /\
       tracker s1 = tracker s2).
Proof.
  intros Hq Hdigi.
  assert (Hone : forall sc, forallb quiet sc = true ->
            exists s', run sc self = Running s' /\
              tracker s' = tracker (sink (xelems_empty, data_of sc) self)).
  { intros sc Hsc. rewrite (run_quiet_fold sc self Hsc).
    eexists. split; [reflexivity|].
    destruct (run_entry_fields self) as (_ & Htr & _ & _ & Hd).
    unfold run_pipeline. rewrite Hd, Hdigi. unfold sink_coroutine.
    rewrite (proj2 (quiet_fold_digi sc _)). apply sink_text_congr.
    exact Htr. }
  split; [apply Hone; exact Hq|].
  intros script2 Hq2 Hdata.
  destruct (Hone script Hq) as (s1 & Hr1 & Ht1).
  destruct (Hone script2 Hq2) as (s2 & Hr2 & Ht2).
  exists s1, s2. rewrite Ht1, Ht2, Hdata. auto.
Qed.

Lemma quiet_fold_filter (script : list EnvEvent) :
  forall acc : Pipeline * Receiver,
  fold_left quiet_step (filter (fun ev => negb (is_timeout ev)) script) acc =
  fold_left quiet_step script acc.
Proof.
  induction script as [|ev script IH]; intros acc; [reflexivity|].
  cbn [filter]. destruct ev as [|[data|[| |]] now];
    cbn [is_timeout negb fold_left]; apply IH.
Qed.

Lemma quiet_filter (script : list EnvEvent) :
  forallb quiet script = true ->
  forallb quiet (filter (fun ev => negb (is_timeout ev)) script) = true.
Proof.
  induction script as [|ev script IH]; [reflexivity|].
  cbn [forallb filter]. intros H. apply andb_true_iff in H as [Hev H].
  destruct (negb (is_timeout ev)); [|auto].
  cbn [forallb]. rewrite Hev, (IH H). reflexivity.
Qed.

(** X12: a read that times out leaves no trace.  While reads only time
    out or return data, [run] leaves the same receiver, log included,
    whether the timeouts happened or not. *)
Theorem timeouts_leave_no_trace (script : list EnvEvent) (self : Receiver) :
  forallb quiet script = true ->
  run (filter (fun ev => negb (is_timeout ev)) script) self = run script self.
Proof.
  intros Hq.
  rewrite (run_quiet_fold script self Hq).
  rewrite (run_quiet_fold _ self (quiet_filter script Hq)).
  rewrite quiet_fold_filter. reflexivity.
Qed.

Lemma writes_emit_log (r : LogRecord) (self : Receiver) :
  writes (trace (emit (Log r) self)) = writes (trace self).
Proof. unfold writes. apply measure_emit_log. reflexivity. Qed.

Lemma writes_send (pipeline : Pipeline) (msg : Msg) (self : Receiver) :
  writes (trace (snd (send pipeline msg self))) = writes (trace self).
Proof. unfold send, writes. apply measure_send_all; reflexivity. Qed.

Lemma delivered_cons (ev : EnvEvent) (script : list EnvEvent) :
  delivered (ev :: script) = delivered [ev] ++ delivered script.
Proof. unfold delivered. cbn [flat_map]. rewrite app_nil_r. reflexivity. Qed.

(** Each buffer [_recv] returns makes one write to the outfile, its mirror;
    nothing else of an iteration writes to it. *)
Lemma quiet_step_writes (acc : Pipeline * Receiver) (ev : EnvEvent) :
  exists ws,
    writes (trace (snd (quiet_step acc ev))) = writes (trace (snd acc)) ++ ws /\
    if _outfile (snd acc)
    then Forall2 (mirror_of (_prefix_state (snd acc))) (delivered [ev]) ws
    else ws = [].
Proof.
  assert (Hnone : exists ws,
            writes (trace (snd acc)) = writes (trace (snd acc)) ++ ws /\
            if _outfile (snd acc)
            then Forall2 (mirror_of (_prefix_state (snd acc))) [] ws
            else ws = []).
  { exists []. rewrite app_nil_r. split; [reflexivity|].
    destruct (_outfile (snd acc)); [constructor | reflexivity]. }
  destruct ev as [|[data|e] now]; try exact Hnone.
  assert (Hstep : quiet_step acc (SockRecv (Returns data) now) =
            if truthy_str data
            then (fst (send (fst acc) (xelems_empty, data)
                         (recv_updates data now (snd acc))),
                  emit (Log LogReading)
                    (snd (send (fst acc) (xelems_empty, data)
                            (recv_updates data now (snd acc)))))
            else (fst acc, emit (Log LogReading) (snd acc))) by reflexivity.
  rewrite Hstep. clear Hstep. unfold delivered. cbn [flat_map].
  destruct (truthy_str data) eqn:Hd; cbn [snd app];
    [|rewrite writes_emit_log; exact Hnone].
  rewrite writes_emit_log, writes_send.
  unfold recv_updates, _update_outfile.
  cbn [_outfile _prefix_state _state emit set_recv_time].
  destruct (_outfile (snd acc)).
  - exists [if _prefix_state (snd acc)
            then replace_newline
                   ([newline] ++ rjust20 (str_of_state (_state (snd acc))) ++
                    lit "| ") data
            else data].
    split.
    + unfold writes. cbn [trace emit set_recv_time].
      rewrite !flat_map_app. cbn [flat_map]. rewrite !app_nil_r. reflexivity.
    + constructor; [|constructor]. unfold mirror_of.
      destruct (_prefix_state (snd acc)); [eexists|]; reflexivity.
  - exists []. rewrite app_nil_r. split; [|reflexivity].
    rewrite writes_emit_log. reflexivity.
Qed.

Lemma quiet_fold_writes (script : list EnvEvent) :
  forall acc : Pipeline * Receiver,
  exists ws,
    writes (trace (snd (fold_left quiet_step script acc))) =
      writes (trace (snd acc)) ++ ws /\
    if _outfile (snd acc)
    then Forall2 (mirror_of (_prefix_state (snd acc))) (delivered script) ws
    else ws = [].
Proof.
  induction script as [|ev script IH]; intros acc; cbn [fold_left].
  - exists []. rewrite app_nil_r. split; [reflexivity|].
    destruct (_outfile (snd acc)); [constructor | reflexivity].
  - destruct (quiet_step_writes acc ev) as (ws1 & Hw1 & Hm1).
    destruct (IH (quiet_step acc ev)) as (ws2 & Hw2 & Hm2).
    destruct (config_fields _ _ (quiet_step_config acc ev)) as (Ho & Hp & _).
    rewrite Ho, Hp in Hm2.
    exists (ws1 ++ ws2). split; [rewrite Hw2, Hw1, app_assoc; reflexivity|].
    destruct (_outfile (snd acc)).
    + rewrite delivered_cons. apply Forall2_app; assumption.
    + subst ws1 ws2. reflexivity.
Qed.

(** An exception of [sock.recv] that is not a socket exception, after
    reads that time out or return data: [run] is left with the receiver as
    it was while the read was pending. *)
Lemma run_foreign_exception (pre : list EnvEvent) (now : Q)
    (rest : list EnvEvent) (self : Receiver) :
  forallb quiet pre = true ->
  exists s',
    run (pre ++ SockRecv (Raises other_exception) now :: rest) self =
      Raised other_exception s' /\
    _active s' = true /\
    run pre self = Running s' /\
    exists during,
      trace s' = trace self ++ during /\
      ~ In PipelineClose during /\ ~ In (Log LogEnded) during /\
      (if _outfile self
       then Forall2 (mirror_of (_prefix_state self)) (delivered pre)
              (writes during)
       else writes during = []) /\
      (_outfile self = true -> _prefix_state self = false ->
       outfile_bytes during = data_of pre).
Proof.
  intros Hq.
  pose proof (run_spec (pre ++ SockRecv (Raises other_exception) now :: rest)
                self) as Hspec.
  destruct (run_quiet_prefix pre
              (SockRecv (Raises other_exception) now :: rest) self Hq)
    as [Hrun Hact].
  unfold run_in_recv in Hrun. cbn [_recv_loop] in Hrun.
  rewrite Hrun in *. eexists. split; [reflexivity|]. split; [exact Hact|].
  split; [apply run_quiet_fold; exact Hq|].
  destruct Hspec as (_ & during & Hd & Ht).
  exists ([Log LogRunning] ++ during). split; [exact Ht|].
  assert (Hno : forall e, In e ([Log LogRunning] ++ during) ->
                          e <> PipelineClose /\ e <> Log LogEnded).
  { intros e [He|He]; [subst e; split; discriminate|].
    rewrite Forall_forall in Hd. specialize (Hd e He).
    split; intros Heq; subst e; exact Hd. }
  split; [intros Hin; destruct (Hno _ Hin) as [H _]; congruence|].
  split; [intros Hin; destruct (Hno _ Hin) as [_ H]; congruence|].
  destruct (run_entry_fields self) as (Hte & _ & Ho' & Hp' & _).
  split.
  - destruct (quiet_fold_writes pre
                (run_pipeline (run_entry self),
                 emit (Log LogReading) (run_entry self))) as (ws & Hw & Hm).
    cbn [snd] in Hw, Hm.
    change (_outfile (emit (Log LogReading) (run_entry self)))
      with (_outfile (run_entry self)) in Hm.
    change (_prefix_state (emit (Log LogReading) (run_entry self)))
      with (_prefix_state (run_entry self)) in Hm.
    rewrite Ho', Hp' in Hm.
    rewrite writes_emit_log, Hte, Ht in Hw. unfold writes in Hw.
    rewrite !flat_map_app in Hw. cbn [flat_map] in Hw.
    rewrite <- !app_assoc in Hw. apply app_inv_head in Hw. cbn [app] in Hw.
    assert (Hws : writes ([Log LogRunning] ++ during) = ws)
      by (unfold writes; cbn [flat_map app]; exact Hw).
    rewrite Hws. exact Hm.
  - intros Ho Hp.
    assert (Hfold : outfile_bytes (trace (snd (fold_left quiet_step pre
                      (run_pipeline (run_entry self),
                       emit (Log LogReading) (run_entry self))))) =
                    outfile_bytes (trace self) ++ data_of pre).
    { rewrite quiet_fold_outfile; cbn [snd];
        [rewrite run_entry_outfile; reflexivity | | ].
      - change (_outfile (emit (Log LogReading) (run_entry self)))
          with (_outfile (run_entry self)). congruence.
      - change (_prefix_state (emit (Log LogReading) (run_entry self)))
          with (_prefix_state (run_entry self)). congruence. }
    rewrite Ht in Hfold. unfold outfile_bytes in *.
    rewrite flat_map_app in Hfold. apply app_inv_head in Hfold. exact Hfold.
Qed.

(** X13: an exception of [sock.recv] that is not a socket exception is not
    caught.  After reads that time out or return data it comes out of
    [run], which leaves the receiver as it was while that read was
    pending, the active flag still set: the pipeline is not closed and the
    final log record is not made; whatever the prefix setting, the writes
    to the outfile are the mirrors of the buffers read, one for each and in
    their order, with no write of an end mark after them (none at all
    without an outfile); with the prefix off the outfile holds the bytes
    read and nothing else. *)
Theorem foreign_exception_skips_closing (pre : list EnvEvent) (now : Q)
    (rest : list EnvEvent) (self : Receiver) :
  forallb quiet pre = true ->
  exists s',
    run (pre ++ SockRecv (Raises other_exception) now :: rest) self =
      Raised other_exception s' /\
    _active s' = true /\
    run pre self = Running s' /\
    exists during,
      trace s' = trace self ++ during /\
      ~ In PipelineClose during /\ ~ In (Log LogEnded) during /\
      (if _outfile self
       then Forall2 (mirror_of (_prefix_state self)) (delivered pre)
              (writes during)
       else writes during = []) /\
      (_outfile self = true -> _prefix_state self = false ->
       outfile_bytes during = data_of pre).
Proof. exact (run_foreign_exception pre now rest self). Qed.

(** A message sent into the pipeline of a connection that is not an OOI
    Digi one, whatever the filters hold. *)
Lemma send_two_stage (ts_locals : TsFilter) (pd0_locals : Pd0Filter)
    (msg : Msg) (r : Receiver) :
  send (P_timestamp_filter ts_locals (P_pd0_filter pd0_locals P_sink)) msg r =
  (P_timestamp_filter (fst (timestamp_filter_send ts_locals msg))
     (P_pd0_filter
        (fst (stage_run pd0_filter_send pd0_locals
                (snd (timestamp_filter_send ts_locals msg))))
        P_sink),
   fold_left (fun s m => sink m s)
     (snd (stage_run pd0_filter_send pd0_locals
             (snd (timestamp_filter_send ts_locals msg))))
     r).
Proof.
  unfold send. cbn [send_all].
  unfold stage_run at 1. cbn [fold_left fst snd app].
  destruct (timestamp_filter_send ts_locals msg) as [ts' outs].
  cbn [fst snd].
  destruct (stage_run pd0_filter_send pd0_locals outs) as [pd0' outs'].
  reflexivity.
Qed.

Lemma quiet_fold_two_stage (script : list EnvEvent) :
  forall (ts_locals : TsFilter) (pd0_locals : Pd0Filter) (r : Receiver),
  fold_left quiet_step script
    (P_timestamp_filter ts_locals (P_pd0_filter pd0_locals P_sink), r) =
  (P_timestamp_filter
     (fst (fst (fold_left two_stage_step script ((ts_locals, pd0_locals), r))))
     (P_pd0_filter
        (snd (fst (fold_left two_stage_step script
                     ((ts_locals, pd0_locals), r))))
        P_sink),
   snd (fold_left two_stage_step script ((ts_locals, pd0_locals), r))).
Proof.
  induction script as [|ev script IH]; intros ts_locals pd0_locals r;
    cbn [fold_left]; [reflexivity|].
  destruct ev as [|[data|e] now]; try apply IH.
  assert (Hstep : quiet_step
            (P_timestamp_filter ts_locals (P_pd0_filter pd0_locals P_sink), r)
            (SockRecv (Returns data) now) =
            if truthy_str data
            then (fst (send (P_timestamp_filter ts_locals
                               (P_pd0_filter pd0_locals P_sink))
                         (xelems_empty, data) (recv_updates data now r)),
                  emit (Log LogReading)
                    (snd (send (P_timestamp_filter ts_locals
                                  (P_pd0_filter pd0_locals P_sink))
                            (xelems_empty, data) (recv_updates data now r))))
            else (P_timestamp_filter ts_locals (P_pd0_filter pd0_locals P_sink),
                  emit (Log LogReading) r)) by reflexivity.
  rewrite Hstep. clear Hstep.
  assert (Hstep : two_stage_step ((ts_locals, pd0_locals), r)
                    (SockRecv (Returns data) now) =
            if truthy_str data
            then ((fst (timestamp_filter_send ts_locals (xelems_empty, data)),
                   fst (stage_run pd0_filter_send pd0_locals
                          (snd (timestamp_filter_send ts_locals
                                  (xelems_empty, data))))),
                  emit (Log LogReading)
                    (fold_left (fun s m => sink m s)
                       (snd (stage_run pd0_filter_send pd0_locals
                               (snd (timestamp_filter_send ts_locals
                                       (xelems_empty, data)))))
                       (recv_updates data now r)))
            else ((ts_locals, pd0_locals), emit (Log LogReading) r))
    by reflexivity.
  rewrite Hstep. clear Hstep.
  destruct (truthy_str data); [|apply IH].
  rewrite send_two_stage. cbn [fst snd]. apply IH.
Qed.

Lemma quiet_fold_digi_step (script : list EnvEvent) : forall r : Receiver,
  fold_left quiet_step script (P_sink, r) =
  (P_sink, fold_left digi_step script r).
Proof.
  induction script as [|ev script IH]; intros r; cbn [fold_left];
    [reflexivity|].
  rewrite quiet_step_digi.
  destruct ev as [|[data|e] now]; apply IH.
Qed.


(** C9: on an OOI Digi connection the pipeline [run] builds is the sink
    alone: a buffer sent into it is handed to the sink as it is, and while
    reads time out or return data [run] gives every buffer read to the
    sink, with no filter in between.  On any other connection the pipeline
    [run] builds is the timestamp filter, whose target is the PD0 filter,
    whose target is the sink: a message sent into it goes through the
    timestamp filter first, what that one sends goes through the PD0
    filter, and what that one sends reaches the sink; the pipeline keeps
    this shape, and while reads time out or return data [run] passes every
    buffer read through the two filters in this order, each keeping its
    locals from one buffer to the next.  Each buffer [_recv] returns is
    sent into the pipeline with an empty dict. *)
Theorem run_pipeline_order (self : Receiver) :
  (_ooi_digi self = true ->
   run_pipeline self = sink_coroutine /\
   (forall (buffer : str) (r : Receiver),
      send (run_pipeline self) (xelems_empty, buffer) r =
      (run_pipeline self, sink (xelems_empty, buffer) r)) /\
   (forall script : list EnvEvent,
      forallb quiet script = true ->
      run script self =
      Running (fold_left digi_step script
                 (emit (Log LogReading) (run_entry self))))) /\
  (_ooi_digi self = false ->
   run_pipeline self = timestamp_filter (pd0_filter sink_coroutine) /\
   (forall (msg : Msg) (r : Receiver),
      send (run_pipeline self) msg r =
      (P_timestamp_filter (fst (timestamp_filter_send timestamp_filter_init msg))
         (P_pd0_filter
            (fst (stage_run pd0_filter_send pd0_filter_init
                    (snd (timestamp_filter_send timestamp_filter_init msg))))
            P_sink),
       fold_left (fun s m => sink m s)
         (snd (stage_run pd0_filter_send pd0_filter_init
                 (snd (timestamp_filter_send timestamp_filter_init msg))))
         r)) /\
   (forall (ts_locals : TsFilter) (pd0_locals : Pd0Filter) (msg : Msg)
           (r : Receiver),
      send (P_timestamp_filter ts_locals (P_pd0_filter pd0_locals P_sink)) msg r =
      (P_timestamp_filter (fst (timestamp_filter_send ts_locals msg))
         (P_pd0_filter
            (fst (stage_run pd0_filter_send pd0_locals
                    (snd (timestamp_filter_send ts_locals msg))))
            P_sink),
       fold_left (fun s m => sink m s)
         (snd (stage_run pd0_filter_send pd0_locals
                 (snd (timestamp_filter_send ts_locals msg))))
         r)) /\
   (forall script : list EnvEvent,
      forallb quiet script = true ->
      run script self =
      Running (snd (fold_left two_stage_step script
                      ((timestamp_filter_init, pd0_filter_init),
                       emit (Log LogReading) (run_entry self)))))) /\
  (forall (fuel : nat) (script rest : list EnvEvent) (pipeline : Pipeline)
          (buffer : str) (r : Receiver),
     _active self = true ->
     _recv script self = Return (Some buffer) r rest ->
     run_loop (S fuel) script self pipeline =
     run_loop fuel rest (snd (send pipeline (xelems_empty, buffer) r))
              (fst (send pipeline (xelems_empty, buffer) r))).
Proof.
  destruct (run_entry_fields self) as (_ & _ & _ & _ & Hentry).
  split; [|split].
  - intros H.
    assert (Hpl : run_pipeline self = sink_coroutine)
      by (unfold run_pipeline; rewrite H; reflexivity).
    split; [exact Hpl|]. split; [rewrite Hpl; reflexivity|].
    intros script Hq. rewrite (run_quiet_fold script self Hq).
    unfold run_pipeline. rewrite Hentry, H. unfold sink_coroutine.
    rewrite quiet_fold_digi_step. reflexivity.
  - intros H.
    assert (Hpl : run_pipeline self = timestamp_filter (pd0_filter sink_coroutine))
      by (unfold run_pipeline; rewrite H; reflexivity).
    split; [exact Hpl|]. split; [|split].
    + intros msg r. rewrite Hpl.
      unfold timestamp_filter, pd0_filter, sink_coroutine.
      apply send_two_stage.
    + apply send_two_stage.
    + intros script Hq. rewrite (run_quiet_fold script self Hq).
      unfold run_pipeline. rewrite Hentry, H.
      unfold timestamp_filter, pd0_filter, sink_coroutine.
      rewrite quiet_fold_two_stage. reflexivity.
  - intros fuel script rest pipeline buffer r Hact Hrecv.
    cbn [run_loop]. rewrite Hact, Hrecv.
    destruct (send pipeline (xelems_empty, buffer) r) as [pipeline' r'].
    reflexivity.
Qed.

End ReadLoopMore.

(** ** Invariants of a run *)

Section RunInvariant.
Context {D : Defs} {E : Elems} {F : Stages}.
Variable I : Receiver -> Prop.
Variable J : Pipeline -> Prop.
Hypothesis I_active : forall b s, I s -> I (set_active b s).
Hypothesis I_time : forall t s, I s -> I (set_recv_time t s).
Hypothesis I_emit :
  forall e s, (forall pd0, e <> ListenerCall pd0) -> I s -> I (emit e s).
Hypothesis IJ_send :
  forall pipeline buffer s, J pipeline -> I s ->
    J (fst (send pipeline (xelems_empty, buffer) s)) /\
    I (snd (send pipeline (xelems_empty, buffer) s)).

Lemma inv_update_outfile (buffer : str) (s : Receiver) :
  I s -> I (_update_outfile buffer s).
Proof.
  intros H. unfold _update_outfile. destruct (_outfile s); [|exact H].
  apply I_emit; [discriminate|]. apply I_emit; [discriminate | exact H].
Qed.

Lemma inv_recv_loop (script : list EnvEvent) : forall s : Receiver,
  I s ->
  match _recv_loop script s with
  | Return _ s' _ => I s'
  | Raise _ s' => I s'
  | Blocked s' => I s'
  end.
Proof.
  induction script as [|ev script IH]; intros s H; cbn [_recv_loop];
    [exact H|].
  destruct ev as [|[data|[| |]] now].
  - apply IH. apply I_active. exact H.
  - destruct (_active s && truthy_str data); [|exact H].
    apply inv_update_outfile. apply I_emit; [discriminate|].
    apply I_time. exact H.
  - destruct (_active s); [apply IH; exact H | exact H].
  - apply I_active. apply I_emit; [discriminate | exact H].
  - exact H.
Qed.

Lemma inv_run_loop (fuel : nat) :
  forall (script : list EnvEvent) (s : Receiver) (pipeline : Pipeline),
  I s -> J pipeline ->
  match run_loop fuel script s pipeline with
  | LoopExit s' _ _ => I s'
  | LoopRaised _ s' _ => I s'
  | LoopBlocked s' _ => I s'
  | LoopOutOfFuel => True
  end.
Proof.
  induction fuel as [|fuel IH]; intros script s pipeline Hs Hp;
    cbn [run_loop]; [exact Logic.I|].
  destruct (_active s); [|exact Hs].
  unfold _recv.
  assert (Hr : I (emit (Log LogReading) s))
    by (apply I_emit; [discriminate | exact Hs]).
  assert (Hloop : match (if _active (emit (Log LogReading) s)
                         then _recv_loop script (emit (Log LogReading) s)
                         else Return None (emit (Log LogReading) s) script) with
                  | Return _ s' _ => I s'
                  | Raise _ s' => I s'
                  | Blocked s' => I s'
                  end).
  { destruct (_active (emit (Log LogReading) s)); [|exact Hr].
    apply inv_recv_loop. exact Hr. }
  destruct (if _active (emit (Log LogReading) s)
            then _recv_loop script (emit (Log LogReading) s)
            else Return None (emit (Log LogReading) s) script)
    as [recv s1 rest|e s1|s1]; [|exact Hloop..].
  destruct recv as [buffer|].
  - destruct (IJ_send pipeline buffer s1 Hp Hloop) as [Hj Hi].
    destruct (send pipeline (xelems_empty, buffer) s1) as [pipeline2 s2].
    apply IH; assumption.
  - apply IH; assumption.
Qed.

Lemma inv_run (script : list EnvEvent) (self : Receiver) :
  I (run_entry self) -> J (run_pipeline (run_entry self)) ->
  match run script self with
  | Finished s' _ => I s'
  | Raised _ s' => I s'
  | Running s' => I s'
  | OutOfFuel => True
  end.
Proof.
  intros Hs Hp. unfold run. fold (run_entry self).
  pose proof (inv_run_loop (S (List.length script)) script (run_entry self)
                (run_pipeline (run_entry self)) Hs Hp) as H.
  destruct (run_loop (S (List.length script)) script (run_entry self)
              (run_pipeline (run_entry self))) as [s' pl' rest|e s' pl'|s' pl'|];
    try exact H.
  apply I_emit; [discriminate|]. unfold _end_outfile.
  assert (Hc : I (emit PipelineClose s')) by (apply I_emit; [discriminate | exact H]).
  destruct (_outfile (emit PipelineClose s')); [|exact Hc].
  apply I_emit; [discriminate|]. apply I_emit; [discriminate | exact Hc].
Qed.

End RunInvariant.

Section RunInvariants.
Context {D : Defs} {E : Elems} {F : Stages}.

Lemma listener_calls_emit (e : Event) (s : Receiver) :
  (forall pd0, e <> ListenerCall pd0) ->
  listener_calls (trace (emit e s)) = listener_calls (trace s).
Proof.
  intros He. unfold listener_calls. cbn [trace emit]. rewrite flat_map_app.
  destruct e as [r| pd0| w| |]; cbn; rewrite ?app_nil_r; try reflexivity.
  destruct (He pd0 eq_refl).
Qed.

(** X14: on an OOI Digi connection nothing is ever decoded: however [run]
    ends, the data listener was not invoked, the latest-timestamp and
    latest-ensemble slots hold what they held, and the state is
    [CollectingData] only if it was before. *)
Theorem digi_never_delivers (script : list EnvEvent) (self : Receiver) :
  _ooi_digi self = true ->
  match run script self with
  | Finished s' _ | Raised _ s' | Running s' =>
      listener_calls (trace s') = listener_calls (trace self) /\
      _latest_pd0 s' = _latest_pd0 self /\
      _latest_ts s' = _latest_ts self /\
      (_state s' = Some State.COLLECTING_DATA ->
       _state self = Some State.COLLECTING_DATA)
  | OutOfFuel => False
  end.
Proof.
  intros Hdigi.
  pose proof (run_spec script self) as Hspec.
  pose proof (inv_run
    (fun s => listener_calls (trace s) = listener_calls (trace self) /\
              _latest_pd0 s = _latest_pd0 self /\
              _latest_ts s = _latest_ts self /\
              (_state s = Some State.COLLECTING_DATA ->
               _state self = Some State.COLLECTING_DATA))
    (fun pipeline => pipeline = P_sink)) as Hinv.
  cbv beta in Hinv.
  assert (H : match run script self with
              | Finished s' _ | Raised _ s' | Running s' =>
                  listener_calls (trace s') = listener_calls (trace self) /\
                  _latest_pd0 s' = _latest_pd0 self /\
                  _latest_ts s' = _latest_ts self /\
                  (_state s' = Some State.COLLECTING_DATA ->
                   _state self = Some State.COLLECTING_DATA)
              | OutOfFuel => True
              end).
  { apply Hinv.
    - intros b s H. exact H.
    - intros t s H. exact H.
    - intros e s He (Hl & Hp & Ht & Hs).
      rewrite (listener_calls_emit e s He). auto.
    - intros pipeline buffer s Hp (Hl & Hpd & Ht & Hs). subst pipeline.
      split; [reflexivity|].
      change (snd (send P_sink (xelems_empty, buffer) s))
        with (sink (xelems_empty, buffer) s).
      rewrite sink_text. destruct (truthy_str buffer); [|auto].
      destruct (buffer_received_listener buffer s) as [Hl' Hp'].
      pose proof (buffer_received_frame buffer s) as Hf.
      unfold frame in Hf. injection Hf as _ _ _ _ _ _ _ Hts _ _.
      rewrite Hl', Hp', Hts. repeat split; auto.
      rewrite buffer_received_state. unfold next_state.
      destruct (str_eqb _ PROMPT); [discriminate|].
      destruct (negb _); [discriminate | exact Hs].
    - split.
      { rewrite (proj1 (run_entry_fields self)). unfold listener_calls.
        rewrite flat_map_app. cbn. rewrite app_nil_r. reflexivity. }
      unfold run_entry. destruct (_sock_timeout self); cbn; auto.
    - unfold run_pipeline. rewrite (proj2 (proj2 (proj2 (proj2
        (run_entry_fields self))))), Hdigi. reflexivity. }
  destruct (run script self); [exact H..|exact Hspec].
Qed.

(** X15: [run] gives the socket a timeout of 0.4 if it has none, and keeps
    the one it has; from then on, however the run ends, the timeout of the
    socket and the constructor arguments of the receiver are never
    changed. *)
Theorem run_keeps_configuration (script : list EnvEvent) (self : Receiver) :
  match run script self with
  | Finished s' _ | Raised _ s' | Running s' =>
      _sock_timeout s' =
        Some (match _sock_timeout self with
              | Some t => t
              | None => (4 # 10)%Q
              end) /\
      (_bufsize s', _ooi_digi s', _data_listener s', _outfile s',
       _prefix_state s') =
      (_bufsize self, _ooi_digi self, _data_listener self, _outfile self,
       _prefix_state self)
  | OutOfFuel => False
  end.
Proof.
  pose proof (run_spec script self) as Hspec.
  pose proof (inv_run (fun s => config s = config (run_entry self))
                (fun _ => True)) as Hinv.
  cbv beta in Hinv.
  assert (H : match run script self with
              | Finished s' _ | Raised _ s' | Running s' =>
                  config s' = config (run_entry self)
              | OutOfFuel => True
              end).
  { apply Hinv; auto.
    intros pipeline buffer s _ Hs. split; [exact Logic.I|].
    unfold send. rewrite config_send_all. exact Hs. }
  assert (Hentry : forall s', config s' = config (run_entry self) ->
    _sock_timeout s' =
      Some (match _sock_timeout self with
            | Some t => t
            | None => (4 # 10)%Q
            end) /\
    (_bufsize s', _ooi_digi s', _data_listener s', _outfile s',
     _prefix_state s') =
    (_bufsize self, _ooi_digi self, _data_listener self, _outfile self,
     _prefix_state self)).
  { intros s' Hc. unfold config, run_entry in Hc.
    destruct (_sock_timeout self) eqn:Ht; cbn in Hc; rewrite ?Ht in Hc;
      injection Hc as H1 H2 H3 H4 H5 H6; rewrite H1, H2, H3, H4, H5, H6; auto. }
  destruct (run script self); [apply Hentry; exact H..|exact Hspec].
Qed.

(** X16: a call of [end()] made before [run] is lost: [run] sets the
    active flag when it starts, so it behaves as if the call had not been
    made. *)
Theorem end_before_run_is_lost (script : list EnvEvent) (self : Receiver) :
  run script (end_ self) = run script self.
Proof.
  unfold run, end_.
  destruct (_sock_timeout self) eqn:Ht; cbn [_sock_timeout set_active];
    rewrite Ht; reflexivity.
Qed.

(** X17: a call of [end()] made while [run] waits in its first read takes
    effect when that read completes, whether it times out, returns data or
    fails with a socket error: [run] returns without reading further; data
    that read returned is dropped, neither mirrored to the outfile, nor
    given to the pipeline, nor timed. *)
Theorem end_during_read_drops_data (r : RecvResult) (now : Q)
    (rest : list EnvEvent) (self : Receiver) :
  r <> Raises other_exception ->
  exists s',
    run (EndCalled :: SockRecv r now :: rest) self = Finished s' rest /\
    _active s' = false /\
    tracker s' = tracker self /\
    _recv_time s' = _recv_time self /\
    (_latest_ts s', _latest_pd0 s') = (_latest_ts self, _latest_pd0 self) /\
    listener_calls (trace s') = listener_calls (trace self) /\
    outfile_bytes (trace s') =
      outfile_bytes (trace self) ++ (if _outfile self then end_mark else []).
Proof.
  intros Hr. rewrite run_unfold. unfold run_in_recv.
  destruct r as [data|[| |]]; [| | |congruence];
    cbn [List.length _recv_loop run_loop _active end_ set_active emit andb];
    (eexists; split; [reflexivity|]);
    unfold _end_outfile, run_entry, end_, outfile_bytes, listener_calls;
    destruct (_sock_timeout self);
    cbn [_outfile emit set_active set_sock_timeout];
    destruct (_outfile self);
    cbn [trace emit set_active set_sock_timeout];
    rewrite ?flat_map_app; cbn [flat_map];
    rewrite ?app_nil_r, <- ?app_assoc;
    repeat split; reflexivity.
Qed.

End RunInvariants.

(** ** The further properties at the sample receivers *)

Lemma history_reconstructs_input_witness :
  (len (_lines sample_receiver) +
   count_newlines (lit "ab" ++ [newline] ++ lit "cd") <= MAX_NUM_LINES)%Z /\
  terminated (_lines (snd (_update_lines (lit "ab" ++ [newline] ++ lit "cd")
                             sample_receiver))) ++
    _new_line (snd (_update_lines (lit "ab" ++ [newline] ++ lit "cd")
                      sample_receiver)) =
  terminated (_lines sample_receiver) ++ _new_line sample_receiver ++
    (lit "ab" ++ [newline] ++ lit "cd").
Proof.
  assert (H : (len (_lines sample_receiver) +
               count_newlines (lit "ab" ++ [newline] ++ lit "cd")
               <= MAX_NUM_LINES)%Z) by (vm_compute; discriminate).
  split; [exact H|].
  destruct (@history_reconstructs_input sample_elems
              (lit "ab" ++ [newline] ++ lit "cd") sample_receiver)
    as (dropped & Heq & Hnone).
  rewrite (Hnone H) in Heq. exact Heq.
Defined.

Lemma history_holds_lines_witness :
  forallb no_newline (_lines full_receiver) = true /\
  no_newline (_last_line full_receiver) = true /\
  no_newline (_new_line full_receiver) = true /\
  forallb no_newline
    (_lines (snd (_update_lines (terminated [numbered_line 1025])
                    full_receiver))) = true.
Proof.
  assert (H1 : forallb no_newline (_lines full_receiver) = true)
    by (vm_compute; reflexivity).
  assert (H2 : no_newline (_last_line full_receiver) = true)
    by (vm_compute; reflexivity).
  assert (H3 : no_newline (_new_line full_receiver) = true)
    by (vm_compute; reflexivity).
  do 3 (split; [assumption|]).
  exact (proj1 (@history_holds_lines sample_elems
                  (terminated [numbered_line 1025]) full_receiver H1 H2 H3)).
Defined.

Lemma last_line_is_newest_entry_witness :
  In newline (terminated [numbered_line 1025]) /\
  exists older,
    _lines (snd (_update_lines (terminated [numbered_line 1025])
                   full_receiver)) =
    older ++ [_last_line (snd (_update_lines (terminated [numbered_line 1025])
                                 full_receiver))].
Proof.
  assert (H : In newline (terminated [numbered_line 1025])).
  { unfold terminated. cbn [map List.concat]. rewrite app_nil_r.
    apply in_or_app. right. left. reflexivity. }
  split; [exact H|].
  exact (@last_line_is_newest_entry sample_elems
           (terminated [numbered_line 1025]) full_receiver (or_introl H)).
Defined.

Lemma prompt_with_trailing_whitespace_witness :
  _new_line sample_receiver = [] /\
  no_newline (@PROMPT sample_defs) = true /\
  rstrip (@PROMPT sample_defs) = @PROMPT sample_defs /\
  forallb isspace [carriage_return] = true /\
  no_newline [carriage_return] = true /\
  _state (@_buffer_received sample_defs sample_elems
            (@PROMPT sample_defs ++ [carriage_return] ++ [newline])
            sample_receiver) = Some State.PROMPT.
Proof.
  do 5 (split; [reflexivity|]).
  exact (@prompt_with_trailing_whitespace sample_defs sample_elems
           [carriage_return] sample_receiver
           eq_refl eq_refl eq_refl eq_refl eq_refl).
Defined.

Lemma reset_clears_tracker_only_witness :
  _state prompted_receiver = Some State.PROMPT /\
  trace (reset_internal_info prompted_receiver) =
    trace prompted_receiver ++
    [Log (LogTransition (Some State.PROMPT) State.TBD [])] /\
  _state sample_receiver = Some State.TBD /\
  trace (reset_internal_info sample_receiver) = trace sample_receiver.
Proof.
  assert (H1 : _state prompted_receiver <> Some State.TBD)
    by (vm_compute; discriminate).
  split; [reflexivity|]. split; [|split; [reflexivity|]].
  - exact (proj1 (proj2 (proj2 (proj2 (proj2 (proj2
             (@reset_clears_tracker_only sample_elems prompted_receiver))))))
             H1).
  - exact (proj1 (proj2 (proj2 (proj2 (proj2
             (@reset_clears_tracker_only sample_elems sample_receiver)))))
             eq_refl).
Defined.

Lemma outfile_mirrors_buffer_witness :
  _outfile prompted_receiver = true /\
  _prefix_state prompted_receiver = true /\
  no_newline (@str_of_state sample_defs (_state prompted_receiver)) = true /\
  exists written,
    trace (@_update_outfile sample_defs sample_elems
             (lit "a" ++ [newline] ++ lit "b") prompted_receiver) =
      trace prompted_receiver ++ [OutfileWrite written; OutfileFlush] /\
    len written = 25%Z /\
    count_newlines written = 1%Z.
Proof.
  do 3 (split; [reflexivity|]).
  destruct (proj2 (proj2 (proj2 (@outfile_mirrors_buffer sample_defs
              sample_elems (lit "a" ++ [newline] ++ lit "b")
              prompted_receiver))) eq_refl)
    as (written & Ht & _ & _ & Hp).
  destruct (Hp eq_refl) as [Hlen Hcount].
  exists written. split; [exact Ht|]. split.
  - rewrite Hlen. reflexivity.
  - rewrite (Hcount eq_refl). reflexivity.
Defined.

Lemma text_overrides_ensemble_witness :
  x_pd0 (fst sample_mixed_msg) = Some sample_pd0 /\
  @pd0_truthy sample_elems sample_pd0 = true /\
  In newline (snd sample_mixed_msg) /\
  _state (@sink sample_defs sample_elems sample_mixed_msg sample_receiver) =
    None /\
  _latest_pd0 (@sink sample_defs sample_elems sample_mixed_msg sample_receiver) =
    Some sample_pd0.
Proof.
  assert (Hin : In newline (snd sample_mixed_msg))
    by (cbn; right; right; right; left; reflexivity).
  assert (Hne : snd sample_mixed_msg <> []) by discriminate.
  assert (Hp : rstrip (_last_line (@sink sample_defs sample_elems
                         (fst sample_mixed_msg, snd sample_mixed_msg)
                         sample_receiver)) <> @PROMPT sample_defs)
    by (vm_compute; discriminate).
  do 2 (split; [reflexivity|]). split; [exact Hin|]. split; [|reflexivity].
  exact (proj1 (proj2 (@text_overrides_ensemble sample_defs sample_elems
                         (fst sample_mixed_msg) (snd sample_mixed_msg)
                         sample_pd0 sample_receiver eq_refl eq_refl Hne))
           Hp Hin).
Defined.

Lemma recv_returns_read_data_witness :
  exists s',
    @_recv sample_defs sample_elems quiet_script active_receiver =
      Return (Some (lit "abc" ++ [newline])) s' [] /\
    _active s' = true /\ _recv_time s' = (2 # 1)%Q.
Proof.
  eexists. split; [vm_compute; reflexivity|].
  destruct (proj1 (@recv_returns_read_data sample_defs sample_elems
                     quiet_script active_receiver)
              (lit "abc" ++ [newline]) _ [] eq_refl)
    as (_ & _ & Hact & _).
  split; [exact Hact | reflexivity].
Defined.

Lemma outfile_receives_all_data_witness :
  forallb quiet quiet_script = true /\
  _outfile plain_receiver = true /\ _prefix_state plain_receiver = false /\
  exists s',
    @run sample_defs sample_elems sample_stages error_script plain_receiver =
      Finished s' [SockRecv (Returns (lit "late")) (4 # 1)%Q] /\
    outfile_bytes (trace s') = lit "abc" ++ [newline] ++ end_mark.
Proof.
  do 3 (split; [reflexivity|]).
  destruct (proj2 (@outfile_receives_all_data sample_defs sample_elems
                     sample_stages quiet_script plain_receiver
                     eq_refl eq_refl eq_refl)
              (3 # 1)%Q [SockRecv (Returns (lit "late")) (4 # 1)%Q])
    as (s' & Hrun & Hout).
  exists s'. split; [exact Hrun|]. rewrite Hout. reflexivity.
Defined.

Lemma digi_run_depends_on_bytes_only_witness :
  forallb quiet quiet_script = true /\
  forallb quiet recut_script = true /\
  _ooi_digi digi_receiver = true /\
  data_of recut_script = data_of quiet_script /\
  exists s1 s2,
    @run sample_defs sample_elems sample_stages quiet_script digi_receiver =
      Running s1 /\
    @run sample_defs sample_elems sample_stages recut_script digi_receiver =
      Running s2 /\
    tracker s1 = tracker s2.
Proof.
  do 4 (split; [reflexivity|]).
  exact (proj2 (@digi_run_depends_on_bytes_only sample_defs sample_elems
                  sample_stages quiet_script digi_receiver eq_refl eq_refl)
           recut_script eq_refl eq_refl).
Defined.

Lemma timeouts_leave_no_trace_witness :
  forallb quiet recut_script = true /\
  @run sample_defs sample_elems sample_stages
    (filter (fun ev => negb (is_timeout ev)) recut_script) sample_receiver =
  @run sample_defs sample_elems sample_stages recut_script sample_receiver.
Proof.
  split; [reflexivity|].
  exact (@timeouts_leave_no_trace sample_defs sample_elems sample_stages
           recut_script sample_receiver eq_refl).
Defined.

Lemma foreign_exception_skips_closing_witness :
  forallb quiet quiet_script = true /\
  exists s',
    @run sample_defs sample_elems sample_stages foreign_script
      sample_receiver = Raised other_exception s' /\
    _active s' = true /\
    @run sample_defs sample_elems sample_stages quiet_script
      sample_receiver = Running s' /\
    _prefix_state sample_receiver = true /\
    writes (trace s') =
      [replace_newline ([newline] ++ rjust20 (lit "TBD") ++ lit "| ")
         (lit "abc" ++ [newline])].
Proof.
  split; [reflexivity|].
  destruct (@foreign_exception_skips_closing sample_defs sample_elems
              sample_stages quiet_script (3 # 1)%Q [] sample_receiver eq_refl)
    as (s' & Hrun & Hact & Hpre & _).
  exists s'. split; [exact Hrun|]. split; [exact Hact|].
  split; [exact Hpre|]. split; [reflexivity|].
  assert (Hs : Running s' =
               @run sample_defs sample_elems sample_stages quiet_script
                 sample_receiver) by (symmetry; exact Hpre).
  vm_compute in Hs. injection Hs as Hs. subst s'.
  vm_compute. reflexivity.
Defined.

Lemma digi_never_delivers_witness :
  _ooi_digi digi_receiver = true /\
  match @run sample_defs sample_elems sample_stages error_script
          digi_receiver with
  | Finished s' _ | Raised _ s' | Running s' =>
      listener_calls (trace s') = listener_calls (trace digi_receiver) /\
      _latest_pd0 s' = _latest_pd0 digi_receiver /\
      _latest_ts s' = _latest_ts digi_receiver /\
      (_state s' = Some State.COLLECTING_DATA ->
       _state digi_receiver = Some State.COLLECTING_DATA)
  | OutOfFuel => False
  end.
Proof.
  split; [reflexivity|].
  exact (@digi_never_delivers sample_defs sample_elems sample_stages
           error_script digi_receiver eq_refl).
Defined.

Lemma end_during_read_drops_data_witness :
  Returns (lit "abc" ++ [newline]) <> Raises other_exception /\
  exists s',
    @run sample_defs sample_elems sample_stages
      [EndCalled; SockRecv (Returns (lit "abc" ++ [newline])) (1 # 1)%Q]
      plain_receiver = Finished s' [] /\
    _lines s' = [] /\
    outfile_bytes (trace s') = end_mark.
Proof.
  assert (H : Returns (lit "abc" ++ [newline]) <> Raises other_exception)
    by discriminate.
  split; [exact H|].
  destruct (@end_during_read_drops_data sample_defs sample_elems sample_stages
              (Returns (lit "abc" ++ [newline])) (1 # 1)%Q [] plain_receiver H)
    as (s' & Hrun & _ & Htr & _ & _ & _ & Hout).
  exists s'. split; [exact Hrun|]. split.
  - exact (f_equal (fun t => v_lines (fst t)) Htr).
  - exact Hout.
Defined.

(** ** Leaving the loop, and the order of the pipeline *)



Lemma run_pipeline_order_witness :
  (_ooi_digi digi_receiver = true /\
   @run_pipeline sample_elems marking_stages digi_receiver = sink_coroutine /\
   exists s',
     @run sample_defs sample_elems marking_stages quiet_script digi_receiver =
       Running s' /\
     _lines s' = [lit "abc"] /\
     _latest_ts s' = None /\
     listener_calls (trace s') = []) /\
  (_ooi_digi sample_receiver = false /\
   @run_pipeline sample_elems marking_stages sample_receiver =
     timestamp_filter (pd0_filter sink_coroutine) /\
   exists s',
     @run sample_defs sample_elems marking_stages quiet_script sample_receiver =
       Running s' /\
     _lines s' = [] /\
     _latest_ts s' = Some (lit "ts") /\
     listener_calls (trace s') = [lit "abc" ++ [newline]]).
Proof.
  split.
  - destruct (proj1 (@run_pipeline_order sample_defs sample_elems
                       marking_stages digi_receiver) eq_refl)
      as (Hpl & _ & Hrun).
    split; [reflexivity|]. split; [exact Hpl|].
    eexists. split; [exact (Hrun quiet_script eq_refl)|].
    vm_compute. auto.
  - destruct (proj1 (proj2 (@run_pipeline_order sample_defs sample_elems
                              marking_stages sample_receiver)) eq_refl)
      as (Hpl & _ & _ & Hrun).
    split; [reflexivity|]. split; [exact Hpl|].
    eexists. split; [exact (Hrun quiet_script eq_refl)|].
    vm_compute. auto.
Defined.
